(** * Nibbler's UCI engine driver (src/90_engine.js), embedded in Rocq

    The driver is a JavaScript object [eng] whose methods mutate its own
    fields, write lines to the standard input of a child process and call
    back into the hub.  The embedding keeps that shape:

    - JavaScript strings are [string]s of 8-bit code units; [trim],
      [startsWith], [toLowerCase], [indexOf] and [slice] are written out;
    - objects compared with [===] carry the heap location they were
      allocated at; arrays live in an explicit heap with a frozen flag;
    - the methods run in a small state / exception / output monad, the
      output being the trace of calls that leave the driver (writes to the
      child's stdin, log lines, IPC messages, hub callbacks). *)

From Stdlib Require Import ZArith String Ascii List Bool Lia DecimalString DecimalPos.
From stdpp Require Import base gmap strings list.

(** ** JavaScript strings *)

(** Code units that [String.prototype.trim] strips, among the code units
    below 256: TAB, LF, VT, FF, CR, SPACE and NBSP. *)
Definition is_js_space (c : ascii) : bool :=
  let n := N_of_ascii c in
  ((9 <=? n) && (n <=? 13) || (n =? 32) || (n =? 160))%N.

Fixpoint trimStart (s : string) : string :=
  match s with
  | EmptyString => EmptyString
  | String c s' => if is_js_space c then trimStart s' else s
  end.

Fixpoint trimEnd (s : string) : string :=
  match s with
  | EmptyString => EmptyString
  | String c s' =>
      match trimEnd s' with
      | EmptyString => if is_js_space c then EmptyString else String c EmptyString
      | r => String c r
      end
  end.

(** [msg.trim()] *)
Definition trim (s : string) : string := trimEnd (trimStart s).

(** [s.startsWith(p)] *)
Fixpoint startsWith (s p : string) {struct p} : bool :=
  match p, s with
  | EmptyString, _ => true
  | String _ _, EmptyString => false
  | String a p', String b s' => if Ascii.eqb a b then startsWith s' p' else false
  end.

(** Lower-casing of one code unit: A-Z and the Latin-1 capitals. *)
Definition lower_char (c : ascii) : ascii :=
  let n := N_of_ascii c in
  if ((65 <=? n) && (n <=? 90) || (192 <=? n) && (n <=? 222) && negb (n =? 215))%N
  then ascii_of_N (n + 32) else c.

(** [s.toLowerCase()] *)
Fixpoint toLowerCase (s : string) : string :=
  match s with
  | EmptyString => EmptyString
  | String c s' => String (lower_char c) (toLowerCase s')
  end.

Fixpoint index_from_start (s p : string) : option nat :=
  if startsWith s p then Some 0%nat
  else match s with
       | EmptyString => None
       | String _ s' => S <$> index_from_start s' p
       end.

(** [s.indexOf(p)], with JavaScript's [-1] for "not found". *)
Definition indexOf (s p : string) : Z :=
  match index_from_start s p with
  | Some n => Z.of_nat n
  | None => (-1)%Z
  end.

(** [s.includes(p)] *)
Definition includes (s p : string) : bool :=
  negb (indexOf s p =? -1)%Z.

(** Index normalisation of [slice]: a negative index counts from the end,
    and everything is clamped to [0 .. len]. *)
Definition clamp_index (len i : Z) : Z :=
  if (i <? 0)%Z then Z.max (len + i) 0 else Z.min i len.

(** [s.slice(a, b)] *)
Definition slice (s : string) (a b : Z) : string :=
  let len := Z.of_nat (String.length s) in
  let from := clamp_index len a in
  let to := clamp_index len b in
  substring (Z.to_nat from) (Z.to_nat (to - from)) s.

(** [s.slice(a)] *)
Definition slice_from (s : string) (a : Z) : string :=
  slice s a (Z.of_nat (String.length s)).

(** [arr.join(sep)] *)
Fixpoint join (sep : string) (l : list string) : string :=
  match l with
  | [] => ""
  | x :: l' =>
      match l' with
      | [] => x
      | _ :: _ => x +:+ sep +:+ join sep l'
      end
  end.

(** Template-literal conversion of an integral Number (the search limit):
    its decimal digits, with a minus sign for a negative number.  This is
    what JavaScript prints for an integer below 2^53 in absolute value;
    above that it prints the shortest digits that give the same Number, and
    from 1e21 on exponent notation, which this definition does not follow.
    What is proved of the digits is stated for limits within that range. *)
Definition number_to_string (n : Z) : string :=
  NilZero.string_of_int (Z.to_int n).

(** The line terminator written after every command. *)
Definition newline : string := String (ascii_of_N 10) EmptyString.

(** ** The JavaScript heap: arrays and object identity *)

(** A heap location.  Two references are [===] exactly when they are the
    same location. *)
Definition loc := nat.

(** An array of move tokens, with the flag set by [Object.freeze]. *)
Record JsArray := mkArray {
  elems : list string;
  frozen : bool
}.

(** The arrays allocated so far and the next free location.  Objects whose
    only observable property is their identity (the SearchParams records,
    which are frozen at birth) take a location from the same counter. *)
Record Heap := mkHeap {
  arrays : gmap loc JsArray;
  next_loc : loc
}.

(** Every allocated array sits below the allocation pointer. *)
Definition heap_wf (h : Heap) : Prop :=
  forall l a, arrays h !! l = Some a -> (l < next_loc h)%nat.

(** Reading the elements behind an array reference. *)
Definition array_elems (h : Heap) (l : loc) : list string :=
  match arrays h !! l with
  | Some a => elems a
  | None => []
  end.

(** [let a = [...]] : a new, unfrozen array. *)
Definition alloc_array (xs : list string) (h : Heap) : loc * Heap :=
  (next_loc h,
   {| arrays := <[next_loc h := mkArray xs false]> (arrays h);
      next_loc := S (next_loc h) |}).

(** [Object.freeze(a)] on an array: sets the flag of that array only. *)
Definition freeze_array (l : loc) (h : Heap) : Heap :=
  {| arrays := alter (fun a => mkArray (elems a) true) l (arrays h);
     next_loc := next_loc h |}.

(** Taking a fresh identity for a new object. *)
Definition alloc_object (h : Heap) : loc * Heap :=
  (next_loc h, {| arrays := arrays h; next_loc := S (next_loc h) |}).

(** ** The hub's game tree, as far as the driver looks into it *)

(** A reference to a node object of the hub; [===] on nodes is equality
    of references. *)
Definition NodeRef := nat.

(** What the driver reads from a node.  All of it belongs to the chess
    model, which is outside this file. *)
Record Node := mkNode {
  destroyed : bool;                    (* node.destroyed *)
  terminal_reason : string;            (* node.terminal_reason() *)
  root_fen : bool -> string;           (* node.get_root().board.fen(friendly) *)
  history_old_format : list string;    (* node.history_old_format() *)
  history : list string;               (* node.history() *)
  graphic : string;                    (* node.board.graphic() *)
  legal : string -> bool               (* the moves the node accepts *)
}.

(** The enumerated configuration the driver reads. *)
Record Config := mkConfig {
  log_positions : bool;
  log_info_lines : bool;
  use_movetime : bool;
  searchmoves_buttons : bool
}.

(** The child process behind [eng.exe].  [stdin_budget] says how many more
    calls of [stdin.write] succeed before the pipe breaks and [write]
    throws; [None] is a pipe that never breaks. *)
Record ChildProcess := mkChild {
  stdin_budget : option nat
}.

(** Everything the driver reads from its surroundings during one call. *)
Record Env := mkEnv {
  nodes : NodeRef -> Node;
  config : Config;
  performance_now : Z;                                   (* performance.now() *)
  messages_send_fail : string;                           (* messages.send_fail *)
  SafeString : string -> string;
  suppressed_options_lc0 : string -> bool;
  suppressed_options_ab : string -> bool;
  spawn : string -> list string -> ChildProcess + string (* inr: spawn throws *)
}.

(** ** SearchParams *)

(** A frozen SearchParams object: its identity and its three fields.
    [searchmoves] is a reference to an array in the heap. *)
Record SearchParams := mkSearchParams {
  sp_loc : loc;
  node : option NodeRef;
  limit : option Z;
  searchmoves : loc
}.

(** [a === b] on SearchParams objects. *)
Definition same_object (a b : SearchParams) : bool :=
  Nat.eqb (sp_loc a) (sp_loc b).

(** The module-level allocations: the frozen empty array at location 0 and
    the [NoSearch] object at location 1. *)
Definition NoSearch : SearchParams :=
  {| sp_loc := 1; node := None; limit := None; searchmoves := 0 |}.

Definition initial_heap : Heap :=
  {| arrays := {[ 0%nat := mkArray [] true ]}; next_loc := 2 |}.

(** Modelled from the spec: [node.validate_searchmoves(arr)] belongs to the
    chess model and is not in this file; the spec has it return "a fresh
    sequence containing only moves legal in that position", and the call
    site's comment says "returns a new array".  It reads the argument and
    allocates the result. *)
Definition validate_searchmoves (n : Node) (arr : loc) (h : Heap) : loc * Heap :=
  alloc_array (List.filter (legal n) (array_elems h arr)) h.

(** Modelled from the spec: [CompareArrays(a, b)] is a helper outside this
    file; the search is "different" when the searchmoves differ, so it is
    element-wise equality of the two arrays. *)
Definition CompareArrays (h : Heap) (a b : loc) : bool :=
  bool_decide (array_elems h a = array_elems h b).

(** [SearchParams(node, limit, searchmoves)].  The third argument is [None]
    when the caller passes no array ([Array.isArray] is false). *)
Definition SearchParams_new (nds : NodeRef -> Node)
    (nd : option NodeRef) (lim : option Z) (moves : option loc) (h : Heap)
  : SearchParams * Heap :=
  match nd with
  | None => (NoSearch, h)
  | Some n =>
      let '(validated, h1) :=
        match moves with
        | Some arr => validate_searchmoves (nds n) arr h
        | None => alloc_array [] h
        end in
      let h2 := freeze_array validated h1 in
      let '(l, h3) := alloc_object h2 in
      ({| sp_loc := l; node := Some n; limit := lim; searchmoves := validated |}, h3)
  end.

(** ** What leaves the driver *)

(** One constructor per kind of call out of the driver.  A trace lists them
    in program order. *)
Inductive Event :=
| StdinWrite (s : string)                           (* exe.stdin.write(s) returned *)
| LogLine (s : string)                              (* Log(s) *)
| ConsoleLog (s : string)                           (* console.log(s) *)
| Alert (s : string)                                (* alert(s) *)
| IpcAckSetoption (key val : string)                (* ipcRenderer.send("ack_setoption", {key, val}) *)
| IpcAckEngineStart (path : string)                 (* ipcRenderer.send("ack_engine_start", path) *)
| HubReceiveBestmove (line : string) (n : option NodeRef)   (* hub.receive_bestmove(line, node) *)
| HubInfoReceive (n : option NodeRef) (line : string)       (* hub.info_handler.receive(eng, node, line) *)
| HubErrReceive (line : string)                     (* hub.err_receive(line) *)
| HubReceiveMisc (line : string)                    (* hub.receive_misc(line) *)
| SetTimeoutKill (ms : Z).                          (* setTimeout(() => exe.kill(), ms) *)

(** The strings handed to [stdin.write], in order. *)
Fixpoint stdin_writes (tr : list Event) : list string :=
  match tr with
  | [] => []
  | StdinWrite s :: tr' => s :: stdin_writes tr'
  | _ :: tr' => stdin_writes tr'
  end.

(** The [receive_bestmove] calls of a trace. *)
Fixpoint bestmoves_forwarded (tr : list Event) : list (string * option NodeRef) :=
  match tr with
  | [] => []
  | HubReceiveBestmove l n :: tr' => (l, n) :: bestmoves_forwarded tr'
  | _ :: tr' => bestmoves_forwarded tr'
  end.

(** The [info_handler.receive] calls of a trace. *)
Fixpoint infos_forwarded (tr : list Event) : list (option NodeRef * string) :=
  match tr with
  | [] => []
  | HubInfoReceive n l :: tr' => (n, l) :: infos_forwarded tr'
  | _ :: tr' => infos_forwarded tr'
  end.

(** The [ack_setoption] messages of a trace. *)
Fixpoint acks_sent (tr : list Event) : list (string * string) :=
  match tr with
  | [] => []
  | IpcAckSetoption k v :: tr' => (k, v) :: acks_sent tr'
  | _ :: tr' => acks_sent tr'
  end.

(** ** The driver object *)

(** The fields of [eng], in the order [NewEngine] creates them ([hub] apart,
    whose counters are in [InfoHandler] below; the two readline scanners
    are kept as "attached or not"). *)
Record Engine := mkEngine {
  exe : option ChildProcess;
  scanner : bool;
  err_scanner : bool;
  last_send : option string;
  unresolved_stop_time : option Z;
  ever_received_uciok : bool;
  ever_received_readyok : bool;
  have_quit : bool;
  suppress_cycle_info : option Z;
  sent_options : gmap string string;
  setoption_queue : list string;
  warned_send_fail : bool;
  leelaish : bool;
  search_running : SearchParams;
  search_desired : SearchParams;
  search_completed : SearchParams
}.

(** [hub.info_handler]'s two counters, which the driver increments.  They
    are Numbers; as integers here, [++] is exact below 2^53 in absolute
    value, and what is proved of the counting is stated for that range. *)
Record InfoHandler := mkInfoHandler {
  engine_cycle : Z;
  engine_subcycle : Z
}.

(** The mutable state a driver method runs in. *)
Record World := mkWorld {
  heap : Heap;
  info_handler : InfoHandler;
  eng : Engine
}.

(** [NewEngine(hub)] *)
Definition NewEngine : Engine :=
  {| exe := None; scanner := false; err_scanner := false;
     last_send := None; unresolved_stop_time := None;
     ever_received_uciok := false; ever_received_readyok := false;
     have_quit := false; suppress_cycle_info := None;
     sent_options := ∅; setoption_queue := [];
     warned_send_fail := false; leelaish := false;
     search_running := NoSearch; search_desired := NoSearch;
     search_completed := NoSearch |}.

(** Field assignments [this.f = v]. *)
Definition set_exe (v : option ChildProcess) (e : Engine) : Engine :=
  mkEngine v (scanner e) (err_scanner e) (last_send e) (unresolved_stop_time e)
    (ever_received_uciok e) (ever_received_readyok e) (have_quit e)
    (suppress_cycle_info e) (sent_options e) (setoption_queue e)
    (warned_send_fail e) (leelaish e) (search_running e) (search_desired e)
    (search_completed e).

Definition set_scanners (v : bool) (e : Engine) : Engine :=
  mkEngine (exe e) v v (last_send e) (unresolved_stop_time e)
    (ever_received_uciok e) (ever_received_readyok e) (have_quit e)
    (suppress_cycle_info e) (sent_options e) (setoption_queue e)
    (warned_send_fail e) (leelaish e) (search_running e) (search_desired e)
    (search_completed e).

Definition set_last_send (v : option string) (e : Engine) : Engine :=
  mkEngine (exe e) (scanner e) (err_scanner e) v (unresolved_stop_time e)
    (ever_received_uciok e) (ever_received_readyok e) (have_quit e)
    (suppress_cycle_info e) (sent_options e) (setoption_queue e)
    (warned_send_fail e) (leelaish e) (search_running e) (search_desired e)
    (search_completed e).

Definition set_unresolved_stop_time (v : option Z) (e : Engine) : Engine :=
  mkEngine (exe e) (scanner e) (err_scanner e) (last_send e) v
    (ever_received_uciok e) (ever_received_readyok e) (have_quit e)
    (suppress_cycle_info e) (sent_options e) (setoption_queue e)
    (warned_send_fail e) (leelaish e) (search_running e) (search_desired e)
    (search_completed e).

Definition set_ever_received_uciok (v : bool) (e : Engine) : Engine :=
  mkEngine (exe e) (scanner e) (err_scanner e) (last_send e) (unresolved_stop_time e)
    v (ever_received_readyok e) (have_quit e)
    (suppress_cycle_info e) (sent_options e) (setoption_queue e)
    (warned_send_fail e) (leelaish e) (search_running e) (search_desired e)
    (search_completed e).

Definition set_ever_received_readyok (v : bool) (e : Engine) : Engine :=
  mkEngine (exe e) (scanner e) (err_scanner e) (last_send e) (unresolved_stop_time e)
    (ever_received_uciok e) v (have_quit e)
    (suppress_cycle_info e) (sent_options e) (setoption_queue e)
    (warned_send_fail e) (leelaish e) (search_running e) (search_desired e)
    (search_completed e).

Definition set_have_quit (v : bool) (e : Engine) : Engine :=
  mkEngine (exe e) (scanner e) (err_scanner e) (last_send e) (unresolved_stop_time e)
    (ever_received_uciok e) (ever_received_readyok e) v
    (suppress_cycle_info e) (sent_options e) (setoption_queue e)
    (warned_send_fail e) (leelaish e) (search_running e) (search_desired e)
    (search_completed e).

Definition set_suppress_cycle_info (v : option Z) (e : Engine) : Engine :=
  mkEngine (exe e) (scanner e) (err_scanner e) (last_send e) (unresolved_stop_time e)
    (ever_received_uciok e) (ever_received_readyok e) (have_quit e)
    v (sent_options e) (setoption_queue e)
    (warned_send_fail e) (leelaish e) (search_running e) (search_desired e)
    (search_completed e).

Definition set_sent_options (v : gmap string string) (e : Engine) : Engine :=
  mkEngine (exe e) (scanner e) (err_scanner e) (last_send e) (unresolved_stop_time e)
    (ever_received_uciok e) (ever_received_readyok e) (have_quit e)
    (suppress_cycle_info e) v (setoption_queue e)
    (warned_send_fail e) (leelaish e) (search_running e) (search_desired e)
    (search_completed e).

Definition set_setoption_queue (v : list string) (e : Engine) : Engine :=
  mkEngine (exe e) (scanner e) (err_scanner e) (last_send e) (unresolved_stop_time e)
    (ever_received_uciok e) (ever_received_readyok e) (have_quit e)
    (suppress_cycle_info e) (sent_options e) v
    (warned_send_fail e) (leelaish e) (search_running e) (search_desired e)
    (search_completed e).

Definition set_warned_send_fail (v : bool) (e : Engine) : Engine :=
  mkEngine (exe e) (scanner e) (err_scanner e) (last_send e) (unresolved_stop_time e)
    (ever_received_uciok e) (ever_received_readyok e) (have_quit e)
    (suppress_cycle_info e) (sent_options e) (setoption_queue e)
    v (leelaish e) (search_running e) (search_desired e)
    (search_completed e).

Definition set_search_running (v : SearchParams) (e : Engine) : Engine :=
  mkEngine (exe e) (scanner e) (err_scanner e) (last_send e) (unresolved_stop_time e)
    (ever_received_uciok e) (ever_received_readyok e) (have_quit e)
    (suppress_cycle_info e) (sent_options e) (setoption_queue e)
    (warned_send_fail e) (leelaish e) v (search_desired e)
    (search_completed e).

Definition set_search_desired_field (v : SearchParams) (e : Engine) : Engine :=
  mkEngine (exe e) (scanner e) (err_scanner e) (last_send e) (unresolved_stop_time e)
    (ever_received_uciok e) (ever_received_readyok e) (have_quit e)
    (suppress_cycle_info e) (sent_options e) (setoption_queue e)
    (warned_send_fail e) (leelaish e) (search_running e) v
    (search_completed e).

Definition set_search_completed (v : SearchParams) (e : Engine) : Engine :=
  mkEngine (exe e) (scanner e) (err_scanner e) (last_send e) (unresolved_stop_time e)
    (ever_received_uciok e) (ever_received_readyok e) (have_quit e)
    (suppress_cycle_info e) (sent_options e) (setoption_queue e)
    (warned_send_fail e) (leelaish e) (search_running e) (search_desired e)
    v.

(** ** The monad of driver methods *)

(** A method either returns or throws; both keep the state reached and the
    trace produced so far. *)
Inductive Result (A : Type) : Type :=
| Ok (a : A) (w : World) (tr : list Event)
| Throw (err : string) (w : World) (tr : list Event).

Arguments Ok {A} a w tr.
Arguments Throw {A} err w tr.

Definition M (A : Type) : Type := World -> Result A.

Definition ret {A} (a : A) : M A := fun w => Ok a w [].

Definition bind {A B} (m : M A) (f : A -> M B) : M B := fun w =>
  match m w with
  | Ok a w1 t1 =>
      match f a w1 with
      | Ok b w2 t2 => Ok b w2 (t1 ++ t2)
      | Throw err w2 t2 => Throw err w2 (t1 ++ t2)
      end
  | Throw err w1 t1 => Throw err w1 t1
  end.

Declare Scope drv_scope.
Delimit Scope drv_scope with drv.
Bind Scope drv_scope with M.

Notation "x <- m ;; k" := (bind m (fun x => k))
  (at level 100, m at next level, right associativity) : drv_scope.
Notation "m ;; k" := (bind m (fun _ => k))
  (at level 100, right associativity) : drv_scope.

Definition throw {A} (err : string) : M A := fun w => Throw err w [].
Definition emit (ev : Event) : M unit := fun w => Ok tt w [ev].
Definition get_eng : M Engine := fun w => Ok (eng w) w [].
Definition get_heap : M Heap := fun w => Ok (heap w) w [].
Definition get_info_handler : M InfoHandler := fun w => Ok (info_handler w) w [].

Definition modify_eng (f : Engine -> Engine) : M unit := fun w =>
  Ok tt (mkWorld (heap w) (info_handler w) (f (eng w))) [].

Definition modify_info_handler (f : InfoHandler -> InfoHandler) : M unit := fun w =>
  Ok tt (mkWorld (heap w) (f (info_handler w)) (eng w)) [].

(** Running an allocation of the heap layer. *)
Definition with_heap {A} (f : Heap -> A * Heap) : M A := fun w =>
  let '(a, h) := f (heap w) in Ok a (mkWorld h (info_handler w) (eng w)) [].

(** [for (let x of l) body(x)], for a body that leaves [l] alone. *)
Fixpoint for_each {A} (l : list A) (body : A -> M unit) : M unit :=
  match l with
  | [] => ret tt
  | x :: l' => bind (body x) (fun _ => for_each l' body)
  end.

(** The state and the trace a run ends with, returned or thrown. *)
Definition world_of {A} (r : Result A) : World :=
  match r with Ok _ w _ => w | Throw _ w _ => w end.

Definition trace_of {A} (r : Result A) : list Event :=
  match r with Ok _ _ tr => tr | Throw _ _ tr => tr end.

Definition returned {A} (r : Result A) : bool :=
  match r with Ok _ _ _ => true | Throw _ _ _ => false end.

(** Truthiness of a value that is [null] or an object. *)
Definition truthy {A} (o : option A) : bool :=
  match o with Some _ => true | None => false end.

(** Truthiness of a value that is [null] or a number: zero is falsy. *)
Definition truthy_number (o : option Z) : bool :=
  match o with Some n => negb (n =? 0)%Z | None => false end.

(** Truthiness of a string: the empty string is falsy. *)
Definition truthy_string (s : string) : bool :=
  match s with EmptyString => false | String _ _ => true end.

(** ** The methods of [eng] *)

Section Driver.

Variable env : Env.

Local Open Scope drv_scope.

(** [eng.in_960_mode()] *)
Definition in_960_mode (e : Engine) : bool :=
  bool_decide (sent_options e !! "uci_chess960" = Some "true").

(** [eng.send_ack_setoption_to_main_process(name)] *)
Definition send_ack_setoption_to_main_process (name : string) : M (string * string) :=
  let key := toLowerCase name in
  e <- get_eng ;;
  let val := match sent_options e !! key with
             | Some v => v
             | None => ""
             end in
  emit (IpcAckSetoption key val) ;;
  ret (key, val).

(** One [this.exe.stdin.write(s)]: [true] when it returned, [false] when it
    threw. *)
Definition stdin_write (s : string) : M bool :=
  e <- get_eng ;;
  match exe e with
  | None => ret false
  | Some p =>
      match stdin_budget p with
      | None => emit (StdinWrite s) ;; ret true
      | Some (S k) =>
          modify_eng (set_exe (Some (mkChild (Some k)))) ;;
          emit (StdinWrite s) ;; ret true
      | Some O => ret false
      end
  end.

(** The [name ... value ...] fragment [send] finds in a [setoption] line:
    the key and the value it goes on to record, if it records any. *)
Definition parse_setoption (msg : string) : option (string * string) :=
  let lower := toLowerCase msg in
  let i1 := indexOf lower "name" in
  let i2 := indexOf lower "value" in
  if (negb (i1 =? -1) && negb (i2 =? -1) && (i1 <? i2))%Z then
    let key := trim (slice lower (i1 + 5) (i2 - 1)) in
    let val := trim (slice_from msg (i2 + 6)) in
    if (0 <? String.length key)%nat then Some (key, val) else None
  else None.

(** The block of [send] that records a [setoption] line:
    [this.sent_options[key] = val] and the acknowledgement. *)
Definition record_setoption (msg : string) : M unit :=
  match parse_setoption msg with
  | Some (key, val) =>
      modify_eng (fun e => set_sent_options (<[key := val]> (sent_options e)) e) ;;
      _ <- send_ack_setoption_to_main_process key ;;
      ret tt
  | None => ret tt
  end.

(** The [try { ... } catch (err) { ... }] block of [send]. *)
Definition write_line (msg : string) : M unit :=
  written <- (first <- stdin_write msg ;;
              if first then stdin_write newline else ret false) ;;
  if written then
    emit (LogLine ("--> " +:+ msg)) ;;
    modify_eng (set_last_send (Some msg))
  else
    emit (LogLine ("(failed) --> " +:+ msg)) ;;
    e <- get_eng ;;
    if truthy (last_send e) && negb (warned_send_fail e) then
      emit (Alert (messages_send_fail env)) ;;
      modify_eng (set_warned_send_fail true)
    else ret tt.

(** [eng.send(msg, force)] *)
Definition send (msg : string) (force : bool) : M unit :=
  let msg := trim msg in
  e <- get_eng ;;
  if startsWith msg "setoption" && (truthy (node (search_running e)) && negb force)
  then
    modify_eng (fun e => set_setoption_queue (setoption_queue e ++ [msg]) e)
  else
    (if startsWith msg "setoption" then record_setoption msg else ret tt) ;;
    e <- get_eng ;;
    if truthy (exe e) then write_line msg else ret tt.

(** The first branch of [send_desired]: nothing to search. *)
Definition abandon_search : M unit :=
  modify_eng (set_search_running NoSearch) ;;
  modify_eng (set_search_desired_field NoSearch).

(** [eng.send_desired()] *)
Definition send_desired : M unit :=
  e <- get_eng ;;
  if truthy (node (search_running e)) then
    throw "send_desired() called but search was running"
  else
    match node (search_desired e) with
    | None => abandon_search
    | Some n =>
        let nd := nodes env n in
        if destroyed nd || truthy_string (terminal_reason nd) then abandon_search
        else
          let root_fen := root_fen nd (negb (in_960_mode e)) in
          let setup := "fen " +:+ root_fen in
          let setup :=
            if negb (in_960_mode e) &&
               String.eqb setup "fen rnbqkbnr/pppppppp/8/8/8/8/PPPPPPPP/RNBQKBNR w KQkq - 0 1"
            then "startpos" else setup in
          let moves :=
            if negb (in_960_mode e) then history_old_format nd else history nd in
          (if (length moves =? 0)%nat then
             send ("position " +:+ setup) false
           else
             send ("position " +:+ setup +:+ " moves " +:+ join " " moves) false) ;;
          (if log_positions (config env) then emit (LogLine (graphic nd)) else ret tt) ;;
          e <- get_eng ;;
          h <- get_heap ;;
          let n := limit (search_desired e) in
          let s :=
            match n with
            | Some k =>
                if truthy_number n then
                  if use_movetime (config env)
                  then "go movetime " +:+ number_to_string k
                  else "go nodes " +:+ number_to_string k
                else "go infinite"
            | None => "go infinite"
            end in
          let moves := array_elems h (searchmoves (search_desired e)) in
          let s :=
            if searchmoves_buttons (config env) && (0 <? length moves)%nat then
              fold_left (fun s move => s +:+ " " +:+ move) moves (s +:+ " searchmoves")
            else s in
          send s false ;;
          e <- get_eng ;;
          modify_eng (set_search_running (search_desired e)) ;;
          modify_eng (set_suppress_cycle_info None) ;;
          modify_info_handler
            (fun ih => mkInfoHandler (engine_cycle ih + 1) (engine_subcycle ih)) ;;
          modify_info_handler
            (fun ih => mkInfoHandler (engine_cycle ih) (engine_subcycle ih + 1))
    end.

(** [eng.set_search_desired(node, limit, searchmoves)] *)
Definition set_search_desired
    (nd : option NodeRef) (lim : option Z) (moves : option loc) : M unit :=
  e <- get_eng ;;
  if negb (ever_received_uciok e) || negb (ever_received_readyok e) then
    emit (ConsoleLog "set_search_desired() aborted - too early")
  else
    params <- with_heap (SearchParams_new (nodes env) nd lim moves) ;;
    e <- get_eng ;;
    h <- get_heap ;;
    if bool_decide (node (search_desired e) = node params) &&
       (bool_decide (limit (search_desired e) = limit params) &&
        CompareArrays h (searchmoves (search_desired e)) (searchmoves params))
    then ret tt
    else
      modify_eng (set_search_desired_field params) ;;
      e <- get_eng ;;
      if truthy (node (search_running e)) then
        send "stop" false ;;
        e <- get_eng ;;
        if negb (truthy_number (unresolved_stop_time e)) then
          modify_eng (set_unresolved_stop_time (Some (performance_now env)))
        else ret tt
      else
        if truthy (node (search_desired e)) then send_desired else ret tt.

(** [eng.send_queued_setoptions()].  The loop body calls [send] with the
    force flag, a path that never pushes to the queue it iterates over. *)
Definition send_queued_setoptions : M unit :=
  e <- get_eng ;;
  for_each (setoption_queue e) (fun msg => send msg true) ;;
  modify_eng (set_setoption_queue []).

(** [eng.send_ucinewgame()] *)
Definition send_ucinewgame : M unit :=
  e <- get_eng ;;
  if negb (ever_received_uciok e) || negb (ever_received_readyok e) then
    emit (ConsoleLog "send_ucinewgame() aborted - too early")
  else send "ucinewgame" false.

(** [eng.handle_bestmove_line(line)] *)
Definition handle_bestmove_line (line : string) : M unit :=
  e <- get_eng ;;
  modify_eng (set_search_completed (search_running e)) ;;
  modify_eng (set_search_running NoSearch) ;;
  modify_eng (set_unresolved_stop_time None) ;;
  e <- get_eng ;;
  let no_new_search :=
    same_object (search_desired e) (search_completed e) ||
    negb (truthy (node (search_desired e))) in
  let report_bestmove :=
    same_object (search_desired e) (search_completed e) &&
    truthy (node (search_completed e)) in
  if no_new_search then
    modify_eng (set_search_desired_field NoSearch) ;;
    if report_bestmove then
      emit (LogLine ("< " +:+ line)) ;;
      send_queued_setoptions ;;
      e <- get_eng ;;
      emit (HubReceiveBestmove line (node (search_completed e)))
    else
      emit (LogLine ("(ignore halted) < " +:+ line)) ;;
      send_queued_setoptions
  else
    emit (LogLine ("(ignore old) < " +:+ line)) ;;
    send_queued_setoptions ;;
    send_desired.

(** [if (config.log_info_lines) Log(s)] *)
Definition log_info (s : string) : M unit :=
  if log_info_lines (config env) then emit (LogLine s) else ret tt.

(** [eng.handle_info_line(line)] *)
Definition handle_info_line (line : string) : M unit :=
  e <- get_eng ;;
  match node (search_running e) with
  | None => log_info ("(ignore !node) < " +:+ line)
  | Some n =>
      if destroyed (nodes env n) then log_info ("(ignore destroyed) < " +:+ line)
      else if negb (leelaish e) &&
              negb (bool_decide (node (search_desired e) = node (search_running e)))
      then log_info ("(ignore A/B late) < " +:+ line)
      else
        ih <- get_info_handler ;;
        if bool_decide (suppress_cycle_info e = Some (engine_cycle ih))
        then log_info ("(ignore suppressed) < " +:+ line)
        else emit (HubInfoReceive (node (search_running e)) line)
  end.

(** [eng.setoption(name, value)] *)
Definition setoption (name value : string) : M string :=
  let s := "setoption name " +:+ name +:+ " value " +:+ value in
  send s false ;;
  ret s.

(** [eng.maybe_setoption_fail_reason(name, value)] *)
Definition maybe_setoption_fail_reason (e : Engine) (name value : string) : string :=
  if leelaish e && suppressed_options_lc0 env (toLowerCase name) then
    "Not sent, wrong engine type"
  else if negb (leelaish e) && suppressed_options_ab env (toLowerCase name) then
    "Not sent, wrong engine type"
  else "".

(** [eng.maybe_setoption(name, value)] *)
Definition maybe_setoption (name value : string) : M string :=
  e <- get_eng ;;
  let fail_reason := maybe_setoption_fail_reason e name value in
  if truthy_string fail_reason then
    _ <- send_ack_setoption_to_main_process name ;;
    ret fail_reason
  else setoption name value.

(** [eng.pressbutton(name)] *)
Definition pressbutton (name : string) : M string :=
  let s := "setoption name " +:+ name in
  send s false ;;
  ret s.

(** [eng.setup(filepath, args)].  The asynchronous "error" listener only
    alerts and is left out. *)
Definition setup (filepath : string) (args : list string) : M unit :=
  emit (LogLine "") ;;
  emit (LogLine ("Launching " +:+ filepath)) ;;
  emit (LogLine "") ;;
  match spawn env filepath args with
  | inr err => emit (Alert err)
  | inl child =>
      modify_eng (set_exe (Some child)) ;;
      emit (IpcAckEngineStart filepath) ;;
      modify_eng (set_sent_options ∅) ;;
      for_each
        ["WeightsFile"; "SyzygyPath"; "Threads"; "Hash"; "MultiPV"; "Backend";
         "Temperature"; "TempDecayMoves"]
        (fun key => _ <- send_ack_setoption_to_main_process key ;; ret tt) ;;
      modify_eng (set_scanners true)
  end.

(** The listener [this.err_scanner.on("line", ...)]. *)
Definition on_stderr_line (line : string) : M unit :=
  e <- get_eng ;;
  if have_quit e then ret tt
  else
    emit (LogLine (". " +:+ line)) ;;
    emit (HubErrReceive (SafeString env line)).

(** The listener [this.scanner.on("line", ...)]. *)
Definition on_stdout_line (line : string) : M unit :=
  e <- get_eng ;;
  if have_quit e then ret tt
  else if startsWith line "bestmove" then handle_bestmove_line line
  else if startsWith line "info" then handle_info_line line
  else
    emit (LogLine ("< " +:+ line)) ;;
    (if startsWith line "option" && includes (toLowerCase line) "uci_chess960"
     then _ <- setoption "UCI_Chess960" "true" ;; ret tt
     else ret tt) ;;
    (if startsWith line "uciok"
     then modify_eng (set_ever_received_uciok true) else ret tt) ;;
    (if startsWith line "readyok"
     then modify_eng (set_ever_received_readyok true) else ret tt) ;;
    emit (HubReceiveMisc (SafeString env line)).

(** [eng.shutdown()] *)
Definition shutdown : M unit :=
  modify_eng (set_have_quit true) ;;
  send "quit" false ;;
  e <- get_eng ;;
  if truthy (exe e) then emit (SetTimeoutKill 2000) else ret tt.

(** The ways into the driver: its methods and its two line listeners. *)
Inductive Op :=
| OpSend (msg : string) (force : bool)
| OpSendDesired
| OpSetSearchDesired (nd : option NodeRef) (lim : option Z) (moves : option loc)
| OpSendQueuedSetoptions
| OpSendUcinewgame
| OpHandleBestmoveLine (line : string)
| OpHandleInfoLine (line : string)
| OpSetoption (name value : string)
| OpMaybeSetoption (name value : string)
| OpPressbutton (name : string)
| OpSendAck (name : string)
| OpSetup (filepath : string) (args : list string)
| OpStdoutLine (line : string)
| OpStderrLine (line : string)
| OpShutdown.

(** Forgetting what a method returns. *)
Definition void {A} (m : M A) : M unit := _ <- m ;; ret tt.

Definition run (op : Op) : M unit :=
  match op with
  | OpSend msg force => send msg force
  | OpSendDesired => send_desired
  | OpSetSearchDesired nd lim moves => set_search_desired nd lim moves
  | OpSendQueuedSetoptions => send_queued_setoptions
  | OpSendUcinewgame => send_ucinewgame
  | OpHandleBestmoveLine line => handle_bestmove_line line
  | OpHandleInfoLine line => handle_info_line line
  | OpSetoption name value => void (setoption name value)
  | OpMaybeSetoption name value => void (maybe_setoption name value)
  | OpPressbutton name => void (pressbutton name)
  | OpSendAck name => void (send_ack_setoption_to_main_process name)
  | OpSetup filepath args => setup filepath args
  | OpStdoutLine line => on_stdout_line line
  | OpStderrLine line => on_stderr_line line
  | OpShutdown => shutdown
  end.

End Driver.

(** ** State predicates *)

(** The queue holds what [send] pushed: trimmed [setoption] lines. *)
Definition queue_wf (e : Engine) : Prop :=
  Forall (fun m => trim m = m /\ startsWith m "setoption" = true) (setoption_queue e).

(** A child process is loaded and its pipe does not break. *)
Definition engine_live (e : Engine) : Prop :=
  exe e = Some (mkChild None).

(** The written strings that are [go] commands. *)
Definition go_commands (tr : list Event) : list string :=
  List.filter (fun s => startsWith s "go") (stdin_writes tr).

(** The written strings that are [stop] commands. *)
Definition stop_commands (tr : list Event) : list string :=
  List.filter (fun s => String.eqb s "stop") (stdin_writes tr).

(** The states of the header comment of the source, read off the fields. *)
Inductive SearchState := Inactive | Running | Changing | Ending.

Definition search_state (e : Engine) : SearchState :=
  match node (search_running e), node (search_desired e) with
  | None, _ => Inactive
  | Some _, None => Ending
  | Some _, Some _ =>
      if same_object (search_desired e) (search_running e) then Running else Changing
  end.

(** ** A small concrete setting, for running the methods *)

Definition startpos_fen : string :=
  "rnbqkbnr/pppppppp/8/8/8/8/PPPPPPPP/RNBQKBNR w KQkq - 0 1".

(** Node 0 is the initial position, node 1 the position after 1.e4, every
    other node a destroyed one. *)
Definition demo_nodes (n : NodeRef) : Node :=
  match n with
  | 0%nat => mkNode false "" (fun _ => startpos_fen) [] [] "(board)"
               (fun m => String.eqb m "e2e4" || String.eqb m "d2d4")
  | 1%nat => mkNode false "" (fun _ => startpos_fen) ["e2e4"] ["e2e4"] "(board)"
               (fun m => String.eqb m "e7e5" || String.eqb m "c7c5")
  | _ => mkNode true "" (fun _ => startpos_fen) [] [] "(board)" (fun _ => false)
  end.

Definition demo_env : Env :=
  {| nodes := demo_nodes;
     config := mkConfig false false false true;
     performance_now := 1234;
     messages_send_fail := "send failed";
     SafeString := fun s => s;
     suppressed_options_lc0 := fun _ => false;
     suppressed_options_ab := fun _ => false;
     spawn := fun _ _ => inl (mkChild None) |}.

(** A fresh driver, before [setup]. *)
Definition fresh_world : World :=
  mkWorld initial_heap (mkInfoHandler 0 0) NewEngine.

(** Running a list of operations one after the other, collecting the trace;
    a throw ends the run. *)
Fixpoint run_all (env : Env) (ops : list Op) : M unit :=
  match ops with
  | [] => ret tt
  | op :: ops' => bind (run env op) (fun _ => run_all env ops')
  end.

(** The driver after launch and both handshakes. *)
Definition ready_world : World :=
  world_of (run_all demo_env
              [OpSetup "/usr/bin/lc0" []; OpStdoutLine "uciok"; OpStdoutLine "readyok"]
              fresh_world).

(** The same with a search of node 0 running. *)
Definition running_world : World :=
  world_of (set_search_desired demo_env (Some 0%nat) (Some 10000%Z) None ready_world).

(** The same after the hub asked for node 1 instead: a [stop] is
    outstanding. *)
Definition changing_world : World :=
  world_of (set_search_desired demo_env (Some 1%nat) (Some 10000%Z) None running_world).

(** ** Predicates on strings used in the proofs *)

(** Every code unit of [s] satisfies [P]. *)
Fixpoint string_all (P : ascii -> Prop) (s : string) : Prop :=
  match s with
  | EmptyString => True
  | String c s' => P c /\ string_all P s'
  end.

Definition no_space (c : ascii) : Prop := is_js_space c = false.
Definition lower_fixed (c : ascii) : Prop := lower_char c = c.

(** ** Relations between the state before a method, the state after it and
    its trace *)

(** The fields of [eng] that [send] never assigns. *)
Definition untouched (e : Engine) :=
  (scanner e, err_scanner e, unresolved_stop_time e, ever_received_uciok e,
   ever_received_readyok e, have_quit e, suppress_cycle_info e, leelaish e,
   search_running e, search_desired e, search_completed e).

(** [m] relates every state it starts in to the state and trace it ends
    with, whether it returns or throws. *)
Definition respects {A} (R : World -> World -> list Event -> Prop) (m : M A) : Prop :=
  forall w, R w (world_of (m w)) (trace_of (m w)).

(** What the [send] family leaves alone: the heap, the hub's counters, the
    search fields and flags; and it never calls back into the hub. *)
Definition send_frame (w w' : World) (tr : list Event) : Prop :=
  heap w' = heap w /\ info_handler w' = info_handler w /\
  untouched (eng w') = untouched (eng w) /\
  bestmoves_forwarded tr = [] /\ infos_forwarded tr = [].

(** A live engine stays live and a well-formed queue stays well-formed. *)
Definition keeps_inv (w w' : World) (tr : list Event) : Prop :=
  (engine_live (eng w) -> engine_live (eng w')) /\
  (queue_wf (eng w) -> queue_wf (eng w')).

(** Everything written is the line [m] or the terminator. *)
Definition writes_only (m : string) (w w' : World) (tr : list Event) : Prop :=
  Forall (fun s => s = m \/ s = newline) (stdin_writes tr).

(** Nothing is recorded or acknowledged. *)
Definition records_nothing (w w' : World) (tr : list Event) : Prop :=
  sent_options (eng w') = sent_options (eng w) /\
  setoption_queue (eng w') = setoption_queue (eng w) /\
  acks_sent tr = [].

(** ** The two commands of a search, as the protocol words them *)

(** [position startpos] or [position fen <FEN>], then [ moves <m1> ...] when
    the history is not empty.  Outside 960 mode the FEN is the friendly
    one and the history is in the old castling format. *)
Definition position_command (in960 : bool) (nd : Node) : string :=
  let fen := root_fen nd (negb in960) in
  let setup :=
    if negb in960 && String.eqb fen startpos_fen
    then "startpos" else "fen " +:+ fen in
  let moves := if in960 then history nd else history_old_format nd in
  match moves with
  | [] => "position " +:+ setup
  | _ :: _ => "position " +:+ setup +:+ " moves " +:+ join " " moves
  end.

(** [go infinite], [go movetime <n>] or [go nodes <n>], then
    [ searchmoves <m1> ...] when the configuration allows it and there are
    moves.  A limit that is absent or zero is no limit. *)
Definition go_command (cfg : Config) (lim : option Z) (moves : list string) : string :=
  let base :=
    match lim with
    | None => "go infinite"
    | Some n =>
        if (n =? 0)%Z then "go infinite"
        else if use_movetime cfg then "go movetime " +:+ number_to_string n
        else "go nodes " +:+ number_to_string n
    end in
  match moves with
  | [] => base
  | _ :: _ =>
      if searchmoves_buttons cfg
      then base +:+ " searchmoves " +:+ join " " moves
      else base
  end.

(** The state [send_desired] leaves after launching the desired search
    with the commands [p] and [g]. *)
Definition launched (p g : string) (w : World) : World :=
  mkWorld (heap w)
    (mkInfoHandler (engine_cycle (info_handler w) + 1)
                   (engine_subcycle (info_handler w) + 1))
    (set_suppress_cycle_info None
       (set_search_running (search_desired (eng w))
          (set_last_send (Some g) (set_last_send (Some p) (eng w))))).

(** Neither hub callback is made and the last completed search stays. *)
Definition quiet (w w' : World) (tr : list Event) : Prop :=
  heap w' = heap w /\
  search_completed (eng w') = search_completed (eng w) /\
  bestmoves_forwarded tr = [] /\ infos_forwarded tr = [].

(** Ready, with a search of node 0 wanted and none running: the state in
    which [send_desired] is called. *)
Definition pending_world : World :=
  mkWorld (heap running_world) (info_handler running_world)
    (set_search_running NoSearch (eng running_world)).

(** A search of node 0 running and one option held back in the queue. *)
Definition queued_world : World :=
  world_of (setoption demo_env "Threads" "4" running_world).

(** A heap in which the hub holds an array of three move tokens, at
    location 2. *)
Definition caller_heap : Heap :=
  snd (alloc_array ["e2e4"; "zzzz"; "d2d4"] initial_heap).

(** Both counters of the hub and the suppressed cycle are as they were. *)
Definition counters_kept (w w' : World) (tr : list Event) : Prop :=
  info_handler w' = info_handler w /\
  suppress_cycle_info (eng w') = suppress_cycle_info (eng w).

(** The counters are as they were, or both went up by one and the
    suppressed cycle was cleared. *)
Definition counters_step (w w' : World) (tr : list Event) : Prop :=
  counters_kept w w' tr \/
  (engine_cycle (info_handler w') = engine_cycle (info_handler w) + 1 /\
   engine_subcycle (info_handler w') = engine_subcycle (info_handler w) + 1 /\
   suppress_cycle_info (eng w') = None)%Z.

(** From a live engine with a well-formed queue: both are kept, and the
    cycle counter has moved by the number of go commands written. *)
Definition go_counted (w w' : World) (tr : list Event) : Prop :=
  engine_live (eng w) -> queue_wf (eng w) ->
  engine_live (eng w') /\ queue_wf (eng w') /\
  engine_cycle (info_handler w') =
    (engine_cycle (info_handler w) + Z.of_nat (length (go_commands tr)))%Z.

(** The counters are as they were and nothing was written. *)
Definition silent (w w' : World) (tr : list Event) : Prop :=
  info_handler w' = info_handler w /\ stdin_writes tr = [].

(** [m] returns from every state. *)
Definition always_returns {A} (m : M A) : Prop :=
  forall w, returned (m w) = true.

(** No flag that was set has been cleared. *)
Definition flags_kept (w w' : World) (tr : list Event) : Prop :=
  (ever_received_uciok (eng w) = true -> ever_received_uciok (eng w') = true) /\
  (ever_received_readyok (eng w) = true -> ever_received_readyok (eng w') = true) /\
  (have_quit (eng w) = true -> have_quit (eng w') = true) /\
  (warned_send_fail (eng w) = true -> warned_send_fail (eng w') = true).

(** Running a script: each entry into the driver with the surroundings it
    finds at that moment.  A throw ends the run. *)
Fixpoint run_script (script : list (Env * Op)) : M unit :=
  match script with
  | [] => ret tt
  | (env, op) :: script' => bind (run env op) (fun _ => run_script script')
  end.

(** Every key of the registry is its own lower-casing. *)
Definition keys_lowercase (m : gmap string string) : Prop :=
  map_Forall (fun k _ => toLowerCase k = k) m.

(** Lower-case keys stay lower-case, and every acknowledgement sent has a
    lower-case key. *)
Definition lowercase_kept (w w' : World) (tr : list Event) : Prop :=
  (keys_lowercase (sent_options (eng w)) -> keys_lowercase (sent_options (eng w'))) /\
  Forall (fun kv => toLowerCase (fst kv) = fst kv) (acks_sent tr).

(** A well-formed queue stays well-formed. *)
Definition queue_kept (w w' : World) (tr : list Event) : Prop :=
  queue_wf (eng w) -> queue_wf (eng w').

(** The [alert] calls of a trace. *)
Fixpoint alerts (tr : list Event) : list string :=
  match tr with
  | [] => []
  | Alert s :: tr' => s :: alerts tr'
  | _ :: tr' => alerts tr'
  end.

(** The kill timers of a trace. *)
Fixpoint kill_timers (tr : list Event) : list Z :=
  match tr with
  | [] => []
  | SetTimeoutKill ms :: tr' => ms :: kill_timers tr'
  | _ :: tr' => kill_timers tr'
  end.

(** A driver whose child process has a broken pipe, after one command went
    through. *)
Definition broken_world : World :=
  mkWorld (heap ready_world) (info_handler ready_world)
    (set_last_send (Some "isready") (set_exe (Some (mkChild (Some 0%nat))) (eng ready_world))).

(** The [receive_misc] calls of a trace. *)
Fixpoint misc_forwarded (tr : list Event) : list string :=
  match tr with
  | [] => []
  | HubReceiveMisc s :: tr' => s :: misc_forwarded tr'
  | _ :: tr' => misc_forwarded tr'
  end.

(** The [err_receive] calls of a trace. *)
Fixpoint errs_forwarded (tr : list Event) : list string :=
  match tr with
  | [] => []
  | HubErrReceive s :: tr' => s :: errs_forwarded tr'
  | _ :: tr' => errs_forwarded tr'
  end.

(** What a list of [setoption] lines records, in order: the pairs [send]
    extracts from the lines that parse. *)
Definition recorded_pairs (lines : list string) : list (string * string) :=
  omap (fun m => parse_setoption (trim m)) lines.

(** Storing a list of pairs in the registry, first to last. *)
Definition store_pairs (pairs : list (string * string)) (m : gmap string string)
  : gmap string string :=
  fold_left (fun m kv => <[fst kv := snd kv]> m) pairs m.

(** No suffix of [a], continued by [b], begins with [p]: an occurrence of
    [p] in [a ++ b] starts in [b]. *)
Fixpoint no_match_from (a b p : string) : Prop :=
  match a with
  | EmptyString => True
  | String _ a' => startsWith (a +:+ b) p = false /\ no_match_from a' b p
  end.

(** The last code unit of [p], if there is one, is no blank. *)
Fixpoint ends_nonblank (p : string) : Prop :=
  match p with
  | EmptyString => True
  | String c EmptyString => no_space c
  | String _ p' => ends_nonblank p'
  end.

(** ** Numbers within the exact range *)

(** The integers a JavaScript Number holds exactly, on which [++] adds one
    and the template literal prints every digit: those below [2^53] in
    absolute value.  The counters and the search limit are modelled as
    integers; what is proved of their arithmetic and of their digits is
    stated for this range. *)
Definition safe_integer (z : Z) : Prop := (Z.abs z < 2 ^ 53)%Z.

(** A search limit that is absent or within the exact range. *)
Definition safe_limit (lim : option Z) : Prop :=
  match lim with
  | Some k => safe_integer k
  | None => True
  end.

(** The value of a decimal digit. *)
Definition digit_value (c : ascii) : option Z :=
  let n := Z.of_N (N_of_ascii c) in
  if ((48 <=? n) && (n <=? 57))%Z then Some (n - 48)%Z else None.

(** The digits of [s] read from the left onto [acc]. *)
Fixpoint digits_value (acc : Z) (s : string) : option Z :=
  match s with
  | EmptyString => Some acc
  | String c s' =>
      match digit_value c with
      | Some d => digits_value (10 * acc + d) s'
      | None => None
      end
  end.

(** The number a decimal numeral stands for: at least one digit, with a
    minus sign in front for a negative number. *)
Definition decimal_value (s : string) : option Z :=
  match s with
  | EmptyString => None
  | String c s' =>
      if Ascii.eqb c "-" then
        match s' with
        | EmptyString => None
        | String _ _ => Z.opp <$> digits_value 0 s'
        end
      else digits_value 0 s
  end.

(** ** The hub's side of the callbacks *)

(** What the hub does when the driver calls it is not in this file; the
    bestmove handler notes that [receive_bestmove] "may trigger a new
    search", and the hub is handed the driver itself.  A reaction is any
    action on the driver's world. *)
Record Hub := mkHub {
  receive_bestmove : string -> option NodeRef -> M unit;  (* hub.receive_bestmove(line, node) *)
  info_receive : option NodeRef -> string -> M unit;      (* hub.info_handler.receive(eng, node, line) *)
  receive_misc : string -> M unit;                        (* hub.receive_misc(line) *)
  err_receive : string -> M unit                          (* hub.err_receive(line) *)
}.

(** The hub that does nothing when called. *)
Definition inert_hub : Hub :=
  mkHub (fun _ _ => ret tt) (fun _ _ => ret tt) (fun _ => ret tt) (fun _ => ret tt).

(** The handlers and listeners that call the hub, with the hub's reaction
    run at the place of the call.  Each call is still recorded in the
    trace, before the reaction. *)
Section DriverAndHub.

Variable env : Env.
Variable hub : Hub.

Local Open Scope drv_scope.

(** [eng.handle_bestmove_line(line)] *)
Definition handle_bestmove_line_hub (line : string) : M unit :=
  e <- get_eng ;;
  modify_eng (set_search_completed (search_running e)) ;;
  modify_eng (set_search_running NoSearch) ;;
  modify_eng (set_unresolved_stop_time None) ;;
  e <- get_eng ;;
  let no_new_search :=
    same_object (search_desired e) (search_completed e) ||
    negb (truthy (node (search_desired e))) in
  let report_bestmove :=
    same_object (search_desired e) (search_completed e) &&
    truthy (node (search_completed e)) in
  if no_new_search then
    modify_eng (set_search_desired_field NoSearch) ;;
    if report_bestmove then
      emit (LogLine ("< " +:+ line)) ;;
      send_queued_setoptions env ;;
      e <- get_eng ;;
      emit (HubReceiveBestmove line (node (search_completed e))) ;;
      receive_bestmove hub line (node (search_completed e))
    else
      emit (LogLine ("(ignore halted) < " +:+ line)) ;;
      send_queued_setoptions env
  else
    emit (LogLine ("(ignore old) < " +:+ line)) ;;
    send_queued_setoptions env ;;
    send_desired env.

(** [eng.handle_info_line(line)] *)
Definition handle_info_line_hub (line : string) : M unit :=
  e <- get_eng ;;
  match node (search_running e) with
  | None => log_info env ("(ignore !node) < " +:+ line)
  | Some n =>
      if destroyed (nodes env n) then log_info env ("(ignore destroyed) < " +:+ line)
      else if negb (leelaish e) &&
              negb (bool_decide (node (search_desired e) = node (search_running e)))
      then log_info env ("(ignore A/B late) < " +:+ line)
      else
        ih <- get_info_handler ;;
        if bool_decide (suppress_cycle_info e = Some (engine_cycle ih))
        then log_info env ("(ignore suppressed) < " +:+ line)
        else
          emit (HubInfoReceive (node (search_running e)) line) ;;
          info_receive hub (node (search_running e)) line
  end.

(** The listener [this.err_scanner.on("line", ...)]. *)
Definition on_stderr_line_hub (line : string) : M unit :=
  e <- get_eng ;;
  if have_quit e then ret tt
  else
    emit (LogLine (". " +:+ line)) ;;
    emit (HubErrReceive (SafeString env line)) ;;
    err_receive hub (SafeString env line).

(** The listener [this.scanner.on("line", ...)]. *)
Definition on_stdout_line_hub (line : string) : M unit :=
  e <- get_eng ;;
  if have_quit e then ret tt
  else if startsWith line "bestmove" then handle_bestmove_line_hub line
  else if startsWith line "info" then handle_info_line_hub line
  else
    emit (LogLine ("< " +:+ line)) ;;
    (if startsWith line "option" && includes (toLowerCase line) "uci_chess960"
     then _ <- setoption env "UCI_Chess960" "true" ;; ret tt
     else ret tt) ;;
    (if startsWith line "uciok"
     then modify_eng (set_ever_received_uciok true) else ret tt) ;;
    (if startsWith line "readyok"
     then modify_eng (set_ever_received_readyok true) else ret tt) ;;
    emit (HubReceiveMisc (SafeString env line)) ;;
    receive_misc hub (SafeString env line).

End DriverAndHub.

(* ================================================================== *)
(** * Proofs *)

(** ** Strings *)

Lemma lower_char_idem c : lower_char (lower_char c) = lower_char c.
Proof. destruct c as [[] [] [] [] [] [] [] []]; reflexivity. Qed.

Lemma toLowerCase_lower_fixed s : string_all lower_fixed (toLowerCase s).
Proof.
  induction s as [|c s IH]; simpl; [exact I|].
  split; [apply lower_char_idem | exact IH].
Qed.

Lemma lower_fixed_toLowerCase s : string_all lower_fixed s -> toLowerCase s = s.
Proof.
  induction s as [|c s IH]; simpl; [reflexivity|].
  intros [Hc Hs]. unfold lower_fixed in Hc. rewrite Hc, IH by exact Hs. reflexivity.
Qed.

Lemma string_all_substring P n m s :
  string_all P s -> string_all P (substring n m s).
Proof.
  revert n m. induction s as [|c s IH]; intros n m H.
  - destruct n, m; exact I.
  - destruct H as [Hc Hs]. destruct n as [|n]; simpl.
    + destruct m as [|m]; simpl; [exact I|]. split; [exact Hc | apply IH, Hs].
    + apply IH, Hs.
Qed.

Lemma string_all_slice P s a b : string_all P s -> string_all P (slice s a b).
Proof. intros H. unfold slice. apply string_all_substring, H. Qed.

Lemma string_all_trimStart P s : string_all P s -> string_all P (trimStart s).
Proof.
  induction s as [|c s IH]; simpl; [trivial|].
  intros [Hc Hs]. destruct (is_js_space c); [apply IH, Hs | split; assumption].
Qed.

Lemma string_all_trimEnd P s : string_all P s -> string_all P (trimEnd s).
Proof.
  induction s as [|c s IH]; simpl; [trivial|].
  intros [Hc Hs]. specialize (IH Hs).
  destruct (trimEnd s) as [|d r].
  - destruct (is_js_space c); simpl; auto.
  - simpl. simpl in IH. tauto.
Qed.

Lemma string_all_trim P s : string_all P s -> string_all P (trim s).
Proof. intros H. apply string_all_trimEnd, string_all_trimStart, H. Qed.

(** The key [send] extracts is a fixed point of [toLowerCase], which is what
    the acknowledgement applies to it again. *)
Lemma extracted_key_lower m a b :
  toLowerCase (trim (slice (toLowerCase m) a b)) = trim (slice (toLowerCase m) a b).
Proof.
  apply lower_fixed_toLowerCase, string_all_trim, string_all_slice,
    toLowerCase_lower_fixed.
Qed.

Lemma trimEnd_idem s : trimEnd (trimEnd s) = trimEnd s.
Proof.
  induction s as [|c s IH]; simpl; [reflexivity|].
  destruct (trimEnd s) as [|d r] eqn:E.
  - destruct (is_js_space c) eqn:Hc; simpl; [reflexivity|]. rewrite Hc. reflexivity.
  - change (trimEnd (String c (String d r))) with
      (match trimEnd (String d r) with
       | EmptyString => if is_js_space c then EmptyString else String c EmptyString
       | r0 => String c r0
       end).
    rewrite IH. reflexivity.
Qed.

Lemma trimStart_trimEnd s :
  trimStart (trimEnd (trimStart s)) = trimEnd (trimStart s).
Proof.
  induction s as [|c s IH]; simpl; [reflexivity|].
  destruct (is_js_space c) eqn:Hc; [exact IH|].
  simpl. destruct (trimEnd s); rewrite ?Hc; simpl; rewrite ?Hc; reflexivity.
Qed.

(** Trimming twice is trimming once: a queued line is sent as it was
    stored. *)
Lemma trim_idem s : trim (trim s) = trim s.
Proof. unfold trim. rewrite trimStart_trimEnd. apply trimEnd_idem. Qed.

Lemma startsWith_empty_r p : startsWith EmptyString p = true -> p = EmptyString.
Proof. destruct p; simpl; [reflexivity | discriminate]. Qed.

Lemma startsWith_trimEnd p : forall s,
  string_all no_space p -> startsWith s p = true -> startsWith (trimEnd s) p = true.
Proof.
  induction p as [|a p IH]; intros s Hp H; [destruct (trimEnd s); reflexivity|].
  destruct s as [|b s]; [discriminate H|]. simpl in H.
  destruct (Ascii.eqb a b) eqn:Eab; [|discriminate H].
  apply Ascii.eqb_eq in Eab. subst b. destruct Hp as [Ha Hp].
  specialize (IH s Hp H). simpl.
  destruct (trimEnd s) as [|d r].
  - apply startsWith_empty_r in IH. subst p. unfold no_space in Ha. rewrite Ha.
    simpl. rewrite Ascii.eqb_refl. reflexivity.
  - simpl. rewrite Ascii.eqb_refl. exact IH.
Qed.

(** A prefix without blanks survives [trim]. *)
Lemma startsWith_trim p s :
  string_all no_space p -> startsWith s p = true -> startsWith (trim s) p = true.
Proof.
  intros Hp H. unfold trim. apply startsWith_trimEnd; [exact Hp|].
  destruct p as [|a p]; [destruct (trimStart s); reflexivity|].
  destruct s as [|b s]; [discriminate H|]. simpl in H |- *.
  destruct (Ascii.eqb a b) eqn:Eab; [|discriminate H].
  apply Ascii.eqb_eq in Eab. subst b. destruct Hp as [Ha _]. unfold no_space in Ha.
  rewrite Ha. simpl. rewrite Ascii.eqb_refl. exact H.
Qed.

Lemma startsWith_app p s : startsWith (p +:+ s) p = true.
Proof. induction p as [|a p IH]; simpl; [reflexivity|]. rewrite Ascii.eqb_refl. exact IH. Qed.

(** ** Lower-casing commutes with cutting and trimming *)

Lemma length_toLowerCase s : String.length (toLowerCase s) = String.length s.
Proof. induction s as [|c s IH]; cbn; [reflexivity | rewrite IH; reflexivity]. Qed.

Lemma toLowerCase_substring n m s :
  toLowerCase (substring n m s) = substring n m (toLowerCase s).
Proof.
  revert n m. induction s as [|c s IH]; intros [|n] [|m]; cbn; try reflexivity;
    rewrite ?IH; reflexivity.
Qed.

Lemma toLowerCase_slice s a b : toLowerCase (slice s a b) = slice (toLowerCase s) a b.
Proof. unfold slice. rewrite length_toLowerCase. apply toLowerCase_substring. Qed.

Lemma is_js_space_lower c : is_js_space (lower_char c) = is_js_space c.
Proof. destruct c as [[] [] [] [] [] [] [] []]; reflexivity. Qed.

Lemma toLowerCase_trimStart s : toLowerCase (trimStart s) = trimStart (toLowerCase s).
Proof.
  induction s as [|c s IH]; cbn; [reflexivity|].
  rewrite is_js_space_lower. destruct (is_js_space c); [exact IH | reflexivity].
Qed.

Lemma toLowerCase_trimEnd s : toLowerCase (trimEnd s) = trimEnd (toLowerCase s).
Proof.
  induction s as [|c s IH]; cbn; [reflexivity|].
  rewrite <- IH, is_js_space_lower.
  destruct (trimEnd s); cbn; [destruct (is_js_space c)|]; reflexivity.
Qed.

Lemma toLowerCase_trim s : toLowerCase (trim s) = trim (toLowerCase s).
Proof. unfold trim. rewrite toLowerCase_trimEnd, toLowerCase_trimStart. reflexivity. Qed.

(** The key [send] computes from the lower-cased line is the lower-cased
    name of the line itself. *)
Lemma lower_name_key line a b :
  toLowerCase (trim (slice line a b)) = trim (slice (toLowerCase line) a b).
Proof. rewrite toLowerCase_trim, toLowerCase_slice. reflexivity. Qed.

Lemma length_zero_empty s : String.length s = 0%nat -> s = EmptyString.
Proof. destruct s; [reflexivity | discriminate]. Qed.

Lemma append_assoc_str a b c : (a +:+ b) +:+ c = a +:+ (b +:+ c).
Proof.
  induction a as [|x a IH]; [reflexivity|].
  change (String x ((a +:+ b) +:+ c) = String x (a +:+ (b +:+ c))).
  rewrite IH. reflexivity.
Qed.

Lemma startsWith_append_l s t p :
  startsWith s p = true -> startsWith (s +:+ t) p = true.
Proof.
  revert s. induction p as [|a p IH]; intros s H; [reflexivity|].
  destruct s as [|b s]; [discriminate H|].
  change (startsWith (String b (s +:+ t)) (String a p) = true).
  cbn in H |- *. destruct (Ascii.eqb a b); [apply IH, H | discriminate H].
Qed.

(** [trim] keeps a first code unit that is no blank. *)
Lemma trim_head c s :
  is_js_space c = false -> exists r, trim (String c s) = String c r.
Proof.
  intros Hc. unfold trim. cbn [trimStart]. rewrite Hc. cbn [trimEnd].
  destruct (trimEnd s); rewrite ?Hc; eauto.
Qed.

(** The loop of [send_desired] over the searchmoves builds the joined
    list. *)
Lemma searchmoves_loop base m ms :
  fold_left (fun s move => s +:+ " " +:+ move) (m :: ms) (base +:+ " searchmoves") =
  base +:+ " searchmoves " +:+ join " " (m :: ms).
Proof.
  assert (H : forall ms acc m,
             fold_left (fun s move => s +:+ " " +:+ move) ms (acc +:+ " " +:+ m) =
             acc +:+ " " +:+ join " " (m :: ms)).
  { clear. induction ms as [|m' ms IH]; intros acc m; cbn [fold_left join].
    - reflexivity.
    - rewrite IH. rewrite !append_assoc_str. reflexivity. }
  cbn [fold_left]. rewrite H. rewrite !append_assoc_str. reflexivity.
Qed.

(** A [setoption] line is no [go] command. *)
Lemma starts_setoption_not_go m :
  startsWith m "setoption" = true -> startsWith m "go" = false.
Proof.
  intros H. destruct m as [|c m]; [discriminate H|].
  destruct c as [[] [] [] [] [] [] [] []]; try discriminate H; reflexivity.
Qed.

Lemma filter_none {A} (f : A -> bool) (l : list A) :
  Forall (fun x => f x = false) l -> List.filter f l = [].
Proof.
  induction 1 as [|x l Hx Hl IH]; [reflexivity|]. cbn. rewrite Hx. exact IH.
Qed.

(** A line that begins with [option] begins with none of the other words
    the stdout listener looks for. *)
Lemma starts_option_only line :
  startsWith line "option" = true ->
  startsWith line "bestmove" = false /\ startsWith line "info" = false /\
  startsWith line "uciok" = false /\ startsWith line "readyok" = false.
Proof.
  intros H. destruct line as [|c line]; [discriminate H|].
  destruct c as [[] [] [] [] [] [] [] []]; try discriminate H; repeat split.
Qed.

(** ** Finding a word in a concatenation *)

Lemma append_empty_r s : s +:+ EmptyString = s.
Proof.
  induction s as [|c s IH]; [reflexivity|].
  change (String c (s +:+ EmptyString) = String c s). rewrite IH. reflexivity.
Qed.

Lemma length_append a b : String.length (a +:+ b) = (String.length a + String.length b)%nat.
Proof.
  induction a as [|c a IH]; [reflexivity|].
  change (S (String.length (a +:+ b)) = S (String.length a + String.length b)).
  rewrite IH. reflexivity.
Qed.

Lemma toLowerCase_append a b : toLowerCase (a +:+ b) = toLowerCase a +:+ toLowerCase b.
Proof.
  induction a as [|c a IH]; [reflexivity|].
  change (String (lower_char c) (toLowerCase (a +:+ b)) =
          String (lower_char c) (toLowerCase a +:+ toLowerCase b)).
  rewrite IH. reflexivity.
Qed.

(** Past a stretch in which the word does not begin, the search goes on in
    what follows. *)
Lemma index_skip a b p :
  no_match_from a b p ->
  index_from_start (a +:+ b) p =
    (fun n => (String.length a + n)%nat) <$> index_from_start b p.
Proof.
  induction a as [|c a IH]; intros H.
  - change (EmptyString +:+ b) with b. destruct (index_from_start b p); reflexivity.
  - destruct H as [Hc Ha]. specialize (IH Ha).
    change (String c a +:+ b) with (String c (a +:+ b)) in *.
    cbn [index_from_start]. rewrite Hc. rewrite IH.
    destruct (index_from_start b p); reflexivity.
Qed.

Lemma index_none_no_start s p :
  index_from_start s p = None -> startsWith s p = false.
Proof.
  destruct s as [|c s]; cbn [index_from_start];
    destruct (startsWith _ p); [discriminate | reflexivity | discriminate | reflexivity].
Qed.

Lemma index_none_tail c s p :
  index_from_start (String c s) p = None -> index_from_start s p = None.
Proof.
  cbn [index_from_start]. destruct (startsWith (String c s) p); [discriminate|].
  destruct (index_from_start s p); [discriminate | reflexivity].
Qed.

(** A word without blanks that does not begin [t] does not begin [t]
    followed by a blank. *)
Lemma startsWith_before_blank p : forall t c b,
  string_all no_space p -> is_js_space c = true ->
  startsWith t p = false -> startsWith (t +:+ String c b) p = false.
Proof.
  induction p as [|x p IH]; intros t c b Hp Hc H; [discriminate H|].
  destruct Hp as [Hx Hp]. destruct t as [|y t].
  - change (EmptyString +:+ String c b) with (String c b). cbn [startsWith].
    destruct (Ascii.eqb x c) eqn:E; [|reflexivity].
    apply Ascii.eqb_eq in E. subst c. unfold no_space in Hx. congruence.
  - change (String y t +:+ String c b) with (String y (t +:+ String c b)).
    cbn [startsWith] in H |- *. destruct (Ascii.eqb x y); [|reflexivity].
    apply IH; assumption.
Qed.

(** A word without blanks that does not occur in [a] does not begin
    anywhere in [a] when a blank follows [a]. *)
Lemma no_match_before_blank a p c b :
  string_all no_space p -> is_js_space c = true ->
  index_from_start a p = None -> no_match_from a (String c b) p.
Proof.
  intros Hp Hc. induction a as [|y a IH]; intros H; [exact I|].
  split.
  - apply startsWith_before_blank; [exact Hp | exact Hc | apply index_none_no_start, H].
  - apply IH. apply index_none_tail in H. exact H.
Qed.

Lemma substring_zero n s : substring n 0 s = EmptyString.
Proof.
  revert n. induction s as [|c s IH]; intros [|n]; cbn; try reflexivity. apply IH.
Qed.

Lemma substring_all s : substring 0 (String.length s) s = s.
Proof. induction s as [|c s IH]; cbn; [reflexivity | rewrite IH; reflexivity]. Qed.

Lemma substring_prefix a b : substring 0 (String.length a) (a +:+ b) = a.
Proof.
  induction a as [|c a IH]; [apply substring_zero|].
  change (String c a +:+ b) with (String c (a +:+ b)). cbn. rewrite IH. reflexivity.
Qed.

Lemma substring_skip a s n m :
  substring (String.length a + n) m (a +:+ s) = substring n m s.
Proof.
  induction a as [|c a IH]; [reflexivity|].
  change (String c a +:+ s) with (String c (a +:+ s)). cbn. exact IH.
Qed.

(** Trailing text that ends with a code unit that is no blank is kept by
    [trimEnd], with all that comes before it. *)
Lemma trimEnd_append a v :
  v <> EmptyString -> trimEnd v = v -> trimEnd (a +:+ v) = a +:+ v.
Proof.
  intros Hv Ht. induction a as [|c a IH]; [exact Ht|].
  change (String c a +:+ v) with (String c (a +:+ v)). cbn [trimEnd]. rewrite IH.
  destruct (a +:+ v) eqn:E; [|reflexivity].
  exfalso. destruct a; [apply Hv; exact E | discriminate E].
Qed.

Lemma trim_fixed_trimEnd v : trim v = v -> trimEnd v = v.
Proof. intros H. rewrite <- H at 1. unfold trim. rewrite trimEnd_idem. exact H. Qed.

(** A prefix whose last code unit is no blank survives [trimEnd]. *)
Lemma startsWith_trimEnd_last p : forall s,
  ends_nonblank p -> startsWith s p = true -> startsWith (trimEnd s) p = true.
Proof.
  induction p as [|a p IH]; intros s Hp H; [reflexivity|].
  destruct s as [|b s]; [discriminate H|]. cbn [startsWith] in H.
  destruct (Ascii.eqb a b) eqn:Eab; [|discriminate H].
  apply Ascii.eqb_eq in Eab. subst b. cbn [trimEnd].
  destruct p as [|a' p].
  - cbn [ends_nonblank] in Hp. unfold no_space in Hp.
    destruct (trimEnd s); rewrite ?Hp; cbn [startsWith]; rewrite Ascii.eqb_refl; reflexivity.
  - assert (Hp' : ends_nonblank (String a' p)) by exact Hp.
    specialize (IH s Hp' H).
    destruct (trimEnd s) as [|d r]; [discriminate IH|].
    cbn [startsWith] in IH |- *. rewrite Ascii.eqb_refl. exact IH.
Qed.

Lemma startsWith_split s p :
  startsWith s p = true -> exists r, s = p +:+ r.
Proof.
  revert s. induction p as [|a p IH]; intros s H; [exists s; reflexivity|].
  destruct s as [|b s]; [discriminate H|]. cbn [startsWith] in H.
  destruct (Ascii.eqb a b) eqn:E; [|discriminate H]. apply Ascii.eqb_eq in E. subst b.
  destruct (IH s H) as [r ->]. exists r. reflexivity.
Qed.

Lemma startsWith_append_both a s p :
  startsWith s p = true -> startsWith (a +:+ s) (a +:+ p) = true.
Proof.
  intros H. induction a as [|c a IH]; [exact H|].
  change (startsWith (String c (a +:+ s)) (String c (a +:+ p)) = true).
  cbn [startsWith]. rewrite Ascii.eqb_refl. exact IH.
Qed.

Lemma slice_middle a b c :
  slice (a +:+ b +:+ c) (Z.of_nat (String.length a))
        (Z.of_nat (String.length a + String.length b)) = b.
Proof.
  unfold slice, clamp_index. rewrite !length_append.
  destruct (Z.ltb_spec (Z.of_nat (String.length a)) 0); [lia|].
  destruct (Z.ltb_spec (Z.of_nat (String.length a + String.length b)) 0); [lia|].
  rewrite !Z.min_l by lia.
  replace (Z.to_nat (Z.of_nat (String.length a))) with (String.length a + 0)%nat by lia.
  replace (Z.to_nat (Z.of_nat (String.length a + String.length b) -
                     Z.of_nat (String.length a))) with (String.length b) by lia.
  rewrite substring_skip. apply substring_prefix.
Qed.

Lemma slice_from_tail a b :
  slice_from (a +:+ b) (Z.of_nat (String.length a)) = b.
Proof.
  unfold slice_from, slice, clamp_index. rewrite !length_append.
  destruct (Z.ltb_spec (Z.of_nat (String.length a)) 0); [lia|].
  destruct (Z.ltb_spec (Z.of_nat (String.length a + String.length b)) 0); [lia|].
  rewrite !Z.min_l by lia.
  replace (Z.to_nat (Z.of_nat (String.length a))) with (String.length a + 0)%nat by lia.
  replace (Z.to_nat (Z.of_nat (String.length a + String.length b) -
                     Z.of_nat (String.length a))) with (String.length b) by lia.
  rewrite substring_skip. apply substring_all.
Qed.

Lemma slice_backwards s a b :
  (0 <= b <= a)%Z -> slice s a b = EmptyString.
Proof.
  intros H. unfold slice, clamp_index.
  destruct (Z.ltb_spec a 0); [lia|]. destruct (Z.ltb_spec b 0); [lia|].
  replace (Z.to_nat (Z.min b _ - Z.min a _)) with 0%nat by lia.
  apply substring_zero.
Qed.

Lemma trim_nonempty_length s : trim s <> EmptyString -> (0 < String.length (trim s))%nat.
Proof. destruct (trim s); [congruence | cbn; lia]. Qed.

(** ** What [send] reads out of the lines [setoption] and [pressbutton] build *)

(** A name that does not contain the word "value", with a value after it:
    the key is the trimmed name in lower case, the value is the trimmed
    rest. *)
Lemma parse_setoption_named name value :
  includes (toLowerCase name) "value" = false ->
  trim name <> EmptyString ->
  parse_setoption ("setoption name " +:+ name +:+ " value " +:+ value) =
    Some (toLowerCase (trim name), trim value).
Proof.
  intros Hinc Hname.
  assert (Hnone : index_from_start (toLowerCase name) "value" = None).
  { unfold includes, indexOf in Hinc.
    destruct (index_from_start (toLowerCase name) "value"); [|reflexivity].
    apply negb_false_iff, Z.eqb_eq in Hinc. lia. }
  unfold parse_setoption. cbv zeta.
  rewrite !toLowerCase_append.
  change (toLowerCase "setoption name ") with "setoption name ".
  change (toLowerCase " value ") with " value ".
  set (N := toLowerCase name). set (V := toLowerCase value).
  assert (H1 : indexOf ("setoption name " +:+ N +:+ " value " +:+ V) "name" = 10%Z)
    by reflexivity.
  assert (H2 : indexOf ("setoption name " +:+ N +:+ " value " +:+ V) "value" =
               Z.of_nat (15 + (String.length N + 1))).
  { unfold indexOf.
    rewrite (index_skip "setoption name ")
      by (repeat (split; [reflexivity|]); exact I).
    change (" value " +:+ V) with (String " " ("value " +:+ V)).
    rewrite (index_skip N)
      by (apply no_match_before_blank;
          [repeat split; reflexivity | reflexivity | exact Hnone]).
    reflexivity. }
  rewrite H1, H2.
  replace (negb (10 =? -1)%Z && negb (Z.of_nat (15 + (String.length N + 1)) =? -1)%Z &&
           (10 <? Z.of_nat (15 + (String.length N + 1)))%Z) with true
    by (symmetry; rewrite !andb_true_iff, !negb_true_iff, !Z.eqb_neq, Z.ltb_lt; lia).
  replace (Z.of_nat (15 + (String.length N + 1)) - 1)%Z
    with (Z.of_nat (String.length "setoption name " + String.length N))
    by (cbn [String.length]; lia).
  change (10 + 5)%Z with (Z.of_nat (String.length "setoption name ")).
  rewrite slice_middle.
  replace (Z.of_nat (15 + (String.length N + 1)) + 6)%Z
    with (Z.of_nat (String.length ("setoption name " +:+ name +:+ " value "))).
  2:{ rewrite !length_append. unfold N. rewrite length_toLowerCase.
      cbn [String.length]. lia. }
  rewrite <- (append_assoc_str name " value " value).
  rewrite <- (append_assoc_str "setoption name " (name +:+ " value ") value).
  rewrite slice_from_tail.
  unfold N. rewrite <- toLowerCase_trim.
  pose proof (trim_nonempty_length name Hname) as Hlen.
  rewrite <- (length_toLowerCase (trim name)) in Hlen.
  apply Nat.ltb_lt in Hlen. rewrite Hlen. reflexivity.
Qed.

(** A name that begins with the word "value": the key [send] cuts out is
    empty, and nothing is read. *)
Lemma parse_setoption_value_first msg :
  startsWith (toLowerCase msg) "setoption name value" = true ->
  parse_setoption msg = None.
Proof.
  intros H. apply startsWith_split in H. destruct H as [r Hr].
  unfold parse_setoption. cbv zeta. rewrite Hr.
  change (indexOf ("setoption name value" +:+ r) "name") with 10%Z.
  change (indexOf ("setoption name value" +:+ r) "value") with 15%Z.
  cbn [Z.eqb negb andb Z.ltb Z.compare Pos.compare Pos.compare_cont Z.add Z.sub
       Z.opp Z.pos_sub Pos.add Pos.succ Pos.pred_double Z.succ_double Z.pred_double
       Z.double Pos.add_carry].
  rewrite slice_backwards by lia. reflexivity.
Qed.

(** Without the word "value" anywhere, nothing is read. *)
Lemma parse_setoption_button name :
  includes (toLowerCase name) "value" = false ->
  parse_setoption ("setoption name " +:+ name) = None.
Proof.
  intros Hinc.
  assert (Hnone : index_from_start (toLowerCase name) "value" = None).
  { unfold includes, indexOf in Hinc.
    destruct (index_from_start (toLowerCase name) "value"); [|reflexivity].
    apply negb_false_iff, Z.eqb_eq in Hinc. lia. }
  unfold parse_setoption. cbv zeta. rewrite toLowerCase_append.
  change (toLowerCase "setoption name ") with "setoption name ".
  assert (H2 : indexOf ("setoption name " +:+ toLowerCase name) "value" = (-1)%Z).
  { unfold indexOf.
    rewrite (index_skip "setoption name ")
      by (repeat (split; [reflexivity|]); exact I).
    rewrite Hnone. reflexivity. }
  rewrite H2. rewrite andb_false_r. reflexivity.
Qed.

(** The line [setoption] builds is sent as it is when the value is
    trimmed and not empty. *)
Lemma trim_setoption_line name value :
  trim value = value -> value <> EmptyString ->
  trim ("setoption name " +:+ name +:+ " value " +:+ value) =
    "setoption name " +:+ name +:+ " value " +:+ value.
Proof.
  intros Ht Hv. unfold trim.
  change (trimStart ("setoption name " +:+ name +:+ " value " +:+ value))
    with ("setoption name " +:+ name +:+ " value " +:+ value).
  rewrite <- (append_assoc_str name " value " value).
  rewrite <- (append_assoc_str "setoption name " (name +:+ " value ") value).
  apply trimEnd_append; [exact Hv | apply trim_fixed_trimEnd, Ht].
Qed.

Lemma trim_button_line name :
  trim name = name -> name <> EmptyString ->
  trim ("setoption name " +:+ name) = "setoption name " +:+ name.
Proof.
  intros Ht Hv. unfold trim.
  change (trimStart ("setoption name " +:+ name)) with ("setoption name " +:+ name).
  apply trimEnd_append; [exact Hv | apply trim_fixed_trimEnd, Ht].
Qed.

(** Whatever the value, the trimmed line of a name that begins with
    "value" still begins with it. *)
Lemma value_first_line name rest :
  startsWith (toLowerCase name) "value" = true ->
  startsWith (toLowerCase (trim ("setoption name " +:+ name +:+ rest)))
             "setoption name value" = true.
Proof.
  intros H. rewrite toLowerCase_trim, !toLowerCase_append.
  change (toLowerCase "setoption name ") with "setoption name ".
  unfold trim.
  change (trimStart ("setoption name " +:+ toLowerCase name +:+ toLowerCase rest))
    with ("setoption name " +:+ toLowerCase name +:+ toLowerCase rest).
  apply startsWith_trimEnd_last; [cbn; reflexivity|].
  apply (startsWith_append_both "setoption name " _ "value").
  apply startsWith_append_l. exact H.
Qed.

(** ** The digits of a number *)

Lemma digits_value_acc d : forall acc,
  digits_value (Z.pos acc) (NilEmpty.string_of_uint d) =
    Some (Z.pos (Pos.of_uint_acc d acc)).
Proof.
  induction d; intros acc; cbn [NilEmpty.string_of_uint digits_value Pos.of_uint_acc];
    [reflexivity | ..];
    (change (digit_value _) with (Some 0%Z) ||
     change (digit_value _) with (Some 1%Z) ||
     change (digit_value _) with (Some 2%Z) ||
     change (digit_value _) with (Some 3%Z) ||
     change (digit_value _) with (Some 4%Z) ||
     change (digit_value _) with (Some 5%Z) ||
     change (digit_value _) with (Some 6%Z) ||
     change (digit_value _) with (Some 7%Z) ||
     change (digit_value _) with (Some 8%Z) ||
     change (digit_value _) with (Some 9%Z));
    cbv iota; rewrite <- IHd; f_equal; lia.
Qed.

Lemma digits_value_uint d :
  digits_value 0 (NilEmpty.string_of_uint d) = Some (Z.of_N (Pos.of_uint d)).
Proof.
  induction d; cbn [NilEmpty.string_of_uint digits_value Pos.of_uint];
    [reflexivity | ..];
    (change (digit_value _) with (Some 0%Z) ||
     change (digit_value _) with (Some 1%Z) ||
     change (digit_value _) with (Some 2%Z) ||
     change (digit_value _) with (Some 3%Z) ||
     change (digit_value _) with (Some 4%Z) ||
     change (digit_value _) with (Some 5%Z) ||
     change (digit_value _) with (Some 6%Z) ||
     change (digit_value _) with (Some 7%Z) ||
     change (digit_value _) with (Some 8%Z) ||
     change (digit_value _) with (Some 9%Z));
    cbv iota; change (10 * 0 + _)%Z with 0%Z || idtac;
    first [exact IHd | apply (digits_value_acc d)].
Qed.

Lemma digits_of_positive p :
  exists c s, NilEmpty.string_of_uint (Pos.to_uint p) = String c s /\
              Ascii.eqb c "-" = false /\
              digits_value 0 (String c s) = Some (Z.pos p).
Proof.
  pose proof (digits_value_uint (Pos.to_uint p)) as H.
  rewrite DecimalPos.Unsigned.of_to in H.
  destruct (Pos.to_uint p) as [|d|d|d|d|d|d|d|d|d|d] eqn:E;
    [discriminate H | ..]; cbn [NilEmpty.string_of_uint] in H |- *;
    eexists; eexists; (split; [reflexivity|]); (split; [reflexivity | exact H]).
Qed.

(** The digits [number_to_string] prints stand for the number printed. *)
Lemma decimal_value_number_to_string k :
  decimal_value (number_to_string k) = Some k.
Proof.
  unfold number_to_string. destruct k as [|p|p].
  - reflexivity.
  - destruct (digits_of_positive p) as (c & s & E & Hc & Hv).
    unfold Z.to_int, NilZero.string_of_int, NilZero.string_of_uint.
    destruct (Pos.to_uint p) eqn:Ep; try discriminate E;
      rewrite E; unfold decimal_value; rewrite Hc; exact Hv.
  - destruct (digits_of_positive p) as (c & s & E & Hc & Hv).
    unfold Z.to_int, NilZero.string_of_int, NilZero.string_of_uint.
    destruct (Pos.to_uint p) eqn:Ep; try discriminate E;
      rewrite E; unfold decimal_value; cbn [Ascii.eqb Bool.eqb andb];
      rewrite Hv; reflexivity.
Qed.

(** ** Traces *)

Lemma stdin_writes_app t1 t2 :
  stdin_writes (t1 ++ t2) = stdin_writes t1 ++ stdin_writes t2.
Proof.
  induction t1 as [|ev t1 IH]; [reflexivity|].
  destruct ev; simpl; rewrite ?IH; reflexivity.
Qed.

Lemma bestmoves_forwarded_app t1 t2 :
  bestmoves_forwarded (t1 ++ t2) = bestmoves_forwarded t1 ++ bestmoves_forwarded t2.
Proof.
  induction t1 as [|ev t1 IH]; [reflexivity|].
  destruct ev; simpl; rewrite ?IH; reflexivity.
Qed.

Lemma infos_forwarded_app t1 t2 :
  infos_forwarded (t1 ++ t2) = infos_forwarded t1 ++ infos_forwarded t2.
Proof.
  induction t1 as [|ev t1 IH]; [reflexivity|].
  destruct ev; simpl; rewrite ?IH; reflexivity.
Qed.

Lemma acks_sent_app t1 t2 : acks_sent (t1 ++ t2) = acks_sent t1 ++ acks_sent t2.
Proof.
  induction t1 as [|ev t1 IH]; [reflexivity|].
  destruct ev; simpl; rewrite ?IH; reflexivity.
Qed.

Lemma go_commands_app t1 t2 : go_commands (t1 ++ t2) = go_commands t1 ++ go_commands t2.
Proof. unfold go_commands. rewrite stdin_writes_app. apply List.filter_app. Qed.

Lemma stop_commands_app t1 t2 :
  stop_commands (t1 ++ t2) = stop_commands t1 ++ stop_commands t2.
Proof. unfold stop_commands. rewrite stdin_writes_app. apply List.filter_app. Qed.

(** ** The monad *)

Lemma bind_Ok {A B} (m : M A) (f : A -> M B) w a w1 t1 :
  m w = Ok a w1 t1 ->
  bind m f w =
    match f a w1 with
    | Ok b w2 t2 => Ok b w2 (t1 ++ t2)
    | Throw err w2 t2 => Throw err w2 (t1 ++ t2)
    end.
Proof. intros H. unfold bind. rewrite H. reflexivity. Qed.

Lemma world_of_bind {A B} (m : M A) (f : A -> M B) w a w1 t1 :
  m w = Ok a w1 t1 -> world_of (bind m f w) = world_of (f a w1).
Proof. intros H. rewrite (bind_Ok _ _ _ _ _ _ H). destruct (f a w1); reflexivity. Qed.

Lemma trace_of_bind {A B} (m : M A) (f : A -> M B) w a w1 t1 :
  m w = Ok a w1 t1 -> trace_of (bind m f w) = t1 ++ trace_of (f a w1).
Proof. intros H. rewrite (bind_Ok _ _ _ _ _ _ H). destruct (f a w1); reflexivity. Qed.

Lemma returned_bind {A B} (m : M A) (f : A -> M B) w a w1 t1 :
  m w = Ok a w1 t1 -> returned (bind m f w) = returned (f a w1).
Proof. intros H. rewrite (bind_Ok _ _ _ _ _ _ H). destruct (f a w1); reflexivity. Qed.

(** Rules for a relation that holds of doing nothing and composes along
    sequencing. *)
Section Respects.

Variable R : World -> World -> list Event -> Prop.
Hypothesis R_refl : forall w, R w w [].
Hypothesis R_trans : forall w1 w2 w3 t1 t2,
  R w1 w2 t1 -> R w2 w3 t2 -> R w1 w3 (t1 ++ t2).

Lemma respects_ret {A} (a : A) : respects R (ret a).
Proof. intros w. apply R_refl. Qed.

Lemma respects_throw {A} err : respects R (@throw A err).
Proof. intros w. apply R_refl. Qed.

Lemma respects_get_eng : respects R get_eng.
Proof. intros w. apply R_refl. Qed.

Lemma respects_get_heap : respects R get_heap.
Proof. intros w. apply R_refl. Qed.

Lemma respects_get_info_handler : respects R get_info_handler.
Proof. intros w. apply R_refl. Qed.

Lemma respects_bind {A B} (m : M A) (f : A -> M B) :
  respects R m -> (forall a, respects R (f a)) -> respects R (bind m f).
Proof.
  intros Hm Hf w. specialize (Hm w). unfold bind.
  destruct (m w) as [a w1 t1|err w1 t1]; simpl in *; [|exact Hm].
  specialize (Hf a w1). destruct (f a w1) as [b w2 t2|err w2 t2]; simpl in *;
    eapply R_trans; eassumption.
Qed.

Lemma respects_for_each {A} (l : list A) (body : A -> M unit) :
  Forall (fun x => respects R (body x)) l -> respects R (for_each l body).
Proof.
  induction 1 as [|x l Hx Hl IH]; simpl.
  - apply respects_ret.
  - apply respects_bind; [exact Hx | intros _; exact IH].
Qed.

End Respects.

(** Walking down a method's body: sequencing, branches and the state
    readers are dealt with here, the assignments and calls are left to
    [leaf]. *)
Ltac walk Hrefl Htrans leaf :=
  lazymatch goal with
  | |- respects _ (bind _ _) =>
      apply (respects_bind _ Htrans);
      [walk Hrefl Htrans leaf | intro; walk Hrefl Htrans leaf]
  | |- respects _ (ret _) => apply (respects_ret _ Hrefl)
  | |- respects _ (throw _) => apply (respects_throw _ Hrefl)
  | |- respects _ get_eng => apply (respects_get_eng _ Hrefl)
  | |- respects _ get_heap => apply (respects_get_heap _ Hrefl)
  | |- respects _ get_info_handler => apply (respects_get_info_handler _ Hrefl)
  | |- respects _ (if ?c then _ else _) => destruct c eqn:?; walk Hrefl Htrans leaf
  | |- respects _ (match ?x with _ => _ end) => destruct x eqn:?; walk Hrefl Htrans leaf
  | |- _ => leaf
  end.

Arguments startsWith : simpl never.
Arguments trim : simpl never.
Arguments toLowerCase : simpl never.
Arguments indexOf : simpl never.
Arguments slice : simpl never.
Arguments slice_from : simpl never.
Arguments append : simpl never.
Arguments number_to_string : simpl never.
Arguments join : simpl never.

(** ** The frame of [send] *)

Lemma send_frame_refl w : send_frame w w [].
Proof. repeat split. Qed.

Lemma send_frame_trans w1 w2 w3 t1 t2 :
  send_frame w1 w2 t1 -> send_frame w2 w3 t2 -> send_frame w1 w3 (t1 ++ t2).
Proof.
  intros (H1 & H2 & H3 & H4 & H5) (G1 & G2 & G3 & G4 & G5). unfold send_frame.
  rewrite bestmoves_forwarded_app, infos_forwarded_app, H4, H5, G4, G5.
  repeat split; congruence.
Qed.

(** An assignment or a call out that stays inside the frame. *)
Ltac frame_leaf := intros ?w; repeat split.

Ltac frame_walk := walk send_frame_refl send_frame_trans frame_leaf.

Lemma ack_frame name :
  respects send_frame (send_ack_setoption_to_main_process name).
Proof. unfold send_ack_setoption_to_main_process. frame_walk. Qed.

Lemma stdin_write_frame s : respects send_frame (stdin_write s).
Proof. unfold stdin_write. frame_walk. Qed.

Lemma record_setoption_frame msg : respects send_frame (record_setoption msg).
Proof.
  unfold record_setoption. walk send_frame_refl send_frame_trans
    ltac:(first [apply ack_frame | frame_leaf]).
Qed.

Lemma write_line_frame env msg : respects send_frame (write_line env msg).
Proof.
  unfold write_line. walk send_frame_refl send_frame_trans
    ltac:(first [apply stdin_write_frame | frame_leaf]).
Qed.

Lemma send_in_frame env msg force : respects send_frame (send env msg force).
Proof.
  unfold send. cbv zeta. walk send_frame_refl send_frame_trans
    ltac:(first [apply record_setoption_frame | apply write_line_frame | frame_leaf]).
Qed.

(** ** What [send] writes *)

Lemma writes_only_refl m w : writes_only m w w [].
Proof. constructor. Qed.

Lemma writes_only_trans m w1 w2 w3 t1 t2 :
  writes_only m w1 w2 t1 -> writes_only m w2 w3 t2 -> writes_only m w1 w3 (t1 ++ t2).
Proof.
  unfold writes_only. intros H1 H2. rewrite stdin_writes_app.
  apply Forall_app; split; assumption.
Qed.

Ltac writes_leaf :=
  intros ?w; unfold writes_only; simpl;
  repeat (apply Forall_cons_2; [auto|]); apply Forall_nil_2.

Lemma stdin_write_writes m s :
  s = m \/ s = newline -> respects (writes_only m) (stdin_write s).
Proof.
  intros Hs. unfold stdin_write.
  walk (writes_only_refl m) (writes_only_trans m) writes_leaf.
Qed.

Lemma ack_writes m name :
  respects (writes_only m) (send_ack_setoption_to_main_process name).
Proof.
  unfold send_ack_setoption_to_main_process.
  walk (writes_only_refl m) (writes_only_trans m) writes_leaf.
Qed.

Lemma write_line_writes env msg : respects (writes_only msg) (write_line env msg).
Proof.
  unfold write_line. walk (writes_only_refl msg) (writes_only_trans msg)
    ltac:(first [apply stdin_write_writes; auto | writes_leaf]).
Qed.

(** [send] hands nothing to [stdin.write] but the trimmed line and the
    terminator. *)
Lemma send_writes env msg force :
  respects (writes_only (trim msg)) (send env msg force).
Proof.
  unfold send, record_setoption. cbv zeta.
  walk (writes_only_refl (trim msg)) (writes_only_trans (trim msg))
    ltac:(first [apply write_line_writes | apply ack_writes | writes_leaf]).
Qed.

Lemma send_returns env msg force w : returned (send env msg force w) = true.
Proof.
  unfold send, record_setoption, write_line, stdin_write,
    send_ack_setoption_to_main_process. cbv zeta.
  cbv [bind get_eng modify_eng emit ret].
  repeat match goal with
         | |- context [if ?c then _ else _] => destruct c
         | |- context [match parse_setoption ?m with _ => _ end] =>
             destruct (parse_setoption m) as [[? ?]|]
         | |- context [match exe ?e with _ => _ end] => destruct (exe e) as [[[[|?]|]]|]
         | |- context [match stdin_budget ?e with _ => _ end] =>
             destruct (stdin_budget e) as [[|?]|]
         | |- _ => progress cbn [exe eng set_exe stdin_budget truthy returned]
         end; reflexivity.
Qed.

(** A [setoption] line met while a search runs, without the force flag, is
    queued: the state changes in the queue only and nothing leaves the
    driver. *)
Lemma send_queued env msg force w :
  startsWith (trim msg) "setoption" = true ->
  truthy (node (search_running (eng w))) = true ->
  force = false ->
  send env msg force w =
    Ok tt (mkWorld (heap w) (info_handler w)
             (set_setoption_queue (setoption_queue (eng w) ++ [trim msg]) (eng w))) [].
Proof.
  intros H1 H2 ->. unfold send. cbv zeta. cbv [bind get_eng modify_eng].
  rewrite H1, H2. reflexivity.
Qed.

Lemma ack_eq name w :
  send_ack_setoption_to_main_process name w =
    let key := toLowerCase name in
    let val := match sent_options (eng w) !! key with Some v => v | None => "" end in
    Ok (key, val) w [IpcAckSetoption key val].
Proof. reflexivity. Qed.

(** On a live engine the [try] block writes the line and the terminator
    and notes the line in [last_send]. *)
Lemma write_line_live env msg w :
  engine_live (eng w) ->
  write_line env msg w =
    Ok tt (mkWorld (heap w) (info_handler w) (set_last_send (Some msg) (eng w)))
      [StdinWrite msg; StdinWrite newline; LogLine ("--> " +:+ msg)].
Proof.
  unfold engine_live. intros H. unfold write_line, stdin_write.
  cbv [bind get_eng modify_eng emit ret]. repeat (rewrite H; cbn). reflexivity.
Qed.

(** ** Liveness and the shape of the queue are kept *)

Lemma keeps_inv_refl w : keeps_inv w w [].
Proof. split; auto. Qed.

Lemma keeps_inv_trans w1 w2 w3 t1 t2 :
  keeps_inv w1 w2 t1 -> keeps_inv w2 w3 t2 -> keeps_inv w1 w3 (t1 ++ t2).
Proof. intros [H1 H2] [G1 G2]. split; auto. Qed.

Ltac inv_leaf := intros ?w; split; intros ?H; exact H.

Lemma stdin_write_inv s : respects keeps_inv (stdin_write s).
Proof.
  intros w. unfold stdin_write. cbv [bind get_eng modify_eng emit ret].
  destruct (exe (eng w)) as [[[[|k]|]]|] eqn:E; cbn; split; intros H; try exact H.
  unfold engine_live in H. congruence.
Qed.

Lemma ack_inv name : respects keeps_inv (send_ack_setoption_to_main_process name).
Proof.
  unfold send_ack_setoption_to_main_process.
  walk keeps_inv_refl keeps_inv_trans inv_leaf.
Qed.

Lemma write_line_inv env msg : respects keeps_inv (write_line env msg).
Proof.
  unfold write_line. walk keeps_inv_refl keeps_inv_trans
    ltac:(first [apply stdin_write_inv | inv_leaf]).
Qed.

Lemma record_setoption_inv msg : respects keeps_inv (record_setoption msg).
Proof.
  unfold record_setoption. walk keeps_inv_refl keeps_inv_trans
    ltac:(first [apply ack_inv | inv_leaf]).
Qed.

Lemma queue_wf_push e m :
  startsWith (trim m) "setoption" = true -> queue_wf e ->
  queue_wf (set_setoption_queue (setoption_queue e ++ [trim m]) e).
Proof.
  intros Hm He. unfold queue_wf in *. cbn. apply Forall_app. split; [exact He|].
  apply Forall_cons_2; [|apply Forall_nil_2]. split; [apply trim_idem | exact Hm].
Qed.

Lemma send_inv env msg force : respects keeps_inv (send env msg force).
Proof.
  unfold send. cbv zeta.
  walk keeps_inv_refl keeps_inv_trans
    ltac:(first [apply record_setoption_inv | apply write_line_inv | idtac]).
  intros w. split; intros H; [exact H|]. apply queue_wf_push; [|exact H].
  apply andb_prop in Heqb. tauto.
Qed.

(** ** Where nothing is recorded *)

Lemma records_nothing_refl w : records_nothing w w [].
Proof. repeat split. Qed.

Lemma records_nothing_trans w1 w2 w3 t1 t2 :
  records_nothing w1 w2 t1 -> records_nothing w2 w3 t2 ->
  records_nothing w1 w3 (t1 ++ t2).
Proof.
  intros (H1 & H2 & H3) (G1 & G2 & G3). unfold records_nothing.
  rewrite acks_sent_app, H3, G3. repeat split; congruence.
Qed.

Ltac rec_leaf := intros ?w; repeat split.

Lemma stdin_write_records s : respects records_nothing (stdin_write s).
Proof.
  unfold stdin_write. walk records_nothing_refl records_nothing_trans rec_leaf.
Qed.

Lemma write_line_records env msg : respects records_nothing (write_line env msg).
Proof.
  unfold write_line. walk records_nothing_refl records_nothing_trans
    ltac:(first [apply stdin_write_records | rec_leaf]).
Qed.

(** ** [send] in closed form *)

Lemma bind_get_eng {B} (f : Engine -> M B) w : bind get_eng f w = f (eng w) w.
Proof. unfold bind, get_eng. destruct (f (eng w) w); reflexivity. Qed.

Lemma bind_get_heap {B} (f : Heap -> M B) w : bind get_heap f w = f (heap w) w.
Proof. unfold bind, get_heap. destruct (f (heap w) w); reflexivity. Qed.

Lemma bind_get_info_handler {B} (f : InfoHandler -> M B) w :
  bind get_info_handler f w = f (info_handler w) w.
Proof. unfold bind, get_info_handler. destruct (f (info_handler w) w); reflexivity. Qed.

Lemma bind_ret {A B} (a : A) (f : A -> M B) w : bind (ret a) f w = f a w.
Proof. unfold bind, ret. destruct (f a w); reflexivity. Qed.

Lemma bind_modify_eng {B} (g : Engine -> Engine) (f : unit -> M B) w :
  bind (modify_eng g) f w = f tt (mkWorld (heap w) (info_handler w) (g (eng w))).
Proof. unfold bind, modify_eng. destruct (f tt _); reflexivity. Qed.

Lemma bind_modify_info_handler {B} (g : InfoHandler -> InfoHandler) (f : unit -> M B) w :
  bind (modify_info_handler g) f w = f tt (mkWorld (heap w) (g (info_handler w)) (eng w)).
Proof. unfold bind, modify_info_handler. destruct (f tt _); reflexivity. Qed.

Lemma bind_assoc {A B C} (m : M A) (f : A -> M B) (g : B -> M C) w :
  bind (bind m f) g w = bind m (fun a => bind (f a) g) w.
Proof.
  unfold bind. destruct (m w) as [a w1 t1|]; [|reflexivity].
  destruct (f a w1) as [b w2 t2|]; [|reflexivity].
  destruct (g b w2); rewrite app_assoc; reflexivity.
Qed.

Lemma send_unqueued env msg force w :
  startsWith (trim msg) "setoption" &&
    (truthy (node (search_running (eng w))) && negb force) = false ->
  send env msg force w =
    bind (if startsWith (trim msg) "setoption"
          then record_setoption (trim msg) else ret tt)
         (fun _ => bind get_eng (fun e =>
            if truthy (exe e) then write_line env (trim msg) else ret tt)) w.
Proof.
  intros H. unfold send. cbv zeta. rewrite bind_get_eng, H. reflexivity.
Qed.

(** A line that is no [setoption], on a live engine. *)
Lemma send_live_plain env msg force w :
  engine_live (eng w) ->
  startsWith (trim msg) "setoption" = false ->
  send env msg force w =
    Ok tt (mkWorld (heap w) (info_handler w) (set_last_send (Some (trim msg)) (eng w)))
      [StdinWrite (trim msg); StdinWrite newline; LogLine ("--> " +:+ trim msg)].
Proof.
  intros Hlive Hs. rewrite send_unqueued by (rewrite Hs; reflexivity). rewrite Hs.
  rewrite bind_ret, bind_get_eng.
  pose proof Hlive as Hexe. unfold engine_live in Hexe. rewrite Hexe. cbn [truthy].
  apply write_line_live, Hlive.
Qed.

Lemma parse_setoption_key_lower msg key val :
  parse_setoption msg = Some (key, val) -> toLowerCase key = key.
Proof.
  unfold parse_setoption. cbv zeta.
  destruct (_ && _ && _)%bool; [|discriminate].
  destruct (0 <? _)%nat; [|discriminate].
  intros H. injection H as <- _. apply extracted_key_lower.
Qed.

(** The recording block in closed form: the map is updated and the
    acknowledgement carries the pair just stored. *)
Lemma record_setoption_eq msg w :
  record_setoption msg w =
    match parse_setoption msg with
    | Some (key, val) =>
        Ok tt (mkWorld (heap w) (info_handler w)
                 (set_sent_options (<[key := val]> (sent_options (eng w))) (eng w)))
          [IpcAckSetoption key val]
    | None => Ok tt w []
    end.
Proof.
  unfold record_setoption. destruct (parse_setoption msg) as [[key val]|] eqn:E;
    [|reflexivity].
  cbv [bind modify_eng ret]. rewrite ack_eq. cbv zeta. cbn [eng sent_options set_sent_options].
  rewrite (parse_setoption_key_lower _ _ _ E), lookup_insert_eq. reflexivity.
Qed.

(** ** The discipline of [setoption] lines *)

(** Claim C5.  Whatever [send] hands to [stdin.write] that begins with
    [setoption], it writes with no search running or with the force flag
    set.  A [setoption] line submitted while a search runs and without the
    flag only joins the end of the queue: no other field changes, nothing is
    written, nothing is recorded or acknowledged. *)
Theorem C5_setoption_held_back_while_searching env msg force w :
  (forall s, In s (stdin_writes (trace_of (send env msg force w))) ->
             startsWith s "setoption" = true ->
             node (search_running (eng w)) = None \/ force = true) /\
  (startsWith (trim msg) "setoption" = true ->
   node (search_running (eng w)) <> None ->
   force = false ->
   send env msg force w =
     Ok tt (mkWorld (heap w) (info_handler w)
              (set_setoption_queue (setoption_queue (eng w) ++ [trim msg]) (eng w))) []).
Proof.
  split.
  - intros s Hin Hs.
    pose proof (send_writes env msg force w) as Hw. unfold writes_only in Hw.
    rewrite Forall_forall in Hw. apply list_elem_of_In in Hin.
    destruct (Hw s Hin) as [-> | ->]; [|discriminate Hs].
    destruct (node (search_running (eng w))) as [n|] eqn:Hn; [|left; reflexivity].
    destruct force; [right; reflexivity|].
    rewrite send_queued in Hin by (rewrite ?Hn; auto). cbn in Hin.
    apply elem_of_nil in Hin. contradiction.
  - intros Hs Hn ->. apply send_queued; auto.
    destruct (node (search_running (eng w))); [reflexivity | congruence].
Qed.

(** A line queued by a running search, and the state it leaves. *)
Lemma C5_witness :
  send demo_env "setoption name Threads value 4 " false running_world =
    Ok tt (mkWorld (heap running_world) (info_handler running_world)
             (set_setoption_queue ["setoption name Threads value 4"] (eng running_world)))
      [].
Proof.
  apply (C5_setoption_held_back_while_searching demo_env
           "setoption name Threads value 4 " false running_world).
  - vm_compute. reflexivity.
  - vm_compute. discriminate.
  - reflexivity.
Defined.

(** Claim C8.  When [send] meets a [setoption] line that it does not queue,
    in which [name] comes before [value] and the text between them is not
    blank, it stores the value under the lower-cased name and sends one
    [ack_setoption] with exactly that key and that value; this needs no
    child process.  In general the acknowledgement of a name carries the
    lower-cased name and the stored string, or the empty string when the
    name has none. *)
Theorem C8_setoption_recorded_and_acknowledged env msg force w :
  let line := trim msg in
  let i1 := indexOf (toLowerCase line) "name" in
  let i2 := indexOf (toLowerCase line) "value" in
  let name := trim (slice line (i1 + 5) (i2 - 1)) in
  let value := trim (slice_from line (i2 + 6)) in
  (startsWith line "setoption" = true ->
   node (search_running (eng w)) = None \/ force = true ->
   i1 <> (-1)%Z -> i2 <> (-1)%Z -> (i1 < i2)%Z -> name <> EmptyString ->
   returned (send env msg force w) = true /\
   sent_options (eng (world_of (send env msg force w))) !! toLowerCase name = Some value /\
   acks_sent (trace_of (send env msg force w)) = [(toLowerCase name, value)]) /\
  (forall n w',
     acks_sent (trace_of (send_ack_setoption_to_main_process n w')) =
       [(toLowerCase n,
         match sent_options (eng w') !! toLowerCase n with
         | Some v => v
         | None => EmptyString
         end)]).
Proof.
  cbv zeta. split; [|intros n w'; reflexivity].
  intros Hs Hidle H1 H2 H12 Hname.
  split; [apply send_returns|].
  assert (Hparse : parse_setoption (trim msg) =
            Some (toLowerCase (trim (slice (trim msg)
                     (indexOf (toLowerCase (trim msg)) "name" + 5)
                     (indexOf (toLowerCase (trim msg)) "value" - 1))),
                  trim (slice_from (trim msg)
                     (indexOf (toLowerCase (trim msg)) "value" + 6)))).
  { unfold parse_setoption. cbv zeta.
    apply Z.eqb_neq in H1, H2. apply Z.ltb_lt in H12. rewrite H1, H2, H12. cbn [negb andb].
    rewrite lower_name_key.
    destruct (0 <? String.length _)%nat eqn:Hlen; [reflexivity|].
    exfalso. apply Hname. apply Nat.ltb_ge in Hlen.
    rewrite <- lower_name_key, length_toLowerCase in Hlen.
    apply length_zero_empty. lia. }
  rewrite send_unqueued.
  2:{ rewrite Hs. destruct Hidle as [-> | ->]; [reflexivity|].
      cbn. apply andb_false_r. }
  rewrite Hs.
  pose proof (record_setoption_eq (trim msg) w) as Hrec. rewrite Hparse in Hrec.
  match type of Hrec with _ = Ok _ ?w1 _ => set (w1' := w1) in * end.
  pose proof (respects_bind _ records_nothing_trans get_eng
                (fun e => if truthy (exe e) then write_line env (trim msg) else ret tt)
                (respects_get_eng _ records_nothing_refl)) as Hrest.
  assert (Hk : respects records_nothing
                 (bind get_eng (fun e =>
                    if truthy (exe e) then write_line env (trim msg) else ret tt))).
  { apply Hrest. intros e. destruct (truthy (exe e));
      [apply write_line_records | apply (respects_ret _ records_nothing_refl)]. }
  destruct (Hk w1') as (Ho & _ & Ha).
  rewrite (world_of_bind _ _ _ _ _ _ Hrec), (trace_of_bind _ _ _ _ _ _ Hrec).
  rewrite Ho, acks_sent_app, Ha. split; [|reflexivity].
  subst w1'. cbn [eng sent_options set_sent_options]. apply lookup_insert_eq.
Qed.

(** The bookkeeping happens on a driver that has launched nothing. *)
Lemma C8_witness :
  sent_options (eng (world_of (send demo_env "setoption name Threads value 4" false
                                 fresh_world))) !! "threads" = Some "4" /\
  acks_sent (trace_of (send demo_env "setoption name Threads value 4" false fresh_world))
    = [("threads", "4")] /\
  exe (eng fresh_world) = None.
Proof.
  destruct (C8_setoption_recorded_and_acknowledged demo_env
              "setoption name Threads value 4" false fresh_world) as [H _].
  cbv zeta in H. destruct H as (_ & H1 & H2).
  - vm_compute. reflexivity.
  - left. reflexivity.
  - vm_compute. discriminate.
  - vm_compute. discriminate.
  - vm_compute. reflexivity.
  - vm_compute. discriminate.
  - split; [exact H1 | split; [exact H2 | reflexivity]].
Defined.

(** A [setoption] line that is not queued, on a live engine. *)
Lemma send_live_setoption env msg force w :
  engine_live (eng w) ->
  startsWith (trim msg) "setoption" = true ->
  truthy (node (search_running (eng w))) && negb force = false ->
  send env msg force w =
    match parse_setoption (trim msg) with
    | Some (key, val) =>
        Ok tt (mkWorld (heap w) (info_handler w)
                 (set_last_send (Some (trim msg))
                    (set_sent_options (<[key := val]> (sent_options (eng w))) (eng w))))
          [IpcAckSetoption key val; StdinWrite (trim msg); StdinWrite newline;
           LogLine ("--> " +:+ trim msg)]
    | None =>
        Ok tt (mkWorld (heap w) (info_handler w) (set_last_send (Some (trim msg)) (eng w)))
          [StdinWrite (trim msg); StdinWrite newline; LogLine ("--> " +:+ trim msg)]
    end.
Proof.
  intros Hlive Hs Hq. rewrite send_unqueued by (rewrite Hs, Hq; reflexivity). rewrite Hs.
  pose proof (record_setoption_eq (trim msg) w) as Hrec.
  pose proof Hlive as Hexe. unfold engine_live in Hexe.
  destruct (parse_setoption (trim msg)) as [[key val]|].
  - rewrite (bind_Ok _ _ _ _ _ _ Hrec), bind_get_eng. cbn [eng exe set_sent_options].
    rewrite Hexe. cbn [truthy]. rewrite write_line_live by exact Hexe. reflexivity.
  - rewrite (bind_Ok _ _ _ _ _ _ Hrec), bind_get_eng. rewrite Hexe. cbn [truthy].
    rewrite write_line_live by exact Hexe. reflexivity.
Qed.

(** On a live engine a line that is not queued is written once, followed by
    the terminator; the engine stays live and the queue is as it was. *)
Lemma send_live_writes env msg force w :
  engine_live (eng w) ->
  startsWith (trim msg) "setoption" &&
    (truthy (node (search_running (eng w))) && negb force) = false ->
  exists e' tr,
    send env msg force w = Ok tt (mkWorld (heap w) (info_handler w) e') tr /\
    stdin_writes tr = [trim msg; newline] /\
    engine_live e' /\
    untouched e' = untouched (eng w) /\
    setoption_queue e' = setoption_queue (eng w).
Proof.
  intros Hlive Hq. destruct (startsWith (trim msg) "setoption") eqn:Hs.
  - rewrite send_live_setoption by auto.
    destruct (parse_setoption (trim msg)) as [[key val]|];
      eexists; eexists; (split; [reflexivity|]); repeat split; exact Hlive.
  - rewrite send_live_plain by auto.
    eexists; eexists; (split; [reflexivity|]); repeat split; exact Hlive.
Qed.

(** ** The queue drain *)

Lemma drain_loop env q : forall w,
  engine_live (eng w) ->
  Forall (fun m => trim m = m /\ startsWith m "setoption" = true) q ->
  exists e' tr,
    for_each q (fun m => send env m true) w =
      Ok tt (mkWorld (heap w) (info_handler w) e') tr /\
    stdin_writes tr = flat_map (fun m => [m; newline]) q /\
    engine_live e' /\
    untouched e' = untouched (eng w) /\
    setoption_queue e' = setoption_queue (eng w).
Proof.
  induction q as [|m q IH]; intros w Hlive Hq.
  - exists (eng w), []. destruct w. repeat split. exact Hlive.
  - apply Forall_cons in Hq. destruct Hq as [[Htrim Hs] Hq].
    destruct (send_live_writes env m true w Hlive) as (e1 & t1 & H1 & Hw1 & Hl1 & Hu1 & Hq1).
    { cbn. rewrite !andb_false_r. reflexivity. }
    destruct (IH (mkWorld (heap w) (info_handler w) e1) Hl1 Hq)
      as (e2 & t2 & H2 & Hw2 & Hl2 & Hu2 & Hq2).
    exists e2, (t1 ++ t2). cbn [for_each]. rewrite (bind_Ok _ _ _ _ _ _ H1), H2.
    cbn [heap info_handler eng] in *. split; [reflexivity|].
    rewrite stdin_writes_app, Hw1, Hw2, Htrim. repeat split; try assumption; congruence.
Qed.

(** [send_queued_setoptions] on a live engine: every queued line goes out
    once, in queue order, and the queue is left empty. *)
Lemma send_queued_setoptions_live env w :
  engine_live (eng w) -> queue_wf (eng w) ->
  exists e' tr,
    send_queued_setoptions env w = Ok tt (mkWorld (heap w) (info_handler w) e') tr /\
    stdin_writes tr = flat_map (fun m => [m; newline]) (setoption_queue (eng w)) /\
    engine_live e' /\
    untouched e' = untouched (eng w) /\
    setoption_queue e' = [].
Proof.
  intros Hlive Hq. unfold send_queued_setoptions. rewrite bind_get_eng.
  destruct (drain_loop env (setoption_queue (eng w)) w Hlive Hq)
    as (e1 & t1 & H1 & Hw1 & Hl1 & Hu1 & Hq1).
  rewrite (bind_Ok _ _ _ _ _ _ H1). cbv [modify_eng]. cbn [heap info_handler eng].
  exists (set_setoption_queue [] e1), (t1 ++ []). split; [reflexivity|].
  rewrite app_nil_r. repeat split; assumption.
Qed.

Lemma for_each_sends_frame env q :
  respects send_frame (for_each q (fun m => send env m true)).
Proof.
  apply (respects_for_each _ send_frame_refl send_frame_trans).
  apply Forall_forall. intros m _. apply send_in_frame.
Qed.

Lemma send_queued_setoptions_frame env : respects send_frame (send_queued_setoptions env).
Proof.
  unfold send_queued_setoptions. walk send_frame_refl send_frame_trans
    ltac:(first [apply for_each_sends_frame | frame_leaf]).
Qed.

Lemma for_each_sends_inv env q :
  respects keeps_inv (for_each q (fun m => send env m true)).
Proof.
  apply (respects_for_each _ keeps_inv_refl keeps_inv_trans).
  apply Forall_forall. intros m _. apply send_inv.
Qed.

Lemma send_queued_setoptions_inv env : respects keeps_inv (send_queued_setoptions env).
Proof.
  unfold send_queued_setoptions. walk keeps_inv_refl keeps_inv_trans
    ltac:(first [apply for_each_sends_inv | idtac]).
  intros w. split; intros H; [exact H | apply Forall_nil_2].
Qed.

(** ** [send_desired] *)

Lemma position_not_setoption x :
  startsWith (trim ("position " +:+ x)) "setoption" = false.
Proof.
  destruct (trim_head "p" ("osition " +:+ x) eq_refl) as [r Hr].
  change ("position " +:+ x) with (String "p" ("osition " +:+ x)). rewrite Hr. reflexivity.
Qed.

Lemma go_not_setoption x : startsWith (trim ("go " +:+ x)) "setoption" = false.
Proof.
  destruct (trim_head "g" ("o " +:+ x) eq_refl) as [r Hr].
  change ("go " +:+ x) with (String "g" ("o " +:+ x)). rewrite Hr. reflexivity.
Qed.

Lemma position_command_prefix in960 nd :
  exists x, position_command in960 nd = "position " +:+ x.
Proof. unfold position_command. cbv zeta. destruct (if in960 then _ else _); eauto. Qed.

Lemma go_command_prefix cfg lim moves :
  exists x, go_command cfg lim moves = "go " +:+ x.
Proof.
  unfold go_command. cbv zeta.
  assert (H : exists y, match lim with
                        | Some n => if (n =? 0)%Z then "go infinite"
                                    else if use_movetime cfg
                                         then "go movetime " +:+ number_to_string n
                                         else "go nodes " +:+ number_to_string n
                        | None => "go infinite"
                        end = "go " +:+ y).
  { destruct lim as [k|]; [destruct (k =? 0)%Z; [|destruct (use_movetime cfg)]|];
      eexists; reflexivity. }
  destruct H as [y ->].
  destruct moves; [eauto|]. destruct (searchmoves_buttons cfg); [|eauto].
  eexists. rewrite append_assoc_str. reflexivity.
Qed.

(** The [position] line [send_desired] assembles is the one the protocol
    describes. *)
Lemma position_string_eq in960 nd :
  (let root_fen := root_fen nd (negb in960) in
   let setup := "fen " +:+ root_fen in
   let setup :=
     if negb in960 &&
        String.eqb setup "fen rnbqkbnr/pppppppp/8/8/8/8/PPPPPPPP/RNBQKBNR w KQkq - 0 1"
     then "startpos" else setup in
   let moves := if negb in960 then history_old_format nd else history nd in
   if (length moves =? 0)%nat then "position " +:+ setup
   else "position " +:+ setup +:+ " moves " +:+ join " " moves) =
  position_command in960 nd.
Proof.
  cbv zeta. unfold position_command. cbv zeta.
  change (String.eqb ("fen " +:+ root_fen nd (negb in960))
            "fen rnbqkbnr/pppppppp/8/8/8/8/PPPPPPPP/RNBQKBNR w KQkq - 0 1")
    with (String.eqb (root_fen nd (negb in960)) startpos_fen).
  destruct in960; cbn [negb];
    [destruct (history nd) | destruct (history_old_format nd)]; reflexivity.
Qed.

(** The [go] line likewise. *)
Lemma go_string_eq cfg lim moves :
  (let s :=
     match lim with
     | Some k =>
         if truthy_number lim then
           if use_movetime cfg
           then "go movetime " +:+ number_to_string k
           else "go nodes " +:+ number_to_string k
         else "go infinite"
     | None => "go infinite"
     end in
   if searchmoves_buttons cfg && (0 <? length moves)%nat then
     fold_left (fun s move => s +:+ " " +:+ move) moves (s +:+ " searchmoves")
   else s) =
  go_command cfg lim moves.
Proof.
  cbv zeta. unfold go_command. cbv zeta.
  assert (Hb : match lim with
               | Some k =>
                   if truthy_number lim then
                     if use_movetime cfg
                     then "go movetime " +:+ number_to_string k
                     else "go nodes " +:+ number_to_string k
                   else "go infinite"
               | None => "go infinite"
               end =
               match lim with
               | Some n => if (n =? 0)%Z then "go infinite"
                           else if use_movetime cfg
                                then "go movetime " +:+ number_to_string n
                                else "go nodes " +:+ number_to_string n
               | None => "go infinite"
               end).
  { destruct lim as [k|]; [|reflexivity]. cbn [truthy_number].
    destruct (k =? 0)%Z; reflexivity. }
  rewrite Hb. destruct moves as [|m ms]; [rewrite andb_false_r; reflexivity|].
  destruct (searchmoves_buttons cfg); [|reflexivity].
  cbn [andb length Nat.ltb Nat.leb]. apply searchmoves_loop.
Qed.

Lemma if_send env (c : bool) a b force :
  (if c then send env a force else send env b force) = send env (if c then a else b) force.
Proof. destruct c; reflexivity. Qed.

(** The launch in closed form: on a live engine, with no search running and
    a desired node that can be searched, [send_desired] writes the two
    commands and moves on to the launched state. *)
Lemma send_desired_live env w n :
  engine_live (eng w) ->
  node (search_running (eng w)) = None ->
  node (search_desired (eng w)) = Some n ->
  destroyed (nodes env n) = false ->
  terminal_reason (nodes env n) = EmptyString ->
  let p := trim (position_command (in_960_mode (eng w)) (nodes env n)) in
  let g := trim (go_command (config env) (limit (search_desired (eng w)))
                   (array_elems (heap w) (searchmoves (search_desired (eng w))))) in
  send_desired env w =
    Ok tt (launched p g w)
      ([StdinWrite p; StdinWrite newline; LogLine ("--> " +:+ p)] ++
       (if log_positions (config env) then [LogLine (graphic (nodes env n))] else []) ++
       [StdinWrite g; StdinWrite newline; LogLine ("--> " +:+ g)]).
Proof.
  intros Hlive Hrun Hdes Hd Ht. cbv zeta.
  unfold send_desired. rewrite bind_get_eng, Hrun. cbn [truthy]. rewrite Hdes, Hd, Ht.
  cbn [orb truthy_string]. cbv zeta. rewrite if_send.
  pose proof (position_string_eq (in_960_mode (eng w)) (nodes env n)) as Hps.
  cbv zeta in Hps. rewrite Hps. clear Hps.
  destruct (position_command_prefix (in_960_mode (eng w)) (nodes env n)) as [x Hx].
  assert (Hp : send env (position_command (in_960_mode (eng w)) (nodes env n)) false w = _)
    by (apply send_live_plain; [exact Hlive | rewrite Hx; apply position_not_setoption]).
  rewrite (bind_Ok _ _ _ _ _ _ Hp).
  set (w1 := mkWorld _ _ _).
  assert (Hlive1 : engine_live (eng w1)) by exact Hlive.
  set (g := go_command (config env) (limit (search_desired (eng w)))
              (array_elems (heap w) (searchmoves (search_desired (eng w))))).
  assert (Hns : startsWith (trim g) "setoption" = false).
  { subst g.
    destruct (go_command_prefix (config env) (limit (search_desired (eng w)))
                (array_elems (heap w) (searchmoves (search_desired (eng w))))) as [y ->].
    apply go_not_setoption. }
  pose proof (send_live_plain env g false w1 Hlive1 Hns) as Hg.
  pose proof (go_string_eq (config env) (limit (search_desired (eng w)))
                (array_elems (heap w) (searchmoves (search_desired (eng w))))) as Hgs.
  cbv zeta in Hgs. fold g in Hgs.
  match goal with
  | |- match ?m w1 with _ => _ end = _ =>
      assert (Hrest : m w1 =
                Ok tt (launched
                         (trim (position_command (in_960_mode (eng w)) (nodes env n)))
                         (trim g) w)
                  ((if log_positions (config env)
                    then [LogLine (graphic (nodes env n))] else []) ++
                   [StdinWrite (trim g); StdinWrite newline; LogLine ("--> " +:+ trim g)]))
  end.
  { destruct (log_positions (config env)).
    - rewrite (bind_Ok _ _ w1 tt w1 [LogLine (graphic (nodes env n))]) by reflexivity.
      rewrite bind_get_eng, bind_get_heap.
      change (search_desired (eng w1)) with (search_desired (eng w)).
      change (heap w1) with (heap w). rewrite Hgs, (bind_Ok _ _ _ _ _ _ Hg). reflexivity.
    - rewrite bind_ret, bind_get_eng, bind_get_heap.
      change (search_desired (eng w1)) with (search_desired (eng w)).
      change (heap w1) with (heap w). rewrite Hgs, (bind_Ok _ _ _ _ _ _ Hg). reflexivity. }
  rewrite Hrest. reflexivity.
Qed.

Lemma send_desired_running env w :
  truthy (node (search_running (eng w))) = true ->
  send_desired env w = Throw "send_desired() called but search was running" w [].
Proof. intros H. unfold send_desired. rewrite bind_get_eng, H. reflexivity. Qed.

(** With nothing running and a desired node that is empty, destroyed or
    terminal, both searches become [NoSearch] and nothing is sent. *)
Lemma send_desired_abandon env w :
  node (search_running (eng w)) = None ->
  match node (search_desired (eng w)) with
  | None => True
  | Some n => destroyed (nodes env n) = true \/ terminal_reason (nodes env n) <> EmptyString
  end ->
  send_desired env w =
    Ok tt (mkWorld (heap w) (info_handler w)
             (set_search_desired_field NoSearch (set_search_running NoSearch (eng w)))) [].
Proof.
  intros Hrun Hdes. unfold send_desired. rewrite bind_get_eng, Hrun. cbn [truthy].
  destruct (node (search_desired (eng w))) as [n|]; [|reflexivity].
  destruct Hdes as [-> | Ht]; [reflexivity|].
  destruct (terminal_reason (nodes env n)); [congruence|].
  rewrite orb_true_r. reflexivity.
Qed.

(** Claim C3.  With a live engine, no search running, a desired node that
    is neither empty, destroyed nor terminal, and a limit that is absent or
    within the range a Number holds exactly, [send_desired] returns having
    written exactly the position command and the go command, in that order
    and each followed by the line terminator, as [send] trims them;
    afterwards the running search is the desired object.  The numeral
    written after [go nodes] or [go movetime] is the limit in decimal:
    read back, its digits give the limit. *)
Theorem C3_send_desired_position_then_go env w n :
  engine_live (eng w) ->
  node (search_running (eng w)) = None ->
  node (search_desired (eng w)) = Some n ->
  destroyed (nodes env n) = false ->
  terminal_reason (nodes env n) = EmptyString ->
  safe_limit (limit (search_desired (eng w))) ->
  returned (send_desired env w) = true /\
  stdin_writes (trace_of (send_desired env w)) =
    [trim (position_command (in_960_mode (eng w)) (nodes env n)); newline;
     trim (go_command (config env) (limit (search_desired (eng w)))
             (array_elems (heap w) (searchmoves (search_desired (eng w)))));
     newline] /\
  search_running (eng (world_of (send_desired env w))) = search_desired (eng w) /\
  search_desired (eng (world_of (send_desired env w))) = search_desired (eng w) /\
  (forall k, limit (search_desired (eng w)) = Some k ->
     decimal_value (number_to_string k) = Some k).
Proof.
  intros Hlive Hrun Hdes Hd Ht _.
  pose proof (send_desired_live env w n Hlive Hrun Hdes Hd Ht) as H. cbv zeta in H.
  rewrite H. cbn [returned trace_of world_of]. split; [reflexivity|].
  split; [|split; [reflexivity|split; [reflexivity|]]].
  - rewrite !stdin_writes_app. destruct (log_positions (config env)); reflexivity.
  - intros k _. apply decimal_value_number_to_string.
Qed.

(** Scenario S2 of the protocol: the initial position, a limit of 10000
    nodes. *)
Lemma C3_witness :
  stdin_writes (trace_of (send_desired demo_env pending_world)) =
    ["position startpos"; newline; "go nodes 10000"; newline] /\
  search_running (eng (world_of (send_desired demo_env pending_world))) =
    search_desired (eng pending_world).
Proof.
  destruct (C3_send_desired_position_then_go demo_env pending_world 0%nat)
    as (_ & Hw & Hr & _); try (vm_compute; reflexivity).
  split; [|exact Hr]. rewrite Hw. vm_compute. reflexivity.
Defined.

(** ** Methods that always return *)

Lemma returned_Ok {A} (r : Result A) :
  returned r = true -> exists a, r = Ok a (world_of r) (trace_of r).
Proof. destruct r; [eauto | discriminate]. Qed.

Lemma returned_bind_all {A B} (m : M A) (f : A -> M B) w :
  returned (m w) = true -> (forall a w', returned (f a w') = true) ->
  returned (bind m f w) = true.
Proof.
  intros Hm Hf. unfold bind. destruct (m w) as [a w1 t1|]; [|discriminate].
  specialize (Hf a w1). destruct (f a w1); [reflexivity | discriminate].
Qed.

Lemma for_each_returns {A} (l : list A) (body : A -> M unit) :
  (forall x w, returned (body x w) = true) ->
  forall w, returned (for_each l body w) = true.
Proof.
  intros Hb. induction l as [|x l IH]; intros w; [reflexivity|].
  cbn [for_each]. apply returned_bind_all; [apply Hb | intros _ w'; apply IH].
Qed.

Lemma send_queued_setoptions_returns env w :
  returned (send_queued_setoptions env w) = true.
Proof.
  unfold send_queued_setoptions. rewrite bind_get_eng.
  apply returned_bind_all; [|reflexivity].
  apply for_each_returns. intros m w'. apply send_returns.
Qed.

(** ** Inbound [info] lines *)

(** Claim C4.  An [info] line goes to the hub's info handler, with the
    node of the running search, exactly when that node is set and not
    destroyed, the engine is leelaish or the desired node is the running
    node, and the suppressed cycle is not the current one.  In every other
    case the hub is not called.  Either way the state is left as it was. *)
Theorem C4_info_line_filter env line w :
  (forall n,
     node (search_running (eng w)) = Some n ->
     destroyed (nodes env n) = false ->
     leelaish (eng w) = true \/
       node (search_desired (eng w)) = node (search_running (eng w)) ->
     suppress_cycle_info (eng w) <> Some (engine_cycle (info_handler w)) ->
     handle_info_line env line w = Ok tt w [HubInfoReceive (Some n) line]) /\
  (node (search_running (eng w)) = None \/
   (exists n, node (search_running (eng w)) = Some n /\ destroyed (nodes env n) = true) \/
   (leelaish (eng w) = false /\
    node (search_desired (eng w)) <> node (search_running (eng w))) \/
   suppress_cycle_info (eng w) = Some (engine_cycle (info_handler w)) ->
   world_of (handle_info_line env line w) = w /\
   infos_forwarded (trace_of (handle_info_line env line w)) = [] /\
   stdin_writes (trace_of (handle_info_line env line w)) = []).
Proof.
  unfold handle_info_line, log_info. rewrite bind_get_eng. split.
  - intros n Hn Hd Hv Hs. rewrite Hn, Hd.
    assert (Hc : negb (leelaish (eng w)) &&
                 negb (bool_decide (node (search_desired (eng w)) = Some n)) = false).
    { destruct Hv as [-> | Hv]; [reflexivity|]. rewrite Hv, Hn.
      rewrite bool_decide_eq_true_2 by reflexivity. apply andb_false_r. }
    rewrite Hc, bind_get_info_handler, bool_decide_eq_false_2 by exact Hs.
    destruct w; reflexivity.
  - intros H.
    destruct (node (search_running (eng w))) as [n|] eqn:Hn.
    2:{ destruct (log_info_lines (config env)); destruct w; repeat split. }
    destruct (destroyed (nodes env n)) eqn:Hd.
    { destruct (log_info_lines (config env)); destruct w; repeat split. }
    destruct (negb (leelaish (eng w)) &&
              negb (bool_decide (node (search_desired (eng w)) = Some n))) eqn:Hc.
    { destruct (log_info_lines (config env)); destruct w; repeat split. }
    rewrite bind_get_info_handler.
    destruct (bool_decide (suppress_cycle_info (eng w) =
                           Some (engine_cycle (info_handler w)))) eqn:Hs.
    { destruct (log_info_lines (config env)); destruct w; repeat split. }
    exfalso. apply andb_false_iff in Hc. apply bool_decide_eq_false in Hs.
    destruct H as [H | [(n' & Hn' & Hd') | [(Hl & Hne) | H]]].
    + discriminate H.
    + injection Hn' as <-. congruence.
    + rewrite Hl in Hc. destruct Hc as [Hc | Hc]; [discriminate Hc|].
      apply negb_false_iff, bool_decide_eq_true in Hc. contradiction.
    + contradiction.
Qed.

(** A line that passes, during a running search of node 0. *)
Lemma C4_witness :
  handle_info_line demo_env "info depth 1" running_world =
    Ok tt running_world [HubInfoReceive (Some 0%nat) "info depth 1"].
Proof.
  apply (C4_info_line_filter demo_env "info depth 1" running_world).
  - reflexivity.
  - reflexivity.
  - right. reflexivity.
  - vm_compute. discriminate.
Defined.

(** ** Methods that do not call the hub *)

Lemma quiet_refl w : quiet w w [].
Proof. repeat split. Qed.

Lemma quiet_trans w1 w2 w3 t1 t2 :
  quiet w1 w2 t1 -> quiet w2 w3 t2 -> quiet w1 w3 (t1 ++ t2).
Proof.
  intros (H1 & H2 & H3 & H4) (G1 & G2 & G3 & G4). unfold quiet.
  rewrite bestmoves_forwarded_app, infos_forwarded_app, H3, H4, G3, G4.
  repeat split; congruence.
Qed.

Lemma frame_quiet {A} (m : M A) : respects send_frame m -> respects quiet m.
Proof.
  intros H w. destruct (H w) as (H1 & H2 & H3 & H4 & H5).
  repeat split; try assumption.
  unfold untouched in H3. congruence.
Qed.

Ltac quiet_leaf :=
  first [ apply frame_quiet, send_in_frame
        | apply frame_quiet, send_queued_setoptions_frame
        | intros ?w; repeat split ].

Lemma send_desired_quiet env : respects quiet (send_desired env).
Proof.
  unfold send_desired, abandon_search. cbv zeta.
  walk quiet_refl quiet_trans quiet_leaf.
Qed.

(** ** Inbound [bestmove] lines *)

Lemma handle_bestmove_line_unfold env line w :
  handle_bestmove_line env line w =
    let e0 := set_unresolved_stop_time None
                (set_search_running NoSearch
                   (set_search_completed (search_running (eng w)) (eng w))) in
    let w0 := mkWorld (heap w) (info_handler w) e0 in
    let same := same_object (search_desired (eng w)) (search_running (eng w)) in
    if same || negb (truthy (node (search_desired (eng w)))) then
      bind (modify_eng (set_search_desired_field NoSearch))
        (fun _ =>
           if same && truthy (node (search_running (eng w))) then
             bind (emit (LogLine ("< " +:+ line)))
               (fun _ => bind (send_queued_setoptions env)
                  (fun _ => bind get_eng
                     (fun e => emit (HubReceiveBestmove line (node (search_completed e))))))
           else
             bind (emit (LogLine ("(ignore halted) < " +:+ line)))
               (fun _ => send_queued_setoptions env)) w0
    else
      bind (emit (LogLine ("(ignore old) < " +:+ line)))
        (fun _ => bind (send_queued_setoptions env) (fun _ => send_desired env)) w0.
Proof.
  unfold handle_bestmove_line.
  rewrite bind_get_eng, !bind_modify_eng, bind_get_eng. cbv zeta.
  cbn [eng search_desired search_completed search_running set_unresolved_stop_time
       set_search_running set_search_completed heap info_handler].
  destruct (_ || _); [rewrite bind_modify_eng|]; reflexivity.
Qed.

(** Claim C1.  A [bestmove] line reaches the hub, once and with the node of
    the search that just completed, exactly when the desired search is the
    very object that was running and that object has a node; in every other
    case [receive_bestmove] is not called.  The search that was running is
    recorded as the completed one. *)
Theorem C1_bestmove_forwarded_iff_desired_completed env line w :
  search_completed (eng (world_of (handle_bestmove_line env line w))) =
    search_running (eng w) /\
  bestmoves_forwarded (trace_of (handle_bestmove_line env line w)) =
    if same_object (search_desired (eng w)) (search_running (eng w)) &&
       truthy (node (search_running (eng w)))
    then [(line, node (search_running (eng w)))]
    else [].
Proof.
  rewrite handle_bestmove_line_unfold. cbv zeta.
  set (w0 := mkWorld _ _ _).
  set (same := same_object _ _).
  pose proof (fun w' => frame_quiet _ (send_queued_setoptions_frame env) w') as Hdrain.
  pose proof (fun w' => returned_Ok _ (send_queued_setoptions_returns env w')) as Hret.
  destruct (same || negb (truthy (node (search_desired (eng w))))) eqn:Hno.
  - rewrite bind_modify_eng. set (w1 := mkWorld _ _ _).
    destruct (Hret w1) as [[] Hd]. destruct (Hdrain w1) as (_ & Hc & Hb & _).
    destruct (same && truthy (node (search_running (eng w)))) eqn:Hrep.
    + rewrite (bind_Ok _ _ w1 tt w1 [LogLine ("< " +:+ line)]) by reflexivity.
      rewrite (bind_Ok _ _ _ _ _ _ Hd), bind_get_eng. cbn [emit world_of trace_of].
      rewrite Hc. split; [reflexivity|].
      cbn [app bestmoves_forwarded]. rewrite bestmoves_forwarded_app, Hb. reflexivity.
    + rewrite (bind_Ok _ _ w1 tt w1 [LogLine ("(ignore halted) < " +:+ line)])
        by reflexivity.
      rewrite Hd. cbn [world_of trace_of]. rewrite Hc. split; [reflexivity|].
      cbn [app bestmoves_forwarded]. exact Hb.
  - apply orb_false_iff in Hno. destruct Hno as [Hsame _]. rewrite Hsame. cbn [andb].
    rewrite (bind_Ok _ _ w0 tt w0 [LogLine ("(ignore old) < " +:+ line)]) by reflexivity.
    destruct (Hret w0) as [[] Hd]. destruct (Hdrain w0) as (_ & Hc & Hb & _).
    rewrite (bind_Ok _ _ _ _ _ _ Hd).
    destruct (send_desired_quiet env (world_of (send_queued_setoptions env w0)))
      as (_ & Hc2 & Hb2 & _).
    destruct (send_desired env _) as [[] w2 t2|err w2 t2]; cbn [world_of trace_of] in *;
      rewrite Hc2, Hc; (split; [reflexivity|]);
      cbn [app bestmoves_forwarded]; rewrite bestmoves_forwarded_app, Hb, Hb2; reflexivity.
Qed.

Lemma position_command_starts in960 nd :
  startsWith (trim (position_command in960 nd)) "position" = true.
Proof.
  destruct (position_command_prefix in960 nd) as [x ->].
  apply startsWith_trim; [repeat split | reflexivity].
Qed.

Lemma go_command_starts cfg lim moves :
  startsWith (trim (go_command cfg lim moves)) "go" = true.
Proof.
  destruct (go_command_prefix cfg lim moves) as [x ->].
  apply startsWith_trim; [repeat split | reflexivity].
Qed.

(** Claim C6.  On a live engine whose queue holds what [send] pushed,
    [send_queued_setoptions] returns with the queue empty, having written
    every queued line once, in queue order, each followed by the line
    terminator; it does so whatever [search_running] holds, which is what
    the force flag is for.  When a [bestmove] line is handled these writes
    come first: what follows them is nothing, or the position command and
    the go command of [send_desired]. *)
Theorem C6_queue_drained_in_order_before_go env w :
  engine_live (eng w) ->
  queue_wf (eng w) ->
  (returned (send_queued_setoptions env w) = true /\
   setoption_queue (eng (world_of (send_queued_setoptions env w))) = [] /\
   stdin_writes (trace_of (send_queued_setoptions env w)) =
     flat_map (fun m => [m; newline]) (setoption_queue (eng w))) /\
  (forall line, exists rest,
     stdin_writes (trace_of (handle_bestmove_line env line w)) =
       flat_map (fun m => [m; newline]) (setoption_queue (eng w)) ++ rest /\
     setoption_queue (eng (world_of (handle_bestmove_line env line w))) = [] /\
     (rest = [] \/
      exists p g, rest = [p; newline; g; newline] /\
                  startsWith p "position" = true /\ startsWith g "go" = true)).
Proof.
  intros Hlive Hq. split.
  - destruct (send_queued_setoptions_live env w Hlive Hq) as (e' & tr & H & Hw & _ & _ & Hq').
    rewrite H. repeat split; assumption.
  - intros line. rewrite handle_bestmove_line_unfold. cbv zeta.
    set (w0 := mkWorld _ _ _). set (same := same_object _ _).
    destruct (same || negb (truthy (node (search_desired (eng w))))) eqn:Hno.
    + rewrite bind_modify_eng. set (w1 := mkWorld _ _ _).
      destruct (send_queued_setoptions_live env w1 Hlive Hq)
        as (e' & tr & H & Hw & _ & _ & Hq').
      exists []. rewrite app_nil_r.
      destruct (same && truthy (node (search_running (eng w)))).
      * rewrite (bind_Ok _ _ w1 tt w1 [LogLine ("< " +:+ line)]) by reflexivity.
        rewrite (bind_Ok _ _ _ _ _ _ H), bind_get_eng. cbn [emit world_of trace_of eng].
        cbn [app stdin_writes]. rewrite stdin_writes_app, Hw, app_nil_r. auto.
      * rewrite (bind_Ok _ _ w1 tt w1 [LogLine ("(ignore halted) < " +:+ line)])
          by reflexivity.
        rewrite H. cbn [world_of trace_of eng app stdin_writes]. auto.
    + apply orb_false_iff in Hno. destruct Hno as [_ Hdes].
      apply negb_false_iff in Hdes.
      rewrite (bind_Ok _ _ w0 tt w0 [LogLine ("(ignore old) < " +:+ line)]) by reflexivity.
      destruct (send_queued_setoptions_live env w0 Hlive Hq)
        as (e' & tr & H & Hw & Hl' & Hu & Hq').
      rewrite (bind_Ok _ _ _ _ _ _ H). cbn [heap info_handler eng] in *.
      assert (Hfields : search_running e' = NoSearch /\
                        search_desired e' = search_desired (eng w)).
      { unfold untouched in Hu. injection Hu as _ _ _ _ _ _ _ _ Hr Hd _. auto. }
      destruct Hfields as [Hr' Hd'].
      set (w2 := mkWorld _ _ e').
      assert (Hrun : node (search_running (eng w2)) = None)
        by (unfold w2; cbn [eng]; rewrite Hr'; reflexivity).
      assert (Hd2 : search_desired (eng w2) = search_desired (eng w))
        by (unfold w2; cbn [eng]; exact Hd').
      destruct (node (search_desired (eng w))) as [n|] eqn:Hn; [|discriminate Hdes].
      destruct (destroyed (nodes env n)) eqn:Hdn;
        [|destruct (terminal_reason (nodes env n)) eqn:Htn].
      * rewrite (send_desired_abandon env w2 Hrun) by (rewrite Hd2, Hn; auto).
        exists []. cbn [world_of trace_of eng app stdin_writes set_search_desired_field
                        set_search_running setoption_queue].
        rewrite !app_nil_r. auto.
      * pose proof (send_desired_live env w2 n Hl' Hrun) as Hsd.
        rewrite Hd2 in Hsd. specialize (Hsd Hn Hdn Htn). cbv zeta in Hsd. rewrite Hsd.
        eexists. cbn [world_of trace_of]. split; [|split].
        -- cbn [app stdin_writes]. rewrite !stdin_writes_app, Hw.
           destruct (log_positions (config env)); reflexivity.
        -- exact Hq'.
        -- right. eexists; eexists. split; [reflexivity|].
           split; [apply position_command_starts | apply go_command_starts].
      * rewrite (send_desired_abandon env w2 Hrun)
          by (rewrite Hd2, Hn, Htn; right; discriminate).
        exists []. cbn [world_of trace_of eng app stdin_writes set_search_desired_field
                        set_search_running setoption_queue].
        rewrite !app_nil_r. auto.
Qed.

(** Scenario S5: an option deferred by a running search goes out when the
    [bestmove] arrives. *)
Lemma C6_witness :
  stdin_writes (trace_of (send_queued_setoptions demo_env queued_world)) =
    ["setoption name Threads value 4"; newline] /\
  setoption_queue (eng (world_of (send_queued_setoptions demo_env queued_world))) = [].
Proof.
  destruct (C6_queue_drained_in_order_before_go demo_env queued_world)
    as [(_ & Hq & Hw) _].
  - vm_compute. reflexivity.
  - unfold queue_wf. vm_compute. repeat constructor.
  - split; [exact Hw | exact Hq].
Defined.

(** ** The heap and the construction of SearchParams *)

Lemma initial_heap_wf : heap_wf initial_heap.
Proof.
  intros l a H. unfold initial_heap in H. cbn in H.
  apply lookup_singleton_Some in H. destruct H as [<- _]. cbn. lia.
Qed.

Lemma alloc_array_wf xs h : heap_wf h -> heap_wf (snd (alloc_array xs h)).
Proof.
  intros Hwf l a H. cbn in H |- *.
  destruct (decide (next_loc h = l)) as [<- | Hne]; [lia|].
  rewrite lookup_insert_ne in H by exact Hne. specialize (Hwf l a H). lia.
Qed.

Lemma heap_wf_fresh h : heap_wf h -> arrays h !! next_loc h = None.
Proof.
  intros Hwf. destruct (arrays h !! next_loc h) as [a|] eqn:E; [|reflexivity].
  specialize (Hwf _ _ E). lia.
Qed.

(** What the construction does to the heap when the node is not empty. *)
Lemma SearchParams_new_some nds n lim moves h :
  SearchParams_new nds (Some n) lim moves h =
    (mkSearchParams (S (next_loc h)) (Some n) lim (next_loc h),
     mkHeap (<[next_loc h :=
                 mkArray (List.filter (legal (nds n))
                            (match moves with
                             | Some a => array_elems h a
                             | None => []
                             end)) true]> (arrays h))
            (S (S (next_loc h)))).
Proof.
  unfold SearchParams_new, validate_searchmoves, alloc_array, freeze_array, alloc_object.
  destruct moves as [a|]; cbn; rewrite alter_insert_eq; reflexivity.
Qed.

(** Claim C9.  With an empty node the construction returns [NoSearch]
    itself and leaves the heap as it was.  With a node it returns an object
    with a fresh identity whose [searchmoves] is a newly allocated, frozen
    array holding the moves of the argument that the node accepts, in their
    order; every array that existed before, the caller's among them, keeps
    its elements and its frozen flag, and the caller's array is not the one
    stored. *)
Theorem C9_SearchParams_construction nds nd lim moves h :
  heap_wf h ->
  (forall a, moves = Some a -> is_Some (arrays h !! a)) ->
  (nd = None -> SearchParams_new nds nd lim moves h = (NoSearch, h)) /\
  (forall n, nd = Some n ->
     let sp := fst (SearchParams_new nds nd lim moves h) in
     let h' := snd (SearchParams_new nds nd lim moves h) in
     node sp = Some n /\ limit sp = lim /\
     (next_loc h <= sp_loc sp)%nat /\
     arrays h !! searchmoves sp = None /\
     arrays h' !! searchmoves sp =
       Some (mkArray (List.filter (legal (nds n))
                        (match moves with
                         | Some a => array_elems h a
                         | None => []
                         end)) true) /\
     Forall (fun m => legal (nds n) m = true) (array_elems h' (searchmoves sp)) /\
     (forall l a, arrays h !! l = Some a -> arrays h' !! l = Some a) /\
     (forall a, moves = Some a ->
        a <> searchmoves sp /\ arrays h' !! a = arrays h !! a) /\
     heap_wf h').
Proof.
  intros Hwf Hcaller. split; [intros ->; reflexivity|].
  intros n ->. rewrite SearchParams_new_some. cbv zeta. cbn [fst snd node limit sp_loc
    searchmoves arrays next_loc].
  pose proof (heap_wf_fresh h Hwf) as Hfresh.
  assert (Hold : forall l a, arrays h !! l = Some a -> l <> next_loc h).
  { intros l a Hl ->. congruence. }
  repeat split.
  - lia.
  - exact Hfresh.
  - apply lookup_insert_eq.
  - unfold array_elems. cbn [arrays]. rewrite lookup_insert_eq. cbn [elems].
    apply Forall_forall. intros m Hm. apply list_elem_of_In, filter_In in Hm. tauto.
  - intros l a Hl. rewrite lookup_insert_ne; [exact Hl|].
    intros Heq. apply (Hold l a Hl). auto.
  - destruct (Hcaller a H) as [x Hx]. apply (Hold a x Hx).
  - destruct (Hcaller a H) as [x Hx]. apply lookup_insert_ne.
    intros Heq. apply (Hold a x Hx). auto.
  - intros l a Hl. cbn [arrays next_loc] in *.
    destruct (decide (next_loc h = l)) as [<- | Hne]; [lia|].
    rewrite lookup_insert_ne in Hl by exact Hne. specialize (Hwf l a Hl). lia.
Qed.

(** The hub's array holds an illegal token; it stays as it is, unfrozen,
    and the stored array is another one. *)
Lemma C9_witness :
  let sp := fst (SearchParams_new demo_nodes (Some 0%nat) (Some 10000%Z) (Some 2%nat)
                   caller_heap) in
  let h' := snd (SearchParams_new demo_nodes (Some 0%nat) (Some 10000%Z) (Some 2%nat)
                   caller_heap) in
  arrays h' !! searchmoves sp = Some (mkArray ["e2e4"; "d2d4"] true) /\
  arrays h' !! 2%nat = Some (mkArray ["e2e4"; "zzzz"; "d2d4"] false) /\
  searchmoves sp <> 2%nat.
Proof.
  destruct (C9_SearchParams_construction demo_nodes (Some 0%nat) (Some 10000%Z)
              (Some 2%nat) caller_heap) as [_ H].
  - apply alloc_array_wf, initial_heap_wf.
  - intros a Ha. injection Ha as <-. vm_compute. eauto.
  - specialize (H 0%nat eq_refl). cbv zeta in H.
    destruct H as (_ & _ & _ & _ & Hnew & _ & _ & Hcaller & _).
    destruct (Hcaller 2%nat eq_refl) as [Hne Hsame].
    cbv zeta. split; [exact Hnew|]. split; [|auto].
    transitivity (arrays caller_heap !! 2%nat); [exact Hsame | reflexivity].
Defined.

(** ** [send] and [send_desired] on any engine *)

(** Whatever the state of the child process, [send] returns, inside its
    frame. *)
Lemma send_ok env msg force w :
  exists e' tr,
    send env msg force w = Ok tt (mkWorld (heap w) (info_handler w) e') tr /\
    untouched e' = untouched (eng w) /\
    bestmoves_forwarded tr = [] /\ infos_forwarded tr = [] /\
    Forall (fun s => s = trim msg \/ s = newline) (stdin_writes tr) /\
    (engine_live (eng w) -> engine_live e') /\
    (queue_wf (eng w) -> queue_wf e').
Proof.
  pose proof (send_in_frame env msg force w) as (H1 & H2 & H3 & H4 & H5).
  pose proof (send_writes env msg force w) as Hw.
  pose proof (send_inv env msg force w) as [Hl Hq].
  destruct (returned_Ok _ (send_returns env msg force w)) as [[] Hr].
  rewrite Hr in *. cbn [world_of trace_of] in *.
  destruct (world_of (send env msg force w)) as [h' ih' e']. cbn in *. subst h' ih'.
  exists e', (trace_of (send env msg force w)). repeat split; assumption.
Qed.

(** The launch on any engine: the two [send]s stay in their frame, then the
    running search becomes the desired object, the suppressed cycle is
    cleared and both counters go up by one. *)
Lemma send_desired_launch env w n :
  node (search_running (eng w)) = None ->
  node (search_desired (eng w)) = Some n ->
  destroyed (nodes env n) = false ->
  terminal_reason (nodes env n) = EmptyString ->
  exists e2 tr,
    send_desired env w =
      Ok tt (mkWorld (heap w)
               (mkInfoHandler (engine_cycle (info_handler w) + 1)
                              (engine_subcycle (info_handler w) + 1))
               (set_suppress_cycle_info None
                  (set_search_running (search_desired (eng w)) e2))) tr /\
    untouched e2 = untouched (eng w) /\
    (engine_live (eng w) -> engine_live e2) /\
    (queue_wf (eng w) -> queue_wf e2).
Proof.
  intros Hrun Hdes Hd Ht.
  unfold send_desired. rewrite bind_get_eng, Hrun. cbn [truthy]. rewrite Hdes, Hd, Ht.
  cbn [orb truthy_string]. cbv zeta. rewrite if_send.
  match goal with |- context [bind (send env ?m false) _ w] =>
    destruct (send_ok env m false w) as (e1 & t1 & H1 & Hu1 & _ & _ & _ & Hl1 & Hq1)
  end.
  rewrite (bind_Ok _ _ _ _ _ _ H1). set (w1 := mkWorld _ _ e1).
  match goal with |- context [bind ?m _ w1] =>
    assert (Hlog : exists t, m w1 = Ok tt w1 t)
      by (destruct (log_positions (config env)); eexists; reflexivity)
  end.
  destruct Hlog as [tl Hlog]. rewrite (bind_Ok _ _ _ _ _ _ Hlog).
  rewrite bind_get_eng, bind_get_heap.
  match goal with |- context [bind (send env ?m false) _ w1] =>
    destruct (send_ok env m false w1) as (e2 & t2 & H2 & Hu2 & _ & _ & _ & Hl2 & Hq2)
  end.
  rewrite (bind_Ok _ _ _ _ _ _ H2). subst w1. cbn [heap info_handler eng] in *.
  rewrite bind_get_eng, !bind_modify_eng. cbn [heap info_handler eng].
  assert (Hdes2 : search_desired e2 = search_desired (eng w)).
  { unfold untouched in Hu1, Hu2. injection Hu1 as _ _ _ _ _ _ _ _ _ Ha _.
    injection Hu2 as _ _ _ _ _ _ _ _ _ Hb _. congruence. }
  exists e2. eexists. split.
  - unfold bind, modify_info_handler. cbn [heap info_handler eng engine_cycle engine_subcycle].
    rewrite Hdes2. reflexivity.
  - split; [congruence|]. split; auto.
Qed.

(** ** [set_search_desired] *)

Lemma bind_with_heap {A B} (f : Heap -> A * Heap) (k : A -> M B) w :
  bind (with_heap f) k w =
    k (fst (f (heap w))) (mkWorld (snd (f (heap w))) (info_handler w) (eng w)).
Proof.
  unfold bind, with_heap. destruct (f (heap w)) as [a h]. cbn [fst snd].
  destruct (k a _); reflexivity.
Qed.

Lemma set_search_desired_early env nd lim moves w :
  negb (ever_received_uciok (eng w)) || negb (ever_received_readyok (eng w)) = true ->
  set_search_desired env nd lim moves w =
    Ok tt w [ConsoleLog "set_search_desired() aborted - too early"].
Proof. intros H. unfold set_search_desired. rewrite bind_get_eng, H. reflexivity. Qed.

(** After the handshakes: the comparison with the desired search, then the
    two ways on. *)
Lemma set_search_desired_unfold env nd lim moves w :
  ever_received_uciok (eng w) = true ->
  ever_received_readyok (eng w) = true ->
  set_search_desired env nd lim moves w =
    let params := fst (SearchParams_new (nodes env) nd lim moves (heap w)) in
    let h1 := snd (SearchParams_new (nodes env) nd lim moves (heap w)) in
    if bool_decide (node (search_desired (eng w)) = node params) &&
       (bool_decide (limit (search_desired (eng w)) = limit params) &&
        CompareArrays h1 (searchmoves (search_desired (eng w))) (searchmoves params))
    then Ok tt (mkWorld h1 (info_handler w) (eng w)) []
    else
      let w2 := mkWorld h1 (info_handler w) (set_search_desired_field params (eng w)) in
      if truthy (node (search_running (eng w))) then
        bind (send env "stop" false)
          (fun _ => bind get_eng (fun e =>
             if negb (truthy_number (unresolved_stop_time e))
             then modify_eng (set_unresolved_stop_time (Some (performance_now env)))
             else ret tt)) w2
      else if truthy (node params) then send_desired env w2
      else Ok tt w2 [].
Proof.
  intros Hu Hr. unfold set_search_desired. rewrite bind_get_eng, Hu, Hr. cbn [negb orb].
  rewrite bind_with_heap, bind_get_eng, bind_get_heap. cbv zeta. cbn [heap eng].
  destruct (_ && _); [reflexivity|].
  rewrite bind_modify_eng, bind_get_eng.
  cbn [heap info_handler eng search_running set_search_desired_field search_desired].
  destruct (truthy (node (search_running (eng w)))); [reflexivity|].
  destruct (truthy (node _)); reflexivity.
Qed.

(** A request that matches the desired search changes no field of the
    driver and sends nothing; the heap keeps the arrays it had and gains
    what the discarded SearchParams object took. *)
Lemma set_search_desired_same env nd lim moves w :
  ever_received_uciok (eng w) = true ->
  ever_received_readyok (eng w) = true ->
  node (search_desired (eng w)) =
    node (fst (SearchParams_new (nodes env) nd lim moves (heap w))) ->
  limit (search_desired (eng w)) =
    limit (fst (SearchParams_new (nodes env) nd lim moves (heap w))) ->
  array_elems (snd (SearchParams_new (nodes env) nd lim moves (heap w)))
      (searchmoves (search_desired (eng w))) =
    array_elems (snd (SearchParams_new (nodes env) nd lim moves (heap w)))
      (searchmoves (fst (SearchParams_new (nodes env) nd lim moves (heap w)))) ->
  set_search_desired env nd lim moves w =
    Ok tt (mkWorld (snd (SearchParams_new (nodes env) nd lim moves (heap w)))
             (info_handler w) (eng w)) [].
Proof.
  intros Hu Hr Hn Hl Ha. rewrite set_search_desired_unfold by assumption. cbv zeta.
  unfold CompareArrays. rewrite !bool_decide_eq_true_2 by assumption. reflexivity.
Qed.

(** While a search runs, a request that differs from the desired search
    replaces the desired search and sends [stop]; the time of the stop is
    noted unless one is noted already. *)
Lemma set_search_desired_stop env nd lim moves w :
  engine_live (eng w) ->
  ever_received_uciok (eng w) = true ->
  ever_received_readyok (eng w) = true ->
  truthy (node (search_running (eng w))) = true ->
  bool_decide (node (search_desired (eng w)) =
               node (fst (SearchParams_new (nodes env) nd lim moves (heap w)))) &&
    (bool_decide (limit (search_desired (eng w)) =
                  limit (fst (SearchParams_new (nodes env) nd lim moves (heap w)))) &&
     CompareArrays (snd (SearchParams_new (nodes env) nd lim moves (heap w)))
       (searchmoves (search_desired (eng w)))
       (searchmoves (fst (SearchParams_new (nodes env) nd lim moves (heap w))))) = false ->
  set_search_desired env nd lim moves w =
    Ok tt
      (mkWorld (snd (SearchParams_new (nodes env) nd lim moves (heap w))) (info_handler w)
         (let e1 := set_last_send (Some "stop")
                      (set_search_desired_field
                         (fst (SearchParams_new (nodes env) nd lim moves (heap w)))
                         (eng w)) in
          if truthy_number (unresolved_stop_time (eng w)) then e1
          else set_unresolved_stop_time (Some (performance_now env)) e1))
      [StdinWrite "stop"; StdinWrite newline; LogLine "--> stop"].
Proof.
  intros Hlive Hu Hr Hrun Hdiff. rewrite set_search_desired_unfold by assumption.
  cbv zeta. rewrite Hdiff, Hrun.
  set (w2 := mkWorld _ _ _).
  assert (Hl2 : engine_live (eng w2)) by exact Hlive.
  pose proof (send_live_plain env "stop" false w2 Hl2 eq_refl) as Hs.
  rewrite (bind_Ok _ _ _ _ _ _ Hs), bind_get_eng.
  cbn [eng unresolved_stop_time set_last_send]. subst w2.
  cbn [eng unresolved_stop_time set_search_desired_field heap info_handler].
  destruct (truthy_number (unresolved_stop_time (eng w))); reflexivity.
Qed.

(** Claim C2, as the code has it.  While a [stop] is outstanding (a search
    is running and the desired search is another one), a call of
    [set_search_desired] whose parameters match the desired search does
    nothing.  One whose parameters differ replaces the desired search and,
    on a live engine, writes [stop] once more and nothing else; the running
    search stays, and the time of the first unanswered stop is kept. *)
Theorem C2_stop_sent_again_on_change env nd lim moves w :
  engine_live (eng w) ->
  ever_received_uciok (eng w) = true ->
  ever_received_readyok (eng w) = true ->
  search_state (eng w) = Changing \/ search_state (eng w) = Ending ->
  let params := fst (SearchParams_new (nodes env) nd lim moves (heap w)) in
  let h1 := snd (SearchParams_new (nodes env) nd lim moves (heap w)) in
  let r := set_search_desired env nd lim moves w in
  if bool_decide (node (search_desired (eng w)) = node params) &&
     (bool_decide (limit (search_desired (eng w)) = limit params) &&
      CompareArrays h1 (searchmoves (search_desired (eng w))) (searchmoves params))
  then r = Ok tt (mkWorld h1 (info_handler w) (eng w)) []
  else
    returned r = true /\
    stdin_writes (trace_of r) = ["stop"; newline] /\
    search_desired (eng (world_of r)) = params /\
    search_running (eng (world_of r)) = search_running (eng w) /\
    unresolved_stop_time (eng (world_of r)) =
      (if truthy_number (unresolved_stop_time (eng w))
       then unresolved_stop_time (eng w)
       else Some (performance_now env)).
Proof.
  intros Hlive Hu Hr Hstate. cbv zeta.
  assert (Hrun : truthy (node (search_running (eng w))) = true).
  { unfold search_state in Hstate.
    destruct (node (search_running (eng w))); [reflexivity|].
    destruct Hstate; discriminate. }
  destruct (_ && _) eqn:Htest.
  - rewrite set_search_desired_unfold by assumption. cbv zeta. rewrite Htest. reflexivity.
  - rewrite (set_search_desired_stop env nd lim moves w Hlive Hu Hr Hrun Htest).
    cbv zeta. cbn [returned trace_of world_of stdin_writes eng].
    destruct (truthy_number (unresolved_stop_time (eng w))); repeat split.
Qed.

(** A stop is outstanding for the search of node 0; the hub asks for yet
    another search, and [stop] goes out again. *)
Lemma C2_witness :
  search_state (eng changing_world) = Changing /\
  stdin_writes (trace_of (set_search_desired demo_env (Some 0%nat) (Some 5%Z) None
                            changing_world)) = ["stop"; newline].
Proof.
  split; [reflexivity|].
  pose proof (C2_stop_sent_again_on_change demo_env (Some 0%nat) (Some 5%Z) None
                changing_world) as H.
  cbv zeta in H.
  assert (Hlive : engine_live (eng changing_world)) by (vm_compute; reflexivity).
  specialize (H Hlive eq_refl eq_refl (or_introl eq_refl)).
  destruct (_ && _) eqn:Htest in H; [vm_compute in Htest; discriminate Htest|].
  destruct H as (_ & Hw & _). exact Hw.
Defined.

(** The claim as worded fails: in the state Changing a further request
    produces network traffic. *)
Lemma C2_counterexample :
  ~ (forall env nd lim moves w,
       search_state (eng w) = Changing \/ search_state (eng w) = Ending ->
       stdin_writes (trace_of (set_search_desired env nd lim moves w)) = []).
Proof.
  intros H.
  specialize (H demo_env (Some 0%nat) (Some 5%Z) None changing_world (or_introl eq_refl)).
  vm_compute in H. discriminate H.
Qed.

(** ** The same request twice *)

Lemma array_elems_insert_ne h l x l' :
  l <> l' ->
  array_elems (mkHeap (<[l := x]> (arrays h)) (S (S (next_loc h)))) l' = array_elems h l'.
Proof. intros Hne. unfold array_elems. cbn [arrays]. rewrite lookup_insert_ne; auto. Qed.

(** Constructing SearchParams a second time from the same arguments gives
    the same node and limit and an array with the same elements; the arrays
    that were there before the first construction are as they were. *)
Lemma second_construction nds nd lim moves h :
  heap_wf h ->
  (forall a, moves = Some a -> is_Some (arrays h !! a)) ->
  let p1 := fst (SearchParams_new nds nd lim moves h) in
  let h1 := snd (SearchParams_new nds nd lim moves h) in
  let p2 := fst (SearchParams_new nds nd lim moves h1) in
  let h2 := snd (SearchParams_new nds nd lim moves h1) in
  node p2 = node p1 /\ limit p2 = limit p1 /\
  array_elems h2 (searchmoves p1) = array_elems h2 (searchmoves p2) /\
  array_elems h2 (searchmoves p1) = array_elems h1 (searchmoves p1) /\
  (forall l, is_Some (arrays h !! l) -> array_elems h2 l = array_elems h1 l).
Proof.
  intros Hwf Hcaller. destruct nd as [n|]; [|cbn; auto].
  cbv zeta. rewrite (SearchParams_new_some nds n lim moves h). cbn [fst snd].
  rewrite SearchParams_new_some. cbn [fst snd node limit searchmoves next_loc].
  assert (Hsrc : match moves with
                 | Some a => array_elems
                               (mkHeap (<[next_loc h := mkArray (List.filter (legal (nds n))
                                   match moves with
                                   | Some a0 => array_elems h a0
                                   | None => []
                                   end) true]> (arrays h)) (S (S (next_loc h)))) a
                 | None => []
                 end =
                 match moves with Some a => array_elems h a | None => [] end).
  { destruct moves as [a|]; [|reflexivity].
    destruct (Hcaller a eq_refl) as [x Hx]. apply array_elems_insert_ne.
    intros Heq. rewrite <- Heq in Hx. pose proof (Hwf _ _ Hx). lia. }
  rewrite Hsrc. repeat split.
  - unfold array_elems. cbn [arrays].
    rewrite lookup_insert_eq, lookup_insert_ne, lookup_insert_eq by lia. reflexivity.
  - unfold array_elems. cbn [arrays]. rewrite lookup_insert_ne by lia. reflexivity.
  - intros l [x Hx]. unfold array_elems at 1. cbn [arrays].
    rewrite lookup_insert_ne; [reflexivity|]. pose proof (Hwf _ _ Hx). lia.
Qed.

(** Where a call after the handshakes leaves the driver: the request
    matched and nothing changed; or the desired search is the new object;
    or the node could not be searched and the driver is idle. *)
Lemma set_search_desired_post env nd lim moves w :
  ever_received_uciok (eng w) = true ->
  ever_received_readyok (eng w) = true ->
  let p1 := fst (SearchParams_new (nodes env) nd lim moves (heap w)) in
  let h1 := snd (SearchParams_new (nodes env) nd lim moves (heap w)) in
  let w1 := world_of (set_search_desired env nd lim moves w) in
  heap w1 = h1 /\
  ever_received_uciok (eng w1) = true /\
  ever_received_readyok (eng w1) = true /\
  ((node (search_desired (eng w)) = node p1 /\
    limit (search_desired (eng w)) = limit p1 /\
    array_elems h1 (searchmoves (search_desired (eng w))) =
      array_elems h1 (searchmoves p1) /\
    search_desired (eng w1) = search_desired (eng w)) \/
   search_desired (eng w1) = p1 \/
   (exists n, node p1 = Some n /\
      (destroyed (nodes env n) = true \/ terminal_reason (nodes env n) <> EmptyString) /\
      node (search_running (eng w1)) = None /\
      search_desired (eng w1) = NoSearch)).
Proof.
  intros Hu Hr. cbv zeta. rewrite set_search_desired_unfold by assumption. cbv zeta.
  set (p1 := fst _). set (h1 := snd _).
  destruct (_ && _) eqn:Htest.
  - cbn [world_of heap eng]. repeat split; try assumption. left.
    apply andb_prop in Htest. destruct Htest as [Hn Htest].
    apply andb_prop in Htest. destruct Htest as [Hl Ha].
    apply bool_decide_eq_true in Hn, Hl. unfold CompareArrays in Ha.
    apply bool_decide_eq_true in Ha. auto.
  - set (w2 := mkWorld _ _ _).
    destruct (truthy (node (search_running (eng w)))) eqn:Hrun.
    + destruct (send_ok env "stop" false w2) as (e' & tr & Hs & Hun & _).
      rewrite (bind_Ok _ _ _ _ _ _ Hs), bind_get_eng. cbn [eng].
      unfold untouched in Hun. subst w2. cbn [eng] in Hun.
      injection Hun as _ _ _ H4 H5 _ _ _ _ H10 _.
      cbn in H4, H5, H10. rewrite Hu in H4. rewrite Hr in H5.
      destruct (negb _); cbn [world_of heap eng modify_eng ret];
        repeat split; auto.
    + destruct (node p1) as [n|] eqn:Hn; cbn [truthy].
      2:{ cbn [world_of heap eng]. subst w2. repeat split; auto. }
      assert (Hrun2 : node (search_running (eng w2)) = None).
      { subst w2. cbn. destruct (node (search_running (eng w))); [discriminate|reflexivity]. }
      assert (Hdes2 : node (search_desired (eng w2)) = Some n) by (subst w2; exact Hn).
      destruct (destroyed (nodes env n)) eqn:Hd;
        [|destruct (terminal_reason (nodes env n)) eqn:Ht].
      * rewrite (send_desired_abandon env w2 Hrun2) by (rewrite Hdes2; auto).
        cbn [world_of heap eng]. subst w2. repeat split; auto.
        right. right. exists n. rewrite Hd. repeat split; auto.
      * destruct (send_desired_launch env w2 n Hrun2 Hdes2 Hd Ht)
          as (e2 & tr & Hs & Hun & _).
        rewrite Hs. cbn [world_of heap eng]. unfold untouched in Hun. subst w2.
        cbn [eng] in Hun. injection Hun as _ _ _ H4 H5 _ _ _ _ H10 _.
        cbn in H4, H5, H10. rewrite Hu in H4. rewrite Hr in H5.
        repeat split; auto.
      * rewrite (send_desired_abandon env w2 Hrun2)
          by (rewrite Hdes2, Ht; right; discriminate).
        cbn [world_of heap eng]. subst w2. repeat split; auto.
        right. right. exists n. rewrite Ht. repeat split; auto.
Qed.

(** Claim C10.  After both handshakes, a request whose SearchParams has the
    node of the desired search (the same object), an equal limit and
    element-wise equal searchmoves returns at once: every field of the
    driver and both counters of the hub are as before, nothing is sent and
    nothing is queued; only the heap holds the discarded object.  Hence the
    second of two consecutive calls with the same arguments writes nothing
    to the engine. *)
Theorem C10_matching_request_is_noop env nd lim moves w :
  (ever_received_uciok (eng w) = true ->
   ever_received_readyok (eng w) = true ->
   node (search_desired (eng w)) =
     node (fst (SearchParams_new (nodes env) nd lim moves (heap w))) ->
   limit (search_desired (eng w)) =
     limit (fst (SearchParams_new (nodes env) nd lim moves (heap w))) ->
   array_elems (snd (SearchParams_new (nodes env) nd lim moves (heap w)))
       (searchmoves (search_desired (eng w))) =
     array_elems (snd (SearchParams_new (nodes env) nd lim moves (heap w)))
       (searchmoves (fst (SearchParams_new (nodes env) nd lim moves (heap w)))) ->
   set_search_desired env nd lim moves w =
     Ok tt (mkWorld (snd (SearchParams_new (nodes env) nd lim moves (heap w)))
              (info_handler w) (eng w)) []) /\
  (heap_wf (heap w) ->
   (forall a, moves = Some a -> is_Some (arrays (heap w) !! a)) ->
   is_Some (arrays (heap w) !! searchmoves (search_desired (eng w))) ->
   stdin_writes
     (trace_of (set_search_desired env nd lim moves
                  (world_of (set_search_desired env nd lim moves w)))) = []).
Proof.
  split; [apply set_search_desired_same|].
  intros Hwf Hcaller Hdes.
  destruct (negb (ever_received_uciok (eng w)) || negb (ever_received_readyok (eng w)))
    eqn:Hearly.
  { rewrite (set_search_desired_early env nd lim moves w Hearly). cbn [world_of].
    rewrite (set_search_desired_early env nd lim moves w Hearly). reflexivity. }
  apply orb_false_iff in Hearly. destruct Hearly as [Hu Hr].
  apply negb_false_iff in Hu, Hr.
  pose proof (set_search_desired_post env nd lim moves w Hu Hr) as Hpost.
  pose proof (second_construction (nodes env) nd lim moves (heap w) Hwf Hcaller) as Hsec.
  cbv zeta in Hpost, Hsec.
  set (w1 := world_of (set_search_desired env nd lim moves w)) in *.
  destruct Hpost as (Hheap & Hu1 & Hr1 & Hcases).
  destruct Hsec as (Hn & Hl & Ha & Ha1 & Hold).
  rewrite <- Hheap in Hn, Hl, Ha, Ha1, Hold.
  destruct Hcases as [(Dn & Dl & Da & Dd) | [Dd | (n & Pn & Pbad & Prun & Dd)]].
  - rewrite set_search_desired_same; try assumption; try reflexivity.
    + rewrite Dd. congruence.
    + rewrite Dd. congruence.
    + rewrite Dd, (Hold _ Hdes), <- Ha, Ha1, Hheap. exact Da.
  - rewrite set_search_desired_same; try assumption; try reflexivity.
    + rewrite Dd. congruence.
    + rewrite Dd. congruence.
    + rewrite Dd. exact Ha.
  - rewrite set_search_desired_unfold by assumption. cbv zeta.
    rewrite Dd. cbn [node NoSearch]. rewrite Hn, Pn.
    rewrite (bool_decide_eq_false_2 (None = Some n)) by discriminate. cbn [andb].
    rewrite Prun. cbn [truthy].
    set (w2 := mkWorld _ _ _).
    assert (Hrun2 : node (search_running (eng w2)) = None) by (subst w2; exact Prun).
    rewrite (send_desired_abandon env w2 Hrun2); [reflexivity|].
    subst w2. cbn [eng search_desired set_search_desired_field]. rewrite Hn, Pn. exact Pbad.
Qed.

(** The search of node 0 is running and wanted; the hub asks for it once
    more. *)
Lemma C10_witness :
  set_search_desired demo_env (Some 0%nat) (Some 10000%Z) None running_world =
    Ok tt (mkWorld (snd (SearchParams_new demo_nodes (Some 0%nat) (Some 10000%Z) None
                           (heap running_world)))
             (info_handler running_world) (eng running_world)) [].
Proof.
  apply (C10_matching_request_is_noop demo_env (Some 0%nat) (Some 10000%Z) None
           running_world); vm_compute; reflexivity.
Defined.

(** ** The cycle counter *)

Lemma counters_kept_refl w : counters_kept w w [].
Proof. split; reflexivity. Qed.

Lemma counters_kept_trans w1 w2 w3 t1 t2 :
  counters_kept w1 w2 t1 -> counters_kept w2 w3 t2 -> counters_kept w1 w3 (t1 ++ t2).
Proof. intros [H1 H2] [G1 G2]. split; congruence. Qed.

Lemma frame_counters_kept {A} (m : M A) :
  respects send_frame m -> respects counters_kept m.
Proof.
  intros H w. destruct (H w) as (_ & H2 & H3 & _). split; [exact H2|].
  unfold untouched in H3. congruence.
Qed.

Lemma kept_step {A} (m : M A) : respects counters_kept m -> respects counters_step m.
Proof. intros H w. left. apply H. Qed.

Lemma step_after_kept {A B} (m : M A) (f : A -> M B) :
  respects counters_kept m -> (forall a, respects counters_step (f a)) ->
  respects counters_step (bind m f).
Proof.
  intros Hm Hf w. specialize (Hm w). unfold bind.
  destruct (m w) as [a w1 t1|err w1 t1]; cbn [world_of trace_of] in *; [|left; exact Hm].
  specialize (Hf a w1). destruct Hm as [Hi Hs].
  destruct (f a w1) as [b w2 t2|err w2 t2]; cbn [world_of trace_of] in *;
    (destruct Hf as [[Gi Gs] | (G1 & G2 & G3)];
     [left; split; congruence | right; rewrite <- Hi; auto]).
Qed.

Ltac kept_leaf :=
  first [ apply frame_counters_kept, send_in_frame
        | apply frame_counters_kept, send_queued_setoptions_frame
        | apply frame_counters_kept, ack_frame
        | intros ?w; split; reflexivity
        | intros ?w; unfold with_heap; destruct (SearchParams_new _ _ _ _ _);
          split; reflexivity
        | idtac ].

Ltac kept_walk := walk counters_kept_refl counters_kept_trans kept_leaf.

(** [send_desired] throws, abandons or launches. *)
Lemma send_desired_step env : respects counters_step (send_desired env).
Proof.
  intros w. destruct (node (search_running (eng w))) as [r|] eqn:Hrun.
  { rewrite send_desired_running by (rewrite Hrun; reflexivity). left. split; reflexivity. }
  destruct (node (search_desired (eng w))) as [n|] eqn:Hdes.
  2:{ rewrite send_desired_abandon by (rewrite ?Hdes; auto). left. split; reflexivity. }
  destruct (destroyed (nodes env n)) eqn:Hd;
    [|destruct (terminal_reason (nodes env n)) eqn:Ht].
  - rewrite send_desired_abandon by (rewrite ?Hdes; auto). left. split; reflexivity.
  - destruct (send_desired_launch env w n Hrun Hdes Hd Ht) as (e2 & tr & H & _).
    rewrite H. right. repeat split.
  - rewrite send_desired_abandon by (rewrite ?Hdes, ?Ht; auto; right; discriminate).
    left. split; reflexivity.
Qed.

Ltac step_walk :=
  lazymatch goal with
  | |- respects counters_step (bind _ _) =>
      apply step_after_kept; [kept_walk | intro; step_walk]
  | |- respects counters_step (if ?c then _ else _) => destruct c eqn:?; step_walk
  | |- respects counters_step (match ?x with _ => _ end) => destruct x eqn:?; step_walk
  | |- respects counters_step (send_desired _) => apply send_desired_step
  | |- _ => apply kept_step; kept_walk
  end.

Lemma set_search_desired_step env nd lim moves :
  respects counters_step (set_search_desired env nd lim moves).
Proof.
  unfold set_search_desired. step_walk.
Qed.

Lemma handle_bestmove_line_step env line :
  respects counters_step (handle_bestmove_line env line).
Proof. unfold handle_bestmove_line. cbv zeta. step_walk. Qed.

Lemma handle_info_line_kept env line : respects counters_kept (handle_info_line env line).
Proof. unfold handle_info_line, log_info. kept_walk. Qed.

Lemma setoption_kept env name value : respects counters_kept (setoption env name value).
Proof. unfold setoption. cbv zeta. kept_walk. Qed.

(** Every way into the driver leaves the counters as they were or moves
    both up by one, clearing the suppressed cycle. *)
Lemma run_step env op : respects counters_step (run env op).
Proof.
  destruct op; cbn [run].
  - apply kept_step. kept_walk.
  - apply send_desired_step.
  - apply set_search_desired_step.
  - apply kept_step. kept_walk.
  - apply kept_step. unfold send_ucinewgame. kept_walk.
  - apply handle_bestmove_line_step.
  - apply kept_step, handle_info_line_kept.
  - apply kept_step. unfold void. kept_walk. apply setoption_kept.
  - apply kept_step. unfold void, maybe_setoption. cbv zeta. kept_walk. apply setoption_kept.
  - apply kept_step. unfold void, pressbutton. cbv zeta. kept_walk.
  - apply kept_step. unfold void. kept_walk.
  - apply kept_step. unfold setup. kept_walk.
  - unfold on_stdout_line. apply step_after_kept; [kept_walk | intros e].
    destruct (have_quit e); [apply kept_step; kept_walk|].
    destruct (startsWith line "bestmove"); [apply handle_bestmove_line_step|].
    destruct (startsWith line "info"); [apply kept_step, handle_info_line_kept|].
    apply kept_step. kept_walk. apply setoption_kept.
  - apply kept_step. unfold on_stderr_line. kept_walk.
  - apply kept_step. unfold shutdown. kept_walk.
Qed.

(** ** The cycle counter and the [go] commands *)

Lemma go_counted_refl w : go_counted w w [].
Proof. intros Hl Hq. cbn. repeat split; try assumption. lia. Qed.

Lemma go_counted_trans w1 w2 w3 t1 t2 :
  go_counted w1 w2 t1 -> go_counted w2 w3 t2 -> go_counted w1 w3 (t1 ++ t2).
Proof.
  intros H1 H2 Hl Hq. destruct (H1 Hl Hq) as (Hl2 & Hq2 & Hc2).
  destruct (H2 Hl2 Hq2) as (Hl3 & Hq3 & Hc3). repeat split; try assumption.
  rewrite go_commands_app, length_app, Nat2Z.inj_add. lia.
Qed.

Lemma position_not_go x : startsWith (trim ("position " +:+ x)) "go" = false.
Proof.
  destruct (trim_head "p" ("osition " +:+ x) eq_refl) as [r Hr].
  change ("position " +:+ x) with (String "p" ("osition " +:+ x)). rewrite Hr. reflexivity.
Qed.

Lemma setoption_name_not_go x : startsWith (trim ("setoption name " +:+ x)) "go" = false.
Proof.
  destruct (trim_head "s" ("etoption name " +:+ x) eq_refl) as [r Hr].
  change ("setoption name " +:+ x) with (String "s" ("etoption name " +:+ x)).
  rewrite Hr. reflexivity.
Qed.

(** A line that is no [go] command leaves the count alone. *)
Lemma send_go_counted env msg force :
  startsWith (trim msg) "go" = false -> respects go_counted (send env msg force).
Proof.
  intros Hng w Hl Hq.
  destruct (send_ok env msg force w) as (e' & tr & H & _ & _ & _ & Hw & Hl' & Hq').
  rewrite H. cbn [world_of trace_of eng info_handler].
  split; [auto|]. split; [auto|].
  unfold go_commands. rewrite filter_none; [cbn; lia|].
  eapply Forall_impl; [exact Hw|]. intros s [-> | ->]; [exact Hng | reflexivity].
Qed.

Lemma send_queued_setoptions_go_counted env :
  respects go_counted (send_queued_setoptions env).
Proof.
  intros w Hl Hq.
  destruct (send_queued_setoptions_live env w Hl Hq) as (e' & tr & H & Hw & Hl' & _ & Hq').
  rewrite H. cbn [world_of trace_of eng info_handler].
  split; [exact Hl'|]. split; [unfold queue_wf; rewrite Hq'; apply Forall_nil_2|].
  unfold go_commands. rewrite Hw, filter_none; [cbn; lia|].
  unfold queue_wf in Hq. clear - Hq. induction Hq as [|m q [_ Hm] _ IH]; [apply Forall_nil_2|].
  cbn [flat_map app]. apply Forall_cons_2; [apply starts_setoption_not_go, Hm|].
  apply Forall_cons_2; [reflexivity | exact IH].
Qed.

(** The launch writes one [go] command and moves the counter by one. *)
Lemma send_desired_go_counted env : respects go_counted (send_desired env).
Proof.
  intros w Hl Hq. destruct (node (search_running (eng w))) as [r|] eqn:Hrun.
  { rewrite send_desired_running by (rewrite Hrun; reflexivity).
    cbn. repeat split; try assumption. lia. }
  assert (Habandon :
            match node (search_desired (eng w)) with
            | Some n => destroyed (nodes env n) = true \/
                        terminal_reason (nodes env n) <> EmptyString
            | None => True
            end ->
            go_counted w (world_of (send_desired env w)) (trace_of (send_desired env w))).
  { intros Hb. rewrite send_desired_abandon by assumption. intros _ _.
    cbn. repeat split; try assumption. lia. }
  destruct (node (search_desired (eng w))) as [n|] eqn:Hdes; [|apply Habandon; auto].
  destruct (destroyed (nodes env n)) eqn:Hd; [apply Habandon; auto|].
  destruct (terminal_reason (nodes env n)) eqn:Ht;
    [|apply Habandon; auto; right; discriminate].
  clear Habandon.
  pose proof (send_desired_live env w n Hl Hrun Hdes Hd Ht) as H. cbv zeta in H.
  rewrite H. cbn [world_of trace_of]. split; [exact Hl|]. split; [exact Hq|].
  unfold go_commands. rewrite !stdin_writes_app.
  replace (stdin_writes (if log_positions (config env)
                         then [LogLine (graphic (nodes env n))] else []))
    with (@nil string) by (destruct (log_positions (config env)); reflexivity).
  cbn [stdin_writes app List.filter].
  destruct (position_command_prefix (in_960_mode (eng w)) (nodes env n)) as [x Hx].
  rewrite Hx, position_not_go, go_command_starts.
  change (startsWith newline "go") with false. cbn. lia.
Qed.

Ltac go_leaf :=
  first [ apply send_queued_setoptions_go_counted
        | apply send_desired_go_counted
        | apply send_go_counted; first [reflexivity | apply setoption_name_not_go]
        | intros ?w ?Hl ?Hq; split; [exact Hl | split; [exact Hq | cbn; lia]]
        | intros ?w; unfold with_heap; destruct (SearchParams_new _ _ _ _ _);
          intros ?Hl ?Hq; split; [exact Hl | split; [exact Hq | cbn; lia]]
        | idtac ].

Ltac go_walk := walk go_counted_refl go_counted_trans go_leaf.

Lemma setoption_go_counted env name value : respects go_counted (setoption env name value).
Proof. unfold setoption. cbv zeta. go_walk. Qed.

Lemma handle_bestmove_line_go_counted env line :
  respects go_counted (handle_bestmove_line env line).
Proof. unfold handle_bestmove_line. cbv zeta. go_walk. Qed.

Lemma silent_refl w : silent w w [].
Proof. split; reflexivity. Qed.

Lemma silent_trans w1 w2 w3 t1 t2 :
  silent w1 w2 t1 -> silent w2 w3 t2 -> silent w1 w3 (t1 ++ t2).
Proof.
  intros [H1 H2] [G1 G2]. unfold silent. rewrite stdin_writes_app, H2, G2.
  split; [congruence | reflexivity].
Qed.

Lemma setup_silent env filepath args : respects silent (setup env filepath args).
Proof.
  unfold setup. walk silent_refl silent_trans ltac:(intros ?w; split; reflexivity).
Qed.

(** Apart from the raw [send] and from [setup], every way into the driver,
    started on a live engine with a well-formed queue, moves the cycle
    counter by the number of [go] commands it writes. *)
Lemma run_go_counted env op :
  (forall msg force, op <> OpSend msg force) ->
  (forall filepath args, op <> OpSetup filepath args) ->
  respects go_counted (run env op).
Proof.
  intros Hns Hnsetup. destruct op; cbn [run].
  - exfalso. eapply Hns. reflexivity.
  - apply send_desired_go_counted.
  - unfold set_search_desired. go_walk.
  - apply send_queued_setoptions_go_counted.
  - unfold send_ucinewgame. go_walk.
  - apply handle_bestmove_line_go_counted.
  - unfold handle_info_line, log_info. go_walk.
  - unfold void. go_walk. apply setoption_go_counted.
  - unfold void, maybe_setoption, send_ack_setoption_to_main_process. cbv zeta. go_walk.
    apply setoption_go_counted.
  - unfold void, pressbutton. cbv zeta. go_walk.
  - unfold void, send_ack_setoption_to_main_process. cbv zeta. go_walk.
  - exfalso. eapply Hnsetup. reflexivity.
  - unfold on_stdout_line. go_walk.
    + apply handle_bestmove_line_go_counted.
    + unfold handle_info_line, log_info. go_walk.
    + apply setoption_go_counted.
  - unfold on_stderr_line. go_walk.
  - unfold shutdown. go_walk.
Qed.

(** Claim C7.  With both counters within the range in which [++] adds
    exactly one: whatever way the driver is entered, the cycle counter stays
    or goes up by one; the subcycle counter moves with it, and when they
    move the suppressed cycle is cleared (otherwise it is kept).  The raw
    [send] never moves them.  Every other entry, started on a live engine
    whose queue holds what [send] pushed, moves the cycle counter by exactly
    the number of [go] commands it writes: the counter goes up by one with
    each [go], in [send_desired], and nowhere else. *)
Theorem C7_cycle_moves_with_go_only env op w :
  safe_integer (engine_cycle (info_handler w)) ->
  safe_integer (engine_subcycle (info_handler w)) ->
  ((info_handler (world_of (run env op w)) = info_handler w /\
    suppress_cycle_info (eng (world_of (run env op w))) = suppress_cycle_info (eng w)) \/
   (engine_cycle (info_handler (world_of (run env op w))) =
      engine_cycle (info_handler w) + 1 /\
    engine_subcycle (info_handler (world_of (run env op w))) =
      engine_subcycle (info_handler w) + 1 /\
    suppress_cycle_info (eng (world_of (run env op w))) = None))%Z /\
  (forall msg force, op = OpSend msg force ->
     info_handler (world_of (run env op w)) = info_handler w) /\
  (engine_live (eng w) -> queue_wf (eng w) ->
   (forall msg force, op <> OpSend msg force) ->
   engine_cycle (info_handler (world_of (run env op w))) =
     (engine_cycle (info_handler w) +
      Z.of_nat (length (go_commands (trace_of (run env op w)))))%Z).
Proof.
  intros _ _.
  split; [exact (run_step env op w)|]. split.
  - intros msg force ->. cbn [run]. apply (send_in_frame env msg force w).
  - intros Hl Hq Hns.
    assert (Hsetup : (exists filepath args, op = OpSetup filepath args) \/
                     (forall filepath args, op <> OpSetup filepath args)).
    { destruct op; try (right; discriminate). left. eauto. }
    destruct Hsetup as [(filepath & args & ->) | Hnsetup].
    + cbn [run]. destruct (setup_silent env filepath args w) as [Hi Hw].
      unfold go_commands. rewrite Hi, Hw. cbn. lia.
    + exact (proj2 (proj2 (run_go_counted env op Hns Hnsetup w Hl Hq))).
Qed.

(** Scenario S2 again: the request that launches the first search moves the
    counter from 0 to 1 and writes one [go]. *)
Lemma C7_witness :
  engine_cycle (info_handler (world_of
    (run demo_env (OpSetSearchDesired (Some 0%nat) (Some 10000%Z) None) ready_world))) = 1%Z /\
  go_commands (trace_of
    (run demo_env (OpSetSearchDesired (Some 0%nat) (Some 10000%Z) None) ready_world)) =
    ["go nodes 10000"].
Proof.
  destruct (C7_cycle_moves_with_go_only demo_env
              (OpSetSearchDesired (Some 0%nat) (Some 10000%Z) None) ready_world)
    as (_ & _ & H); [vm_compute; reflexivity | vm_compute; reflexivity |].
  assert (Hl : engine_live (eng ready_world)) by (vm_compute; reflexivity).
  assert (Hq : queue_wf (eng ready_world)) by (unfold queue_wf; vm_compute; constructor).
  specialize (H Hl Hq (fun msg force Heq => ltac:(discriminate Heq))).
  split; [rewrite H|]; vm_compute; reflexivity.
Defined.

(* ================================================================== *)
(** * Further properties of the driver *)

(** ** What can throw *)

Lemma send_queued_setoptions_ok env w :
  exists e' tr,
    send_queued_setoptions env w = Ok tt (mkWorld (heap w) (info_handler w) e') tr /\
    untouched e' = untouched (eng w) /\
    setoption_queue e' = [] /\
    bestmoves_forwarded tr = [] /\ infos_forwarded tr = [].
Proof.
  unfold send_queued_setoptions. rewrite bind_get_eng.
  pose proof (for_each_sends_frame env (setoption_queue (eng w)) w)
    as (H1 & H2 & H3 & H4 & H5).
  destruct (returned_Ok _ (for_each_returns (setoption_queue (eng w))
                             (fun m => send env m true)
                             (fun m w' => send_returns env m true w') w)) as [[] Hr].
  rewrite Hr in *. cbn [world_of trace_of] in *.
  destruct (world_of (for_each _ _ w)) as [h' ih' e']. cbn [heap info_handler eng] in *.
  subst h' ih'. rewrite (bind_Ok _ _ _ _ _ _ Hr). cbv [modify_eng]. cbn [heap info_handler eng].
  eexists; eexists. split; [reflexivity|]. rewrite app_nil_r.
  repeat split; assumption.
Qed.

Lemma send_desired_returns env w :
  node (search_running (eng w)) = None -> returned (send_desired env w) = true.
Proof.
  intros Hrun. destruct (node (search_desired (eng w))) as [n|] eqn:Hdes.
  2:{ rewrite send_desired_abandon by (rewrite ?Hdes; auto). reflexivity. }
  destruct (destroyed (nodes env n)) eqn:Hd;
    [|destruct (terminal_reason (nodes env n)) eqn:Ht].
  - rewrite send_desired_abandon by (rewrite ?Hdes; auto). reflexivity.
  - destruct (send_desired_launch env w n Hrun Hdes Hd Ht) as (e2 & tr & H & _).
    rewrite H. reflexivity.
  - rewrite send_desired_abandon by (rewrite ?Hdes, ?Ht; auto; right; discriminate).
    reflexivity.
Qed.

Lemma set_search_desired_returns env nd lim moves w :
  returned (set_search_desired env nd lim moves w) = true.
Proof.
  destruct (negb (ever_received_uciok (eng w)) || negb (ever_received_readyok (eng w)))
    eqn:Hearly.
  { rewrite set_search_desired_early by exact Hearly. reflexivity. }
  apply orb_false_iff in Hearly. destruct Hearly as [Hu Hr].
  apply negb_false_iff in Hu, Hr.
  rewrite set_search_desired_unfold by assumption. cbv zeta.
  destruct (_ && _); [reflexivity|].
  destruct (truthy (node (search_running (eng w)))) eqn:Hrun.
  - destruct (send_ok env "stop" false
                (mkWorld (snd (SearchParams_new (nodes env) nd lim moves (heap w)))
                   (info_handler w)
                   (set_search_desired_field
                      (fst (SearchParams_new (nodes env) nd lim moves (heap w))) (eng w))))
      as (e' & tr & Hs & _).
    rewrite (bind_Ok _ _ _ _ _ _ Hs), bind_get_eng. destruct (negb _); reflexivity.
  - destruct (truthy (node (fst _))); [|reflexivity].
    apply send_desired_returns. cbn.
    destruct (node (search_running (eng w))); [discriminate | reflexivity].
Qed.

Lemma handle_bestmove_line_returns env line w :
  returned (handle_bestmove_line env line w) = true.
Proof.
  rewrite handle_bestmove_line_unfold. cbv zeta.
  destruct (_ || _).
  - rewrite bind_modify_eng.
    match goal with |- context [?m (mkWorld ?h ?i ?e)] =>
      destruct (send_queued_setoptions_ok env (mkWorld h i e)) as (e' & tr & Hd & _)
    end.
    match goal with |- context [if ?c then _ else _] => destruct c end.
    + match goal with |- returned (bind _ _ ?w1) = true =>
        rewrite (bind_Ok _ _ w1 tt w1 [LogLine ("< " +:+ line)]) by reflexivity
      end.
      rewrite (bind_Ok _ _ _ _ _ _ Hd). reflexivity.
    + match goal with |- returned (bind _ _ ?w1) = true =>
        rewrite (bind_Ok _ _ w1 tt w1 [LogLine ("(ignore halted) < " +:+ line)])
          by reflexivity
      end.
      rewrite Hd. reflexivity.
  - match goal with |- returned (bind _ _ ?w0) = true =>
      rewrite (bind_Ok _ _ w0 tt w0 [LogLine ("(ignore old) < " +:+ line)]) by reflexivity;
      destruct (send_queued_setoptions_ok env w0) as (e' & tr & Hd & Hu & _)
    end.
    rewrite (bind_Ok _ _ _ _ _ _ Hd).
    assert (Hrun : node (search_running e') = None).
    { unfold untouched in Hu. injection Hu as _ _ _ _ _ _ _ _ Hr _ _. rewrite Hr. reflexivity. }
    pose proof (send_desired_returns env (mkWorld (heap w) (info_handler w) e') Hrun) as Hret.
    cbn [heap info_handler eng] in *.
    destruct (send_desired env _); [reflexivity | discriminate Hret].
Qed.

Lemma returns_bind {A B} (m : M A) (f : A -> M B) :
  always_returns m -> (forall a, always_returns (f a)) -> always_returns (bind m f).
Proof. intros Hm Hf w. apply returned_bind_all; [apply Hm | intros a w'; apply Hf]. Qed.

Lemma returns_for_each {A} (l : list A) (body : A -> M unit) :
  (forall x, always_returns (body x)) -> always_returns (for_each l body).
Proof. intros H w. apply for_each_returns. intros x w'. apply H. Qed.

Ltac ret_leaf :=
  first [ intros ?w; reflexivity
        | intros ?w; apply send_returns
        | intros ?w; apply send_queued_setoptions_returns
        | intros ?w; apply handle_bestmove_line_returns
        | intros ?w; unfold with_heap; destruct (SearchParams_new _ _ _ _ _); reflexivity
        | idtac ].

Ltac ret_walk :=
  lazymatch goal with
  | |- always_returns (bind _ _) => apply returns_bind; [ret_walk | intro; ret_walk]
  | |- always_returns (if ?c then _ else _) => destruct c; ret_walk
  | |- always_returns (match ?x with _ => _ end) => destruct x; ret_walk
  | |- _ => ret_leaf
  end.

Lemma setoption_returns env name value : always_returns (setoption env name value).
Proof. unfold setoption. cbv zeta. ret_walk. Qed.

(** The driver has one [throw], the guard of [send_desired].  No other way
    into the driver reaches it: a method or listener that does not return
    is [send_desired] itself, called while a search runs; it then leaves
    the state as it was and sends nothing. *)
Theorem only_send_desired_throws env op w :
  (returned (run env op w) = false ->
   op = OpSendDesired /\ node (search_running (eng w)) <> None) /\
  (node (search_running (eng w)) <> None ->
   send_desired env w = Throw "send_desired() called but search was running" w []).
Proof.
  split.
  - intros H. destruct op; cbn [run] in H;
      lazymatch type of H with
      | returned (send_desired _ _) = false => idtac
      | _ => exfalso; revert H; apply not_false_iff_true
      end.
    + apply send_returns.
    + split; [reflexivity|]. intros Hn.
      rewrite send_desired_returns in H by exact Hn. discriminate H.
    + apply set_search_desired_returns.
    + apply send_queued_setoptions_returns.
    + revert w. change (always_returns (send_ucinewgame env)).
      unfold send_ucinewgame. ret_walk.
    + apply handle_bestmove_line_returns.
    + revert w. change (always_returns (handle_info_line env line)).
      unfold handle_info_line, log_info. ret_walk.
    + revert w. change (always_returns (void (setoption env name value))).
      unfold void. ret_walk. apply setoption_returns.
    + revert w. change (always_returns (void (maybe_setoption env name value))).
      unfold void, maybe_setoption. cbv zeta. ret_walk. apply setoption_returns.
    + revert w. change (always_returns (void (pressbutton env name))).
      unfold void, pressbutton. cbv zeta. ret_walk.
    + reflexivity.
    + revert w. change (always_returns (setup env filepath args)).
      unfold setup. ret_walk.
    + revert w. change (always_returns (on_stdout_line env line)).
      unfold on_stdout_line. ret_walk.
      * unfold handle_info_line, log_info. ret_walk.
      * apply setoption_returns.
    + revert w. change (always_returns (on_stderr_line env line)).
      unfold on_stderr_line. ret_walk.
    + revert w. change (always_returns (shutdown env)).
      unfold shutdown. ret_walk.
  - intros Hn. apply send_desired_running.
    destruct (node (search_running (eng w))); [reflexivity | congruence].
Qed.

(** [send_desired] called by hand during the search of node 0. *)
Lemma only_send_desired_throws_witness :
  OpSendDesired = OpSendDesired /\ node (search_running (eng running_world)) <> None.
Proof.
  apply (only_send_desired_throws demo_env OpSendDesired running_world).
  vm_compute. reflexivity.
Defined.

(** ** After a [bestmove] *)

Lemma same_object_refl sp : same_object sp sp = true.
Proof. unfold same_object. apply Nat.eqb_refl. Qed.

(** The handler's own part, up to and with the call of
    [receive_bestmove]: however the driver stood when the line came, at its
    end no stop is unanswered and the running search is the desired search:
    both are [NoSearch], or both are the object that was desired, which then
    was another object than the one that ran and has a node that can be
    searched. *)
Lemma handle_bestmove_line_settles env line w :
  let e' := eng (world_of (handle_bestmove_line env line w)) in
  unresolved_stop_time e' = None /\
  search_running e' = search_desired e' /\
  (search_desired e' = NoSearch \/
   (search_desired e' = search_desired (eng w) /\
    same_object (search_desired (eng w)) (search_running (eng w)) = false /\
    exists n, node (search_desired (eng w)) = Some n /\
              destroyed (nodes env n) = false /\
              terminal_reason (nodes env n) = EmptyString)) /\
  (search_state e' = Inactive \/ search_state e' = Running).
Proof.
  cbv zeta.
  assert (Hstate : forall e, search_running e = search_desired e ->
                    search_state e = Inactive \/ search_state e = Running).
  { intros e He. unfold search_state. rewrite He.
    destruct (node (search_desired e)); [|auto]. rewrite same_object_refl. auto. }
  assert (Hgoal : forall e',
    unresolved_stop_time e' = None ->
    search_running e' = search_desired e' ->
    (search_desired e' = NoSearch \/
     (search_desired e' = search_desired (eng w) /\
      same_object (search_desired (eng w)) (search_running (eng w)) = false /\
      exists n, node (search_desired (eng w)) = Some n /\
                destroyed (nodes env n) = false /\
                terminal_reason (nodes env n) = EmptyString)) ->
    unresolved_stop_time e' = None /\
    search_running e' = search_desired e' /\
    (search_desired e' = NoSearch \/
     (search_desired e' = search_desired (eng w) /\
      same_object (search_desired (eng w)) (search_running (eng w)) = false /\
      exists n, node (search_desired (eng w)) = Some n /\
                destroyed (nodes env n) = false /\
                terminal_reason (nodes env n) = EmptyString)) /\
    (search_state e' = Inactive \/ search_state e' = Running)) by (intros; auto).
  rewrite handle_bestmove_line_unfold. cbv zeta.
  set (same := same_object _ _).
  destruct (same || negb (truthy (node (search_desired (eng w))))) eqn:Hno.
  - rewrite bind_modify_eng.
    match goal with |- context [?m (mkWorld ?h ?i ?e)] =>
      destruct (send_queued_setoptions_ok env (mkWorld h i e)) as (e' & tr & Hd & Hu & _)
    end.
    cbn [eng] in Hu. unfold untouched in Hu.
    injection Hu as _ _ Hust _ _ _ _ _ Hrun Hdes _. cbn in Hust, Hrun, Hdes.
    assert (Hfinal : forall r : Result unit, eng (world_of r) = e' ->
              unresolved_stop_time (eng (world_of r)) = None /\
              search_running (eng (world_of r)) = search_desired (eng (world_of r)) /\
              (search_desired (eng (world_of r)) = NoSearch \/
               (search_desired (eng (world_of r)) = search_desired (eng w) /\
                same = false /\
                exists n, node (search_desired (eng w)) = Some n /\
                          destroyed (nodes env n) = false /\
                          terminal_reason (nodes env n) = EmptyString)) /\
              (search_state (eng (world_of r)) = Inactive \/
               search_state (eng (world_of r)) = Running)).
    { intros r ->. apply Hgoal; [exact Hust | congruence | left; exact Hdes]. }
    apply Hfinal. destruct (same && _).
    + match goal with |- context [bind _ _ ?w1] =>
        rewrite (bind_Ok _ _ w1 tt w1 [LogLine ("< " +:+ line)]) by reflexivity
      end.
      rewrite (bind_Ok _ _ _ _ _ _ Hd), bind_get_eng. reflexivity.
    + match goal with |- context [bind _ _ ?w1] =>
        rewrite (bind_Ok _ _ w1 tt w1 [LogLine ("(ignore halted) < " +:+ line)])
          by reflexivity
      end.
      rewrite Hd. reflexivity.
  - apply orb_false_iff in Hno. destruct Hno as [Hsame Hnode].
    apply negb_false_iff in Hnode.
    match goal with |- context [bind _ _ ?w0] =>
      rewrite (bind_Ok _ _ w0 tt w0 [LogLine ("(ignore old) < " +:+ line)]) by reflexivity;
      destruct (send_queued_setoptions_ok env w0) as (e' & tr & Hd & Hu & _)
    end.
    rewrite (bind_Ok _ _ _ _ _ _ Hd). cbn [eng heap info_handler] in *.
    unfold untouched in Hu.
    injection Hu as _ _ Hust _ _ _ _ _ Hrun Hdes _. cbn in Hust, Hrun, Hdes.
    set (w2 := mkWorld (heap w) (info_handler w) e').
    assert (Hrun2 : node (search_running (eng w2)) = None)
      by (unfold w2; cbn [eng]; rewrite Hrun; reflexivity).
    destruct (node (search_desired (eng w))) as [n|] eqn:Hn; [|discriminate Hnode].
    assert (Hdes2 : node (search_desired (eng w2)) = Some n)
      by (unfold w2; cbn [eng]; rewrite Hdes; exact Hn).
    destruct (destroyed (nodes env n)) eqn:Hdn;
      [|destruct (terminal_reason (nodes env n)) eqn:Htn].
    + rewrite (send_desired_abandon env w2 Hrun2) by (rewrite Hdes2; auto).
      cbn [world_of eng]. apply Hgoal; [exact Hust | reflexivity | left; reflexivity].
    + destruct (send_desired_launch env w2 n Hrun2 Hdes2 Hdn Htn)
        as (e2 & tr2 & Hs & Hu2 & _).
      rewrite Hs. cbn [world_of eng]. unfold untouched in Hu2. unfold w2 in Hu2.
      cbn [eng] in Hu2. injection Hu2 as _ _ Hust2 _ _ _ _ _ _ Hdes3 _.
      unfold w2. cbn [eng]. apply Hgoal.
      * cbn. congruence.
      * cbn. congruence.
      * right. cbn. split; [congruence|]. split; [exact Hsame|]. eauto.
    + rewrite (send_desired_abandon env w2 Hrun2)
        by (rewrite Hdes2, Htn; right; discriminate).
      cbn [world_of eng]. apply Hgoal; [exact Hust | reflexivity | left; reflexivity].
Qed.

(** ** Flags *)

Lemma flags_kept_refl w : flags_kept w w [].
Proof. repeat split; auto. Qed.

Lemma flags_kept_trans w1 w2 w3 t1 t2 :
  flags_kept w1 w2 t1 -> flags_kept w2 w3 t2 -> flags_kept w1 w3 (t1 ++ t2).
Proof.
  intros (H2 & H3 & H4 & H5) (G2 & G3 & G4 & G5).
  repeat split; auto.
Qed.

Ltac unfold_driver :=
  unfold run, void, on_stdout_line, on_stderr_line, shutdown, setup,
    maybe_setoption, setoption, pressbutton, handle_bestmove_line, set_search_desired,
    send_ucinewgame, handle_info_line, log_info, send_queued_setoptions, send_desired,
    abandon_search, send, record_setoption, write_line, stdin_write,
    send_ack_setoption_to_main_process;
  cbv zeta.

Ltac flags_leaf :=
  first [ solve [intros ?w; repeat split; auto]
        | solve [intros ?w; unfold with_heap; destruct (SearchParams_new _ _ _ _ _);
                 repeat split; auto]
        | idtac ].

Ltac flags_walk :=
  walk flags_kept_refl flags_kept_trans
    ltac:(first [ apply (respects_for_each _ flags_kept_refl flags_kept_trans);
                  apply Forall_forall; intros ? _; flags_walk
                | flags_leaf ]).

Lemma run_flags_kept env op : respects flags_kept (run env op).
Proof. destruct op; unfold_driver; flags_walk. Qed.

Lemma run_script_respects R script :
  (forall w, R w w []) ->
  (forall w1 w2 w3 t1 t2, R w1 w2 t1 -> R w2 w3 t2 -> R w1 w3 (t1 ++ t2)) ->
  (forall env op, respects R (run env op)) ->
  respects R (run_script script).
Proof.
  intros Hrefl Htrans Hrun. induction script as [|[env op] script IH]; cbn [run_script].
  - apply (respects_ret _ Hrefl).
  - apply (respects_bind _ Htrans); [apply Hrun | intros _; exact IH].
Qed.

(** The driver never clears a handshake flag, the quit flag or the flag
    that the user was warned of a failed write: over any sequence of entries
    into the driver each of these flags, once set, is set at the end. *)
Theorem flags_never_reset script w :
  let w' := world_of (run_script script w) in
  (ever_received_uciok (eng w) = true -> ever_received_uciok (eng w') = true) /\
  (ever_received_readyok (eng w) = true -> ever_received_readyok (eng w') = true) /\
  (have_quit (eng w) = true -> have_quit (eng w') = true) /\
  (warned_send_fail (eng w) = true -> warned_send_fail (eng w') = true).
Proof.
  exact (run_script_respects flags_kept script flags_kept_refl flags_kept_trans
           run_flags_kept w).
Qed.

(** The handshake outlives a whole search. *)
Lemma flags_never_reset_witness :
  ever_received_uciok (eng (world_of (run_script
    [(demo_env, OpSetSearchDesired (Some 0%nat) (Some 10000%Z) None);
     (demo_env, OpStdoutLine "bestmove e2e4")] ready_world))) = true.
Proof.
  apply (flags_never_reset
           [(demo_env, OpSetSearchDesired (Some 0%nat) (Some 10000%Z) None);
            (demo_env, OpStdoutLine "bestmove e2e4")] ready_world).
  reflexivity.
Defined.

(** ** The registry of sent options *)

Lemma toLowerCase_idem s : toLowerCase (toLowerCase s) = toLowerCase s.
Proof. apply lower_fixed_toLowerCase, toLowerCase_lower_fixed. Qed.

Lemma lowercase_kept_refl w : lowercase_kept w w [].
Proof. split; [auto | apply Forall_nil_2]. Qed.

Lemma lowercase_kept_trans w1 w2 w3 t1 t2 :
  lowercase_kept w1 w2 t1 -> lowercase_kept w2 w3 t2 -> lowercase_kept w1 w3 (t1 ++ t2).
Proof.
  intros [H1 H2] [G1 G2]. split; [auto|].
  rewrite acks_sent_app. apply Forall_app. split; assumption.
Qed.

Ltac lowercase_leaf :=
  first [ solve [intros ?w; split; [intros ?H; exact H | apply Forall_nil_2]]
        | solve [intros ?w; split;
                 [intros ?H; exact H
                 | apply Forall_cons_2; [apply toLowerCase_idem | apply Forall_nil_2]]]
        | solve [intros ?w; split;
                 [intros ?H; apply map_Forall_insert_2;
                  [eapply parse_setoption_key_lower; eassumption | exact H]
                 | apply Forall_nil_2]]
        | solve [intros ?w; split; [intros _; apply map_Forall_empty | apply Forall_nil_2]]
        | solve [intros ?w; unfold with_heap; destruct (SearchParams_new _ _ _ _ _);
                 split; [intros ?H; exact H | apply Forall_nil_2]]
        | idtac ].

Ltac lowercase_walk :=
  walk lowercase_kept_refl lowercase_kept_trans
    ltac:(first [ apply (respects_for_each _ lowercase_kept_refl lowercase_kept_trans);
                  apply Forall_forall; intros ? _; lowercase_walk
                | lowercase_leaf ]).

Lemma run_lowercase_kept env op : respects lowercase_kept (run env op).
Proof. destruct op; unfold_driver; lowercase_walk. Qed.

(** The comment on [sent_options] holds: started with lower-case keys (a
    new driver has none), the registry has lower-case keys after any
    sequence of entries into the driver, and every [ack_setoption] sent on
    the way carries a lower-case key. *)
Theorem option_keys_stay_lowercase script w :
  (keys_lowercase (sent_options (eng w)) ->
   keys_lowercase (sent_options (eng (world_of (run_script script w))))) /\
  Forall (fun kv => toLowerCase (fst kv) = fst kv)
    (acks_sent (trace_of (run_script script w))).
Proof.
  exact (run_script_respects lowercase_kept script lowercase_kept_refl
           lowercase_kept_trans run_lowercase_kept w).
Qed.

(** A launch followed by two options in mixed case. *)
Lemma option_keys_stay_lowercase_witness :
  keys_lowercase (sent_options (eng (world_of (run_script
    [(demo_env, OpSetup "/usr/bin/lc0" []);
     (demo_env, OpSetoption "Threads" "4");
     (demo_env, OpSetoption "MultiPV" "3")] fresh_world)))).
Proof.
  apply (option_keys_stay_lowercase
           [(demo_env, OpSetup "/usr/bin/lc0" []);
            (demo_env, OpSetoption "Threads" "4");
            (demo_env, OpSetoption "MultiPV" "3")] fresh_world).
  apply map_Forall_empty.
Defined.

(** ** The queue of deferred options *)

Lemma queue_kept_refl w : queue_kept w w [].
Proof. intros H. exact H. Qed.

Lemma queue_kept_trans w1 w2 w3 t1 t2 :
  queue_kept w1 w2 t1 -> queue_kept w2 w3 t2 -> queue_kept w1 w3 (t1 ++ t2).
Proof. intros H1 H2 H. auto. Qed.

Ltac queue_leaf :=
  first [ solve [intros ?w ?H; exact H]
        | solve [intros ?w ?H; apply Forall_nil_2]
        | solve [intros ?w ?H; apply queue_wf_push; [|exact H];
                 match goal with
                 | Hc : (_ && _)%bool = true |- _ => apply andb_prop in Hc; tauto
                 end]
        | solve [intros ?w; unfold with_heap; destruct (SearchParams_new _ _ _ _ _);
                 intros ?H; exact H]
        | idtac ].

Ltac queue_walk :=
  walk queue_kept_refl queue_kept_trans
    ltac:(first [ apply (respects_for_each _ queue_kept_refl queue_kept_trans);
                  apply Forall_forall; intros ? _; queue_walk
                | queue_leaf ]).

Lemma run_queue_kept env op : respects queue_kept (run env op).
Proof. destruct op; unfold_driver; queue_walk. Qed.

(** Whatever is done with a new driver, its queue holds nothing but
    trimmed lines that begin with [setoption]. *)
Theorem queue_holds_setoption_lines script :
  Forall (fun m => trim m = m /\ startsWith m "setoption" = true)
    (setoption_queue (eng (world_of (run_script script fresh_world)))).
Proof.
  apply (run_script_respects queue_kept script queue_kept_refl queue_kept_trans
           run_queue_kept fresh_world).
  apply Forall_nil_2.
Qed.

(** ** Launch and shutdown *)

(** A launch that succeeds installs the child process, forgets every
    option sent to an earlier engine and tells the host so: one
    acknowledgement with an empty value for each of the eight menu options,
    under its lower-case name.  Nothing is written to the new engine and the
    driver is not in 960 mode.  A launch that throws alerts the user and
    leaves the driver as it was. *)
Theorem setup_resets_registry env filepath args w :
  match spawn env filepath args with
  | inl child =>
      setup env filepath args w =
        Ok tt (mkWorld (heap w) (info_handler w)
                 (set_scanners true (set_sent_options ∅ (set_exe (Some child) (eng w)))))
          ([LogLine ""; LogLine ("Launching " +:+ filepath); LogLine "";
            IpcAckEngineStart filepath] ++
           List.map (fun key => IpcAckSetoption key "")
             ["weightsfile"; "syzygypath"; "threads"; "hash"; "multipv"; "backend";
              "temperature"; "tempdecaymoves"]) /\
      in_960_mode (eng (world_of (setup env filepath args w))) = false /\
      stdin_writes (trace_of (setup env filepath args w)) = []
  | inr err =>
      setup env filepath args w =
        Ok tt w [LogLine ""; LogLine ("Launching " +:+ filepath); LogLine ""; Alert err]
  end.
Proof.
  unfold setup. destruct (spawn env filepath args) as [child|err].
  - assert (H : forall w', (modify_eng (set_exe (Some child));;
                 emit (IpcAckEngineStart filepath);;
                 modify_eng (set_sent_options ∅);;
                 for_each
                   ["WeightsFile"; "SyzygyPath"; "Threads"; "Hash"; "MultiPV"; "Backend";
                    "Temperature"; "TempDecayMoves"]
                   (fun key => _ <- send_ack_setoption_to_main_process key;; ret tt);;
                 modify_eng (set_scanners true))%drv w' =
              Ok tt (mkWorld (heap w') (info_handler w')
                       (set_scanners true (set_sent_options ∅ (set_exe (Some child) (eng w')))))
                (IpcAckEngineStart filepath ::
                 List.map (fun key => IpcAckSetoption key "")
                   ["weightsfile"; "syzygypath"; "threads"; "hash"; "multipv"; "backend";
                    "temperature"; "tempdecaymoves"])) by (intros w'; reflexivity).
    unfold bind at 1 2 3. cbn [emit]. rewrite H. cbn [heap info_handler eng app].
    split; [reflexivity|]. split; reflexivity.
  - destruct w. reflexivity.
Qed.

Lemma shutdown_unfold env w :
  shutdown env w =
    bind (send env "quit" false)
      (fun _ => bind get_eng (fun e =>
         if truthy (exe e) then emit (SetTimeoutKill 2000) else ret tt))
      (mkWorld (heap w) (info_handler w) (set_have_quit true (eng w))).
Proof. unfold shutdown. rewrite bind_modify_eng. reflexivity. Qed.

(** [shutdown] sets the quit flag, whatever becomes of the [quit] command;
    from then on both line listeners return at once, changing nothing and
    calling nobody.  On a live engine [quit] is written and the kill is
    scheduled two seconds on; with no child process nothing is written and
    no timer is set. *)
Theorem shutdown_silences_listeners env env' line w :
  let w' := world_of (shutdown env w) in
  have_quit (eng w') = true /\
  on_stdout_line env' line w' = Ok tt w' [] /\
  on_stderr_line env' line w' = Ok tt w' [] /\
  (engine_live (eng w) ->
   stdin_writes (trace_of (shutdown env w)) = ["quit"; newline] /\
   kill_timers (trace_of (shutdown env w)) = [2000%Z]) /\
  (exe (eng w) = None -> trace_of (shutdown env w) = []).
Proof.
  cbv zeta.
  assert (Hq : have_quit (eng (world_of (shutdown env w))) = true).
  { rewrite shutdown_unfold.
    match goal with |- context [bind (send _ _ _) _ ?w1] =>
      destruct (send_ok env "quit" false w1) as (e' & tr & Hs & Hu & _)
    end.
    rewrite (bind_Ok _ _ _ _ _ _ Hs), bind_get_eng.
    unfold untouched in Hu. injection Hu as _ _ _ _ _ Hq _ _ _ _ _. cbn in Hq.
    cbn [eng]. destruct (truthy (exe e')); exact Hq. }
  split; [exact Hq|]. split; [|split; [|split]].
  - unfold on_stdout_line. rewrite bind_get_eng, Hq. destruct (world_of _); reflexivity.
  - unfold on_stderr_line. rewrite bind_get_eng, Hq. destruct (world_of _); reflexivity.
  - intros Hl. rewrite shutdown_unfold.
    match goal with |- context [bind (send _ _ _) _ ?w1] =>
      pose proof (send_live_plain env "quit" false w1 Hl eq_refl) as Hs
    end.
    rewrite (bind_Ok _ _ _ _ _ _ Hs), bind_get_eng. cbn [eng exe set_last_send set_have_quit].
    unfold engine_live in Hl. rewrite Hl. split; reflexivity.
  - intros He. rewrite shutdown_unfold.
    match goal with |- context [bind (send _ _ _) _ ?w1] =>
      assert (Hs : send env "quit" false w1 = Ok tt w1 [])
    end.
    { rewrite send_unqueued by reflexivity.
      change (startsWith (trim "quit") "setoption") with false. cbv iota.
      rewrite bind_ret, bind_get_eng. cbn [eng exe set_have_quit]. rewrite He. reflexivity. }
    rewrite (bind_Ok _ _ _ _ _ _ Hs), bind_get_eng. cbn [eng exe set_have_quit].
    rewrite He. reflexivity.
Qed.

(** A line from the engine after the user quit a running search. *)
Lemma shutdown_silences_listeners_witness :
  stdin_writes (trace_of (shutdown demo_env running_world)) = ["quit"; newline] /\
  kill_timers (trace_of (shutdown demo_env running_world)) = [2000%Z].
Proof.
  apply (shutdown_silences_listeners demo_env demo_env "bestmove e2e4" running_world).
  vm_compute. reflexivity.
Defined.

(** ** Options *)

(** A [setoption] line that is not queued and parses to a key and a value:
    the pair is stored and acknowledged, whatever the child process does
    with the line. *)
Lemma send_recorded env msg force w key val :
  startsWith (trim msg) "setoption" = true ->
  truthy (node (search_running (eng w))) && negb force = false ->
  parse_setoption (trim msg) = Some (key, val) ->
  exists e' tr,
    send env msg force w = Ok tt (mkWorld (heap w) (info_handler w) e') tr /\
    sent_options e' = <[key := val]> (sent_options (eng w)) /\
    setoption_queue e' = setoption_queue (eng w) /\
    untouched e' = untouched (eng w) /\
    acks_sent tr = [(key, val)] /\
    (engine_live (eng w) -> stdin_writes tr = [trim msg; newline]).
Proof.
  intros Hs Hq Hparse.
  destruct (send_ok env msg force w) as (e' & tr & H & Hu & _).
  exists e', tr. split; [exact H|].
  assert (Hfacts : sent_options (eng (world_of (send env msg force w))) =
                     <[key := val]> (sent_options (eng w)) /\
                   setoption_queue (eng (world_of (send env msg force w))) =
                     setoption_queue (eng w) /\
                   acks_sent (trace_of (send env msg force w)) = [(key, val)]).
  { rewrite send_unqueued by (rewrite Hs, Hq; reflexivity). rewrite Hs.
    pose proof (record_setoption_eq (trim msg) w) as Hrec. rewrite Hparse in Hrec.
    match type of Hrec with _ = Ok _ ?w1 _ => set (w1' := w1) in * end.
    assert (Hk : respects records_nothing
                   (bind get_eng (fun e =>
                      if truthy (exe e) then write_line env (trim msg) else ret tt))).
    { apply (respects_bind _ records_nothing_trans);
        [apply (respects_get_eng _ records_nothing_refl)|].
      intros e. destruct (truthy (exe e));
        [apply write_line_records | apply (respects_ret _ records_nothing_refl)]. }
    destruct (Hk w1') as (Ho & Hqq & Ha).
    rewrite (world_of_bind _ _ _ _ _ _ Hrec), (trace_of_bind _ _ _ _ _ _ Hrec).
    rewrite Ho, Hqq, acks_sent_app, Ha. repeat split. }
  rewrite H in Hfacts. cbn [world_of trace_of eng] in Hfacts.
  destruct Hfacts as (F1 & F2 & F3). repeat split; try assumption.
  intros Hl. destruct (send_live_writes env msg force w Hl) as (e2 & t2 & H2 & Hw & _).
  { rewrite Hq. apply andb_false_r. }
  rewrite H in H2. injection H2 as _ <-. exact Hw.
Qed.

(** When the engine announces the option [UCI_Chess960] and no search is
    running, the stdout listener switches it on at once: the driver is in
    960 mode afterwards and the host is told.  While a search runs the
    line is only queued, and the mode stays as it was until the queue is
    drained. *)
Theorem chess960_switched_on_when_offered env line w :
  have_quit (eng w) = false ->
  startsWith line "option" = true ->
  includes (toLowerCase line) "uci_chess960" = true ->
  let r := on_stdout_line env line w in
  (node (search_running (eng w)) = None ->
   in_960_mode (eng (world_of r)) = true /\
   acks_sent (trace_of r) = [("uci_chess960", "true")] /\
   (engine_live (eng w) ->
    stdin_writes (trace_of r) = ["setoption name UCI_Chess960 value true"; newline])) /\
  (node (search_running (eng w)) <> None ->
   in_960_mode (eng (world_of r)) = in_960_mode (eng w) /\
   setoption_queue (eng (world_of r)) =
     setoption_queue (eng w) ++ ["setoption name UCI_Chess960 value true"] /\
   stdin_writes (trace_of r) = []).
Proof.
  intros Hquit Hopt Hinc. cbv zeta.
  destruct (starts_option_only line Hopt) as (Hb & Hi & Hu & Hr).
  assert (Hunfold : on_stdout_line env line w =
            bind (emit (LogLine ("< " +:+ line)))
              (fun _ => bind (bind (setoption env "UCI_Chess960" "true") (fun _ => ret tt))
                 (fun _ => emit (HubReceiveMisc (SafeString env line)))) w).
  { unfold on_stdout_line. rewrite bind_get_eng, Hquit, Hb, Hi, Hopt, Hinc, Hu, Hr.
    cbn [andb]. unfold bind. destruct (setoption env "UCI_Chess960" "true" w);
      cbn; rewrite ?app_nil_r; reflexivity. }
  rewrite Hunfold.
  rewrite (bind_Ok _ _ w tt w [LogLine ("< " +:+ line)]) by reflexivity.
  unfold setoption. cbv zeta.
  change ("setoption name " +:+ "UCI_Chess960" +:+ " value " +:+ "true")
    with "setoption name UCI_Chess960 value true".
  split.
  - intros Hrun.
    destruct (send_recorded env "setoption name UCI_Chess960 value true" false w
                "uci_chess960" "true") as (e' & tr & H & Ho & _ & _ & Ha & Hw);
      [reflexivity | rewrite Hrun; reflexivity | reflexivity |].
    rewrite !bind_assoc, (bind_Ok _ _ _ _ _ _ H), !bind_ret.
    cbn [emit world_of trace_of eng]. split; [|split].
    + unfold in_960_mode. rewrite Ho, lookup_insert_eq. apply bool_decide_eq_true_2.
      reflexivity.
    + cbn [app acks_sent]. rewrite acks_sent_app, Ha. reflexivity.
    + intros Hl. cbn [app stdin_writes]. rewrite stdin_writes_app, (Hw Hl). reflexivity.
  - intros Hrun.
    rewrite !bind_assoc.
    rewrite (bind_Ok _ _ _ _ _ _
               (send_queued env "setoption name UCI_Chess960 value true" false w
                  eq_refl
                  ltac:(destruct (node (search_running (eng w)));
                        [reflexivity | congruence])
                  eq_refl)).
    rewrite !bind_ret. cbn [emit world_of trace_of eng]. repeat split.
Qed.

(** Scenario S6 of the protocol. *)
Lemma chess960_switched_on_when_offered_witness :
  in_960_mode (eng (world_of (on_stdout_line demo_env
     "option name UCI_Chess960 type check default false" ready_world))) = true.
Proof.
  apply (chess960_switched_on_when_offered demo_env
           "option name UCI_Chess960 type check default false" ready_world);
    vm_compute; reflexivity.
Defined.

(** An option that the table for the engine's variant suppresses is not
    sent: the registry is left alone, the host gets the value in force
    (the empty string if there is none) under the lower-cased name, and the
    caller the reason.  Any other option is handed to [setoption]. *)
Theorem maybe_setoption_suppressed_or_sent env name value w :
  (if leelaish (eng w)
   then suppressed_options_lc0 env (toLowerCase name)
   else suppressed_options_ab env (toLowerCase name)) = true /\
  maybe_setoption env name value w =
    Ok "Not sent, wrong engine type" w
      [IpcAckSetoption (toLowerCase name)
         (match sent_options (eng w) !! toLowerCase name with
          | Some v => v
          | None => EmptyString
          end)]
  \/
  (if leelaish (eng w)
   then suppressed_options_lc0 env (toLowerCase name)
   else suppressed_options_ab env (toLowerCase name)) = false /\
  maybe_setoption env name value w = setoption env name value w.
Proof.
  unfold maybe_setoption, maybe_setoption_fail_reason. rewrite bind_get_eng. cbv zeta.
  destruct (leelaish (eng w)); cbn [andb negb].
  - destruct (suppressed_options_lc0 env (toLowerCase name)); cbn [truthy_string].
    + left. split; [reflexivity|]. destruct w. reflexivity.
    + right. split; reflexivity.
  - destruct (suppressed_options_ab env (toLowerCase name)); cbn [truthy_string].
    + left. split; [reflexivity|]. destruct w. reflexivity.
    + right. split; reflexivity.
Qed.

(** Before both handshakes [set_search_desired] and [send_ucinewgame]
    return at once: the state is as it was and nothing reaches the engine
    or the hub, only the console.  After them [send_ucinewgame] writes its
    command on a live engine without touching the search fields. *)
Theorem premature_calls_do_nothing env nd lim moves w :
  (ever_received_uciok (eng w) = false \/ ever_received_readyok (eng w) = false ->
   set_search_desired env nd lim moves w =
     Ok tt w [ConsoleLog "set_search_desired() aborted - too early"] /\
   send_ucinewgame env w =
     Ok tt w [ConsoleLog "send_ucinewgame() aborted - too early"]) /\
  (ever_received_uciok (eng w) = true -> ever_received_readyok (eng w) = true ->
   engine_live (eng w) ->
   send_ucinewgame env w =
     Ok tt (mkWorld (heap w) (info_handler w) (set_last_send (Some "ucinewgame") (eng w)))
       [StdinWrite "ucinewgame"; StdinWrite newline; LogLine "--> ucinewgame"]).
Proof.
  split.
  - intros H.
    assert (He : negb (ever_received_uciok (eng w)) ||
                 negb (ever_received_readyok (eng w)) = true).
    { destruct H as [-> | ->]; [reflexivity | apply orb_true_r]. }
    split; [apply set_search_desired_early, He|].
    unfold send_ucinewgame. rewrite bind_get_eng, He. reflexivity.
  - intros Hu Hr Hl. unfold send_ucinewgame. rewrite bind_get_eng, Hu, Hr. cbn [negb orb].
    apply (send_live_plain env "ucinewgame" false w Hl eq_refl).
Qed.

(** Scenario S1 of the protocol: a request before [uciok]. *)
Lemma premature_calls_do_nothing_witness :
  set_search_desired demo_env (Some 0%nat) (Some 10000%Z) None fresh_world =
    Ok tt fresh_world [ConsoleLog "set_search_desired() aborted - too early"].
Proof.
  apply (premature_calls_do_nothing demo_env (Some 0%nat) (Some 10000%Z) None fresh_world).
  left. reflexivity.
Defined.

(** ** Failed writes *)

Lemma alerts_app t1 t2 : alerts (t1 ++ t2) = alerts t1 ++ alerts t2.
Proof.
  induction t1 as [|ev t1 IH]; [reflexivity|].
  destruct ev; simpl; rewrite ?IH; reflexivity.
Qed.

(** The [try] block when the first write throws. *)
Lemma write_line_broken env msg w :
  exe (eng w) = Some (mkChild (Some 0%nat)) ->
  write_line env msg w =
    if truthy (last_send (eng w)) && negb (warned_send_fail (eng w))
    then Ok tt (mkWorld (heap w) (info_handler w) (set_warned_send_fail true (eng w)))
           [LogLine ("(failed) --> " +:+ msg); Alert (messages_send_fail env)]
    else Ok tt w [LogLine ("(failed) --> " +:+ msg)].
Proof.
  intros He. unfold write_line, stdin_write. cbv [bind get_eng modify_eng emit ret].
  rewrite He. cbn. destruct (truthy (last_send (eng w)) && negb (warned_send_fail (eng w)));
    [reflexivity | destruct w; reflexivity].
Qed.

(** What the [try] block can do about alerts: none, or the one alert of a
    first failure after a success. *)
Lemma write_line_alerts env msg w :
  (alerts (trace_of (write_line env msg w)) = [] /\
   (warned_send_fail (eng w) = true ->
    warned_send_fail (eng (world_of (write_line env msg w))) = true)) \/
  (alerts (trace_of (write_line env msg w)) = [messages_send_fail env] /\
   warned_send_fail (eng w) = false /\ last_send (eng w) <> None /\
   warned_send_fail (eng (world_of (write_line env msg w))) = true).
Proof.
  unfold write_line, stdin_write. cbv [bind get_eng modify_eng emit ret].
  destruct (exe (eng w)) as [[[[|[|k]]|]]|] eqn:He; cbn; rewrite ?He; cbn; auto.
  - destruct (last_send (eng w)) eqn:Hl; cbn; [|auto].
    destruct (warned_send_fail (eng w)) eqn:Hw; cbn; [auto|].
    right. repeat split; congruence.
  - destruct (last_send (eng w)) eqn:Hl; cbn; [|auto].
    destruct (warned_send_fail (eng w)) eqn:Hw; cbn; [auto|].
    right. repeat split; congruence.
  - destruct (last_send (eng w)) eqn:Hl; cbn; [|auto].
    destruct (warned_send_fail (eng w)) eqn:Hw; cbn; [auto|].
    right. repeat split; congruence.
Qed.

(** [send] alerts the user at most once per call, and only of the first
    failed write that follows a successful one: it then sets
    [warned_send_fail], and with that flag set it never alerts.  When the
    pipe is broken nothing of the line is written, [last_send] keeps the
    last line that went through, and the failure is logged. *)
Theorem write_failure_alerts_once env msg force w :
  (alerts (trace_of (send env msg force w)) = [] /\
   (warned_send_fail (eng w) = true ->
    warned_send_fail (eng (world_of (send env msg force w))) = true) \/
   alerts (trace_of (send env msg force w)) = [messages_send_fail env] /\
   warned_send_fail (eng w) = false /\ last_send (eng w) <> None /\
   warned_send_fail (eng (world_of (send env msg force w))) = true) /\
  (exe (eng w) = Some (mkChild (Some 0%nat)) ->
   startsWith (trim msg) "setoption" &&
     (truthy (node (search_running (eng w))) && negb force) = false ->
   stdin_writes (trace_of (send env msg force w)) = [] /\
   last_send (eng (world_of (send env msg force w))) = last_send (eng w) /\
   In (LogLine ("(failed) --> " +:+ trim msg)) (trace_of (send env msg force w)) /\
   alerts (trace_of (send env msg force w)) =
     if truthy (last_send (eng w)) && negb (warned_send_fail (eng w))
     then [messages_send_fail env] else []).
Proof.
  destruct (startsWith (trim msg) "setoption" &&
            (truthy (node (search_running (eng w))) && negb force)) eqn:Hq.
  { apply andb_prop in Hq. destruct Hq as [Hs Hq]. apply andb_prop in Hq.
    destruct Hq as [Hrun Hf]. apply negb_true_iff in Hf.
    rewrite (send_queued env msg force w Hs Hrun Hf). cbn [trace_of world_of alerts eng].
    split; [left; auto | intros _ Hx; discriminate Hx]. }
  rewrite send_unqueued by exact Hq.
  assert (Hrec : exists e1 t1,
            (if startsWith (trim msg) "setoption"
             then record_setoption (trim msg) else ret tt) w =
              Ok tt (mkWorld (heap w) (info_handler w) e1) t1 /\
            alerts t1 = [] /\ stdin_writes t1 = [] /\
            exe e1 = exe (eng w) /\ last_send e1 = last_send (eng w) /\
            warned_send_fail e1 = warned_send_fail (eng w)).
  { destruct (startsWith (trim msg) "setoption").
    - rewrite record_setoption_eq. destruct (parse_setoption (trim msg)) as [[k v]|].
      + eexists; eexists. split; [reflexivity|]. repeat split.
      + exists (eng w), []. destruct w. repeat split.
    - exists (eng w), []. destruct w. repeat split. }
  destruct Hrec as (e1 & t1 & Hrec & Ha1 & Hw1 & He1 & Hl1 & Hwn1).
  rewrite (bind_Ok _ _ _ _ _ _ Hrec), bind_get_eng. cbn [eng]. set (w1 := mkWorld _ _ e1).
  split.
  - destruct (truthy (exe e1)).
    + pose proof (write_line_alerts env (trim msg) w1) as Hwl.
      destruct (write_line env (trim msg) w1) as [[] w2 t2|err w2 t2];
        cbn [world_of trace_of] in *; rewrite alerts_app, Ha1; cbn [app];
        unfold w1 in Hwl; cbn [eng] in Hwl; rewrite Hl1, Hwn1 in Hwl; exact Hwl.
    + cbn [ret world_of trace_of eng]. rewrite app_nil_r, Ha1. left. split; [reflexivity|].
      unfold w1. cbn [eng]. congruence.
  - intros He _. rewrite He1, He. cbn [truthy].
    assert (Hb : exe (eng w1) = Some (mkChild (Some 0%nat)))
      by (unfold w1; cbn [eng]; congruence).
    rewrite (write_line_broken env (trim msg) w1 Hb). unfold w1. cbn [eng].
    rewrite Hl1, Hwn1.
    destruct (truthy (last_send (eng w)) && negb (warned_send_fail (eng w)));
      cbn [world_of trace_of eng last_send set_warned_send_fail];
      rewrite ?stdin_writes_app, ?alerts_app, ?Hw1, ?Ha1; cbn [app stdin_writes alerts];
      (repeat split; [exact Hl1 | apply in_or_app; right; left; reflexivity]).
Qed.

(** The engine died after a command went through; the next command fails
    and the user is told. *)
Lemma write_failure_alerts_once_witness :
  alerts (trace_of (send demo_env "stop" false broken_world)) = ["send failed"] /\
  stdin_writes (trace_of (send demo_env "stop" false broken_world)) = [].
Proof.
  destruct (write_failure_alerts_once demo_env "stop" false broken_world) as [_ H].
  destruct H as (Hw & _ & _ & Ha); [reflexivity | reflexivity |].
  split; [exact Ha | exact Hw].
Defined.

(** ** Identity of searches *)

(** Two constructions from the same arguments give two objects: equal node
    and limit, searchmoves with equal elements, and still not the same
    object. *)
Theorem equal_searches_are_distinct_objects nds n lim moves h :
  heap_wf h ->
  (forall a, moves = Some a -> is_Some (arrays h !! a)) ->
  let p1 := fst (SearchParams_new nds (Some n) lim moves h) in
  let h1 := snd (SearchParams_new nds (Some n) lim moves h) in
  let p2 := fst (SearchParams_new nds (Some n) lim moves h1) in
  let h2 := snd (SearchParams_new nds (Some n) lim moves h1) in
  node p2 = node p1 /\ limit p2 = limit p1 /\
  array_elems h2 (searchmoves p2) = array_elems h2 (searchmoves p1) /\
  same_object p1 p2 = false /\
  searchmoves p1 <> searchmoves p2.
Proof.
  intros Hwf Hcaller.
  destruct (second_construction nds (Some n) lim moves h Hwf Hcaller)
    as (Hn & Hl & Ha & _).
  cbv zeta in *. repeat split; try assumption; try (symmetry; assumption).
  - rewrite (SearchParams_new_some nds n lim moves h). cbn [fst snd].
    rewrite SearchParams_new_some. unfold same_object. cbn [fst sp_loc next_loc].
    apply Nat.eqb_neq. lia.
  - rewrite (SearchParams_new_some nds n lim moves h). cbn [fst snd].
    rewrite SearchParams_new_some. cbn [fst searchmoves next_loc]. lia.
Qed.

Lemma equal_searches_are_distinct_objects_witness :
  same_object
    (fst (SearchParams_new demo_nodes (Some 0%nat) (Some 10000%Z) (Some 2%nat) caller_heap))
    (fst (SearchParams_new demo_nodes (Some 0%nat) (Some 10000%Z) (Some 2%nat)
            (snd (SearchParams_new demo_nodes (Some 0%nat) (Some 10000%Z) (Some 2%nat)
                    caller_heap)))) = false.
Proof.
  apply (equal_searches_are_distinct_objects demo_nodes 0%nat (Some 10000%Z) (Some 2%nat)
           caller_heap).
  - apply alloc_array_wf, initial_heap_wf.
  - intros a Ha. injection Ha as <-. vm_compute. eauto.
Defined.

(** While a search runs, a call after the handshakes keeps the running and
    the completed search and leaves the desired search as it was (the
    request matched) or makes it the new object. *)
Lemma set_search_desired_while_running env nd lim moves w :
  ever_received_uciok (eng w) = true ->
  ever_received_readyok (eng w) = true ->
  truthy (node (search_running (eng w))) = true ->
  let p1 := fst (SearchParams_new (nodes env) nd lim moves (heap w)) in
  let h1 := snd (SearchParams_new (nodes env) nd lim moves (heap w)) in
  let w1 := world_of (set_search_desired env nd lim moves w) in
  heap w1 = h1 /\
  info_handler w1 = info_handler w /\
  ever_received_uciok (eng w1) = true /\
  ever_received_readyok (eng w1) = true /\
  search_running (eng w1) = search_running (eng w) /\
  search_completed (eng w1) = search_completed (eng w) /\
  (search_desired (eng w1) = p1 \/
   search_desired (eng w1) = search_desired (eng w) /\
   node (search_desired (eng w)) = node p1 /\ limit (search_desired (eng w)) = limit p1) /\
  bestmoves_forwarded (trace_of (set_search_desired env nd lim moves w)) = [].
Proof.
  intros Hu Hr Hrun. cbv zeta. rewrite set_search_desired_unfold by assumption. cbv zeta.
  destruct (_ && _) eqn:Htest.
  - cbn [world_of trace_of heap info_handler eng]. repeat split; try assumption.
    right. apply andb_prop in Htest. destruct Htest as [Hn Htest].
    apply andb_prop in Htest. destruct Htest as [Hl _].
    apply bool_decide_eq_true in Hn, Hl. auto.
  - rewrite Hrun.
    match goal with |- context [bind (send _ _ _) _ ?w2] =>
      destruct (send_ok env "stop" false w2) as (e' & tr & Hs & Hun & Hb & _)
    end.
    rewrite (bind_Ok _ _ _ _ _ _ Hs), bind_get_eng. cbn [eng heap info_handler] in *.
    unfold untouched in Hun. injection Hun as _ _ _ H4 H5 _ _ _ H9 H10 H11.
    cbn in H4, H5, H9, H10, H11. rewrite Hu in H4. rewrite Hr in H5.
    destruct (negb _);
      cbn [world_of trace_of heap info_handler eng modify_eng ret
           set_unresolved_stop_time search_running search_desired search_completed
           ever_received_uciok ever_received_readyok];
      rewrite app_nil_r; repeat split; auto.
Qed.

(** The branch "ignore old" of [handle_bestmove_line]: the desired search
    is another object than the one that ran, and has a node. *)
Lemma handle_bestmove_line_relaunch env line w n :
  same_object (search_desired (eng w)) (search_running (eng w)) = false ->
  node (search_desired (eng w)) = Some n ->
  bestmoves_forwarded (trace_of (handle_bestmove_line env line w)) = [] /\
  (destroyed (nodes env n) = false -> terminal_reason (nodes env n) = EmptyString ->
   search_running (eng (world_of (handle_bestmove_line env line w))) =
     search_desired (eng w) /\
   search_desired (eng (world_of (handle_bestmove_line env line w))) =
     search_desired (eng w)).
Proof.
  intros Hsame Hn. rewrite handle_bestmove_line_unfold. cbv zeta.
  rewrite Hsame, Hn. cbn [truthy negb orb].
  match goal with |- context [bind _ _ ?w0] =>
    rewrite (bind_Ok _ _ w0 tt w0 [LogLine ("(ignore old) < " +:+ line)]) by reflexivity;
    destruct (send_queued_setoptions_ok env w0) as (e' & tr & Hd & Hu & _ & Hb & _)
  end.
  rewrite (bind_Ok _ _ _ _ _ _ Hd). cbn [eng heap info_handler] in *.
  unfold untouched in Hu. injection Hu as _ _ _ _ _ _ _ _ Hrun Hdes _.
  cbn in Hrun, Hdes.
  set (w2 := mkWorld (heap w) (info_handler w) e').
  assert (Hrun2 : node (search_running (eng w2)) = None)
    by (unfold w2; cbn [eng]; rewrite Hrun; reflexivity).
  assert (Hdes2 : node (search_desired (eng w2)) = Some n)
    by (unfold w2; cbn [eng]; rewrite Hdes; exact Hn).
  split.
  - destruct (send_desired_quiet env w2) as (_ & _ & Hb2 & _).
    destruct (send_desired env w2) as [[] w3 t3|err w3 t3]; cbn [trace_of] in *;
      cbn [app bestmoves_forwarded]; rewrite bestmoves_forwarded_app, Hb, Hb2; reflexivity.
  - intros Hdn Htn.
    destruct (send_desired_launch env w2 n Hrun2 Hdes2 Hdn Htn) as (e2 & tr2 & Hs & Hu2 & _).
    rewrite Hs. cbn [world_of eng]. unfold untouched in Hu2. unfold w2 in Hu2 |- *.
    cbn [eng] in Hu2 |- *. injection Hu2 as _ _ _ _ _ _ _ _ _ Hdes3 _.
    cbn. split; congruence.
Qed.

(** The case the source comments on: a halt followed at once by a resume.
    While a search runs the hub asks for no search and then for a search
    again, be it with the very parameters of the running one.  The desired
    search is then a new object, so the [bestmove] that answers the stop is
    not passed to the hub, and the new object becomes the running search if
    its node can be searched. *)
Theorem halt_then_resume_starts_fresh_search env n lim moves line w :
  ever_received_uciok (eng w) = true ->
  ever_received_readyok (eng w) = true ->
  node (search_running (eng w)) <> None ->
  (sp_loc (search_running (eng w)) < next_loc (heap w))%nat ->
  let w1 := world_of (set_search_desired env None None None w) in
  let w2 := world_of (set_search_desired env (Some n) lim moves w1) in
  let r := handle_bestmove_line env line w2 in
  node (search_desired (eng w1)) = None /\
  node (search_desired (eng w2)) = Some n /\
  limit (search_desired (eng w2)) = lim /\
  search_running (eng w2) = search_running (eng w) /\
  same_object (search_desired (eng w2)) (search_running (eng w)) = false /\
  bestmoves_forwarded (trace_of r) = [] /\
  (destroyed (nodes env n) = false -> terminal_reason (nodes env n) = EmptyString ->
   search_running (eng (world_of r)) = search_desired (eng w2)).
Proof.
  intros Hu Hr Hrun Hid. cbv zeta.
  assert (Hrunb : truthy (node (search_running (eng w))) = true)
    by (destruct (node (search_running (eng w))); [reflexivity | congruence]).
  pose proof (set_search_desired_while_running env None None None w Hu Hr Hrunb) as H1.
  cbv zeta in H1. cbn [SearchParams_new fst snd] in H1.
  set (w1 := world_of (set_search_desired env None None None w)) in *.
  destruct H1 as (Hh1 & _ & Hu1 & Hr1 & Hrun1 & _ & Hd1 & _).
  assert (Hnode1 : node (search_desired (eng w1)) = None).
  { destruct Hd1 as [-> | (-> & Hn & _)]; [reflexivity | exact Hn]. }
  assert (Hrunb1 : truthy (node (search_running (eng w1))) = true) by (rewrite Hrun1; exact Hrunb).
  pose proof (set_search_desired_while_running env (Some n) lim moves w1 Hu1 Hr1 Hrunb1) as H2.
  cbv zeta in H2. rewrite SearchParams_new_some in H2. cbn [fst snd] in H2.
  set (w2 := world_of (set_search_desired env (Some n) lim moves w1)) in *.
  destruct H2 as (Hh2 & _ & _ & _ & Hrun2 & _ & Hd2 & _).
  assert (Hdes2 : search_desired (eng w2) =
                    mkSearchParams (S (next_loc (heap w1))) (Some n) lim (next_loc (heap w1))).
  { destruct Hd2 as [Hd2 | (_ & Hn & _)]; [exact Hd2|].
    rewrite Hnode1 in Hn. discriminate Hn. }
  assert (Hsame : same_object (search_desired (eng w2)) (search_running (eng w)) = false).
  { rewrite Hdes2. unfold same_object. cbn [sp_loc]. apply Nat.eqb_neq.
    rewrite Hh1. lia. }
  split; [exact Hnode1|]. rewrite Hdes2 at 1 2. cbn [node limit].
  split; [reflexivity|]. split; [reflexivity|]. split; [congruence|].
  split; [exact Hsame|].
  assert (Hsame2 : same_object (search_desired (eng w2)) (search_running (eng w2)) = false)
    by (rewrite Hrun2, Hrun1; exact Hsame).
  assert (Hn2 : node (search_desired (eng w2)) = Some n) by (rewrite Hdes2; reflexivity).
  destruct (handle_bestmove_line_relaunch env line w2 n Hsame2 Hn2) as [Hfwd Hlaunch].
  split; [exact Hfwd|]. intros Hd Ht. apply (Hlaunch Hd Ht).
Qed.

(** The hub halts the search of node 0 and asks for it again with the same
    limit; the answer to the stop is kept from the hub. *)
Lemma halt_then_resume_starts_fresh_search_witness :
  bestmoves_forwarded
    (trace_of (handle_bestmove_line demo_env "bestmove e2e4"
       (world_of (set_search_desired demo_env (Some 0%nat) (Some 10000%Z) None
          (world_of (set_search_desired demo_env None None None running_world)))))) = [].
Proof.
  apply (halt_then_resume_starts_fresh_search demo_env 0%nat (Some 10000%Z) None
           "bestmove e2e4" running_world).
  - reflexivity.
  - reflexivity.
  - vm_compute. discriminate.
  - vm_compute. lia.
Defined.

(** ** Nodes that cannot be searched *)

(** The hub asks an idle driver for a node that is destroyed or terminal:
    nothing is sent or logged, the counters stay, and the driver is idle
    again with both searches [NoSearch]. *)
Theorem unsearchable_node_is_abandoned env n lim moves w :
  ever_received_uciok (eng w) = true ->
  ever_received_readyok (eng w) = true ->
  node (search_running (eng w)) = None ->
  node (search_desired (eng w)) = None ->
  destroyed (nodes env n) = true \/ terminal_reason (nodes env n) <> EmptyString ->
  let r := set_search_desired env (Some n) lim moves w in
  returned r = true /\ trace_of r = [] /\
  info_handler (world_of r) = info_handler w /\
  search_running (eng (world_of r)) = NoSearch /\
  search_desired (eng (world_of r)) = NoSearch.
Proof.
  intros Hu Hr Hrun Hdes Hbad. cbv zeta.
  rewrite set_search_desired_unfold by assumption. cbv zeta.
  rewrite SearchParams_new_some. cbn [fst snd node]. rewrite Hdes.
  rewrite (bool_decide_eq_false_2 (None = Some n)) by discriminate. cbn [andb].
  rewrite Hrun. cbn [truthy].
  rewrite send_desired_abandon; [repeat split | exact Hrun | exact Hbad].
Qed.

(** Node 5 of the demonstration tree is destroyed. *)
Lemma unsearchable_node_is_abandoned_witness :
  trace_of (set_search_desired demo_env (Some 5%nat) (Some 10000%Z) None ready_world) = [] /\
  search_desired (eng (world_of (set_search_desired demo_env (Some 5%nat) (Some 10000%Z)
                                   None ready_world))) = NoSearch.
Proof.
  destruct (unsearchable_node_is_abandoned demo_env 5%nat (Some 10000%Z) None ready_world)
    as (_ & Ht & _ & _ & Hd); try reflexivity.
  - left. reflexivity.
  - split; [exact Ht | exact Hd].
Defined.

(** ** Deferred options are recorded when the queue is drained *)

(** A forced [send] of a [setoption] line, on any engine: the registry
    gains the pair the line parses to, if any, and that pair is
    acknowledged. *)
Lemma send_forced_bookkeeping env msg w :
  startsWith (trim msg) "setoption" = true ->
  exists e' tr,
    send env msg true w = Ok tt (mkWorld (heap w) (info_handler w) e') tr /\
    sent_options e' = store_pairs (recorded_pairs [msg]) (sent_options (eng w)) /\
    acks_sent tr = recorded_pairs [msg] /\
    untouched e' = untouched (eng w).
Proof.
  intros Hs. unfold recorded_pairs, store_pairs. cbn [omap list_omap].
  destruct (parse_setoption (trim msg)) as [[k v]|] eqn:Hp.
  - destruct (send_recorded env msg true w k v Hs) as (e' & tr & H & Ho & _ & Hu & Ha & _);
      [apply andb_false_r | exact Hp |].
    exists e', tr. cbn [fold_left fst snd].
    split; [exact H|]. split; [exact Ho|]. split; [exact Ha | exact Hu].
  - destruct (send_ok env msg true w) as (e' & tr & H & Hu & _).
    exists e', tr. split; [exact H|].
    assert (Hfacts : sent_options (eng (world_of (send env msg true w))) =
                       sent_options (eng w) /\
                     acks_sent (trace_of (send env msg true w)) = []).
    { rewrite send_unqueued by (rewrite andb_false_r, andb_false_r; reflexivity).
      rewrite Hs. pose proof (record_setoption_eq (trim msg) w) as Hrec.
      rewrite Hp in Hrec.
      assert (Hk : respects records_nothing
                     (bind get_eng (fun e =>
                        if truthy (exe e) then write_line env (trim msg) else ret tt))).
      { apply (respects_bind _ records_nothing_trans);
          [apply (respects_get_eng _ records_nothing_refl)|].
        intros e. destruct (truthy (exe e));
          [apply write_line_records | apply (respects_ret _ records_nothing_refl)]. }
      destruct (Hk w) as (Ho & _ & Ha).
      rewrite (world_of_bind _ _ _ _ _ _ Hrec), (trace_of_bind _ _ _ _ _ _ Hrec).
      cbn [app]. rewrite Ho, Ha. split; reflexivity. }
    rewrite H in Hfacts. cbn [world_of trace_of eng] in Hfacts.
    destruct Hfacts as [F1 F2]. cbn [fold_left].
    split; [exact F1|]. split; [exact F2 | exact Hu].
Qed.

Lemma drain_loop_bookkeeping env q : forall w,
  Forall (fun m => trim m = m /\ startsWith m "setoption" = true) q ->
  exists e' tr,
    for_each q (fun m => send env m true) w =
      Ok tt (mkWorld (heap w) (info_handler w) e') tr /\
    sent_options e' = store_pairs (recorded_pairs q) (sent_options (eng w)) /\
    acks_sent tr = recorded_pairs q /\
    untouched e' = untouched (eng w).
Proof.
  induction q as [|m q IH]; intros w Hq.
  - exists (eng w), []. destruct w. repeat split.
  - apply Forall_cons in Hq. destruct Hq as [[Htrim Hs] Hq].
    destruct (send_forced_bookkeeping env m w) as (e1 & t1 & H1 & Ho1 & Ha1 & Hu1);
      [rewrite Htrim; exact Hs|].
    destruct (IH (mkWorld (heap w) (info_handler w) e1) Hq) as (e2 & t2 & H2 & Ho2 & Ha2 & Hu2).
    exists e2, (t1 ++ t2). cbn [for_each]. rewrite (bind_Ok _ _ _ _ _ _ H1), H2.
    cbn [heap info_handler eng] in *. split; [reflexivity|].
    rewrite acks_sent_app, Ha1, Ha2, Ho2, Ho1.
    unfold recorded_pairs, store_pairs. cbn [omap list_omap].
    destruct (parse_setoption (trim m)) as [[k v]|]; cbn [fold_left fst snd app];
      repeat split; congruence.
Qed.

(** Whatever the child process does, draining the queue of a driver leaves
    the queue empty and records every deferred option: the registry gains,
    first to last, the pairs that the queued lines parse to, and exactly
    these pairs are acknowledged, in queue order.  The search fields and
    flags are not touched. *)
Theorem drained_options_are_recorded env w :
  queue_wf (eng w) ->
  let r := send_queued_setoptions env w in
  returned r = true /\
  setoption_queue (eng (world_of r)) = [] /\
  sent_options (eng (world_of r)) =
    store_pairs (recorded_pairs (setoption_queue (eng w))) (sent_options (eng w)) /\
  acks_sent (trace_of r) = recorded_pairs (setoption_queue (eng w)) /\
  untouched (eng (world_of r)) = untouched (eng w).
Proof.
  intros Hq. cbv zeta. unfold send_queued_setoptions. rewrite bind_get_eng.
  destruct (drain_loop_bookkeeping env (setoption_queue (eng w)) w Hq)
    as (e' & tr & H & Ho & Ha & Hu).
  rewrite (bind_Ok _ _ _ _ _ _ H). cbv [modify_eng].
  cbn [returned world_of trace_of eng heap info_handler setoption_queue sent_options
       set_setoption_queue].
  rewrite app_nil_r. repeat split; assumption.
Qed.

(** The option deferred in scenario S5 is recorded by the drain. *)
Lemma drained_options_are_recorded_witness :
  sent_options (eng (world_of (send_queued_setoptions demo_env queued_world))) !! "threads"
    = Some "4" /\
  acks_sent (trace_of (send_queued_setoptions demo_env queued_world)) = [("threads", "4")].
Proof.
  destruct (drained_options_are_recorded demo_env queued_world) as (_ & _ & Ho & Ha & _).
  - unfold queue_wf. vm_compute. repeat constructor.
  - split; [rewrite Ho | rewrite Ha]; vm_compute; reflexivity.
Defined.

(** ** Lines that are neither [bestmove] nor [info] *)

Lemma misc_forwarded_app t1 t2 :
  misc_forwarded (t1 ++ t2) = misc_forwarded t1 ++ misc_forwarded t2.
Proof.
  induction t1 as [|ev t1 IH]; [reflexivity|].
  destruct ev; simpl; rewrite ?IH; reflexivity.
Qed.

Lemma send_no_misc env msg force w :
  misc_forwarded (trace_of (send env msg force w)) = [].
Proof.
  revert w.
  change (respects (fun _ _ tr => misc_forwarded tr = []) (send env msg force)).
  unfold send, record_setoption, write_line, stdin_write,
    send_ack_setoption_to_main_process. cbv zeta.
  walk (fun w : World => @eq_refl _ (misc_forwarded []))
       (fun (w1 w2 w3 : World) t1 t2 (H1 : misc_forwarded t1 = [])
            (H2 : misc_forwarded t2 = []) =>
          eq_trans (misc_forwarded_app t1 t2)
            (eq_trans (f_equal2 (@app string) H1 H2) eq_refl))
       ltac:(intros ?w; reflexivity).
Qed.

(** The listeners' own part, up to and with the call of the hub.  Before a
    quit, a stdout line that is neither a [bestmove] nor an [info] line is
    handed to the hub's [receive_misc] once, through [SafeString]; [uciok]
    and [readyok] set their flags on the way; no [bestmove] or [info]
    callback is made, and unless the line offers an option nothing is
    written.  A stderr line is logged and handed to [err_receive], through
    [SafeString], with the state as it was. *)
Lemma listeners_own_part env line w :
  have_quit (eng w) = false ->
  (startsWith line "bestmove" = false -> startsWith line "info" = false ->
   let r := on_stdout_line env line w in
   misc_forwarded (trace_of r) = [SafeString env line] /\
   bestmoves_forwarded (trace_of r) = [] /\ infos_forwarded (trace_of r) = [] /\
   ever_received_uciok (eng (world_of r)) =
     ever_received_uciok (eng w) || startsWith line "uciok" /\
   ever_received_readyok (eng (world_of r)) =
     ever_received_readyok (eng w) || startsWith line "readyok" /\
   (startsWith line "option" = false -> stdin_writes (trace_of r) = [])) /\
  on_stderr_line env line w =
    Ok tt w [LogLine (". " +:+ line); HubErrReceive (SafeString env line)].
Proof.
  intros Hquit. split.
  2:{ unfold on_stderr_line. rewrite bind_get_eng, Hquit. destruct w. reflexivity. }
  intros Hb Hi. cbv zeta. unfold on_stdout_line. rewrite bind_get_eng, Hquit, Hb, Hi.
  rewrite (bind_Ok _ _ w tt w [LogLine ("< " +:+ line)]) by reflexivity.
  assert (Hopt : exists e1 t1,
            (if startsWith line "option" && includes (toLowerCase line) "uci_chess960"
             then bind (setoption env "UCI_Chess960" "true") (fun _ => ret tt)
             else ret tt) w = Ok tt (mkWorld (heap w) (info_handler w) e1) t1 /\
            untouched e1 = untouched (eng w) /\
            bestmoves_forwarded t1 = [] /\ infos_forwarded t1 = [] /\
            misc_forwarded t1 = [] /\
            (startsWith line "option" = false -> stdin_writes t1 = [])).
  { destruct (startsWith line "option") eqn:Ho; cbn [andb].
    2:{ exists (eng w), []. destruct w. repeat split. }
    destruct (includes (toLowerCase line) "uci_chess960").
    2:{ exists (eng w), []. destruct w. repeat split. }
    unfold setoption. cbv zeta.
    match goal with |- context [send env ?m false] =>
      destruct (send_ok env m false w) as (e1 & t1 & Hs & Hu & Hbm & Him & Hw & _);
      pose proof (send_writes env m false w) as Hwr
    end.
    rewrite !bind_assoc, (bind_Ok _ _ _ _ _ _ Hs), !bind_ret.
    exists e1, (t1 ++ []). split; [reflexivity|]. rewrite app_nil_r.
    repeat split; try assumption; [|intros Hx; discriminate Hx].
    match type of Hs with
    | send env ?m false w = _ => pose proof (send_no_misc env m false w) as Hnm
    end.
    rewrite Hs in Hnm. exact Hnm. }
  destruct Hopt as (e1 & t1 & Hopt & Hu & Hbm & Him & Hmisc & Hw).
  rewrite (bind_Ok _ _ _ _ _ _ Hopt).
  unfold untouched in Hu. injection Hu as _ _ _ Huci Hready _ _ _ _ _ _.
  destruct (startsWith line "uciok"), (startsWith line "readyok");
    cbv [bind modify_eng emit ret];
    cbn [world_of trace_of eng heap info_handler ever_received_uciok ever_received_readyok
         set_ever_received_uciok set_ever_received_readyok];
    rewrite ?app_nil_l, ?app_nil_r; cbn [app misc_forwarded bestmoves_forwarded
      infos_forwarded stdin_writes];
    rewrite ?bestmoves_forwarded_app, ?infos_forwarded_app, ?stdin_writes_app,
      ?Hbm, ?Him, ?Huci, ?Hready, ?orb_true_r, ?orb_false_r;
    cbn [app misc_forwarded bestmoves_forwarded infos_forwarded stdin_writes];
    rewrite ?misc_forwarded_app, ?Hmisc; repeat split; auto;
    intros Hx; rewrite (Hw Hx); reflexivity.
Qed.


(** ** Option lines as [setoption] and [pressbutton] build them *)

(** A line out of which [send] reads no option: the registry is as it was
    and nothing is acknowledged, whether the line is queued or written. *)
Lemma send_unrecorded env msg w :
  parse_setoption (trim msg) = None ->
  exists e' tr,
    send env msg false w = Ok tt (mkWorld (heap w) (info_handler w) e') tr /\
    sent_options e' = sent_options (eng w) /\
    acks_sent tr = [] /\
    untouched e' = untouched (eng w) /\
    (startsWith (trim msg) "setoption" = true ->
     truthy (node (search_running (eng w))) = true ->
     setoption_queue e' = setoption_queue (eng w) ++ [trim msg] /\ stdin_writes tr = []) /\
    (truthy (node (search_running (eng w))) = false ->
     setoption_queue e' = setoption_queue (eng w) /\
     (engine_live (eng w) -> stdin_writes tr = [trim msg; newline])).
Proof.
  intros Hp.
  destruct (startsWith (trim msg) "setoption" &&
            (truthy (node (search_running (eng w))) && negb false)) eqn:Hq.
  - apply andb_prop in Hq as [Hs Hr]. rewrite andb_true_r in Hr.
    rewrite (send_queued env msg false w Hs Hr eq_refl).
    eexists; eexists; split; [reflexivity|].
    repeat split; intros; congruence.
  - destruct (send_ok env msg false w) as (e' & tr & H & Hu & _).
    exists e', tr. split; [exact H|].
    assert (Hrec : records_nothing w (world_of (send env msg false w))
                     (trace_of (send env msg false w))).
    { rewrite send_unqueued by exact Hq.
      assert (Hfirst : (if startsWith (trim msg) "setoption"
                        then record_setoption (trim msg) else ret tt) w = Ok tt w []).
      { destruct (startsWith (trim msg) "setoption");
          [rewrite record_setoption_eq, Hp|]; reflexivity. }
      rewrite (world_of_bind _ _ _ _ _ _ Hfirst), (trace_of_bind _ _ _ _ _ _ Hfirst).
      cbn [app].
      apply (respects_bind _ records_nothing_trans);
        [apply (respects_get_eng _ records_nothing_refl)|].
      intros e. destruct (truthy (exe e));
        [apply write_line_records | apply (respects_ret _ records_nothing_refl)]. }
    rewrite H in Hrec. destruct Hrec as (Ho & Hqu & Ha). cbn [world_of trace_of eng] in *.
    split; [exact Ho|]. split; [exact Ha|]. split; [exact Hu|]. split.
    + intros Hs Hr. rewrite Hs, Hr in Hq. discriminate Hq.
    + intros _. split; [exact Hqu|]. intros Hlive.
      destruct (send_live_writes env msg false w Hlive Hq) as (e2 & t2 & H2 & Hw & _).
      rewrite H in H2. injection H2 as _ <-. exact Hw.
Qed.

Lemma send_in_setoption env name value w :
  setoption env name value w =
    bind (send env ("setoption name " +:+ name +:+ " value " +:+ value) false)
         (fun _ => ret ("setoption name " +:+ name +:+ " value " +:+ value)) w.
Proof. reflexivity. Qed.

Lemma startsWith_setoption_line s :
  startsWith (trim ("setoption name " +:+ s)) "setoption" = true.
Proof. apply startsWith_trim; [repeat split; reflexivity | reflexivity]. Qed.

(** [setoption] and a later acknowledgement agree.  [send] finds the word
    "value" in the lower-cased line and cuts the value out of the line as
    given at that index, so the two must line up: the name is one whose
    lower-casing keeps its length, as every name of 8-bit code units does.
    While no search runs, for such a name that does not contain the word
    "value" and a value that is trimmed and not empty, [setoption] stores
    the value under the trimmed name in lower case, acknowledges that pair,
    returns the line it built and, on a live engine, writes that line; an
    acknowledgement asked for afterwards under the name in any letter case
    reports the same value. *)
Theorem setoption_round_trip env name value w :
  truthy (node (search_running (eng w))) = false ->
  String.length (toLowerCase name) = String.length name ->
  includes (toLowerCase name) "value" = false ->
  trim name <> EmptyString ->
  trim value = value -> value <> EmptyString ->
  let line := "setoption name " +:+ name +:+ " value " +:+ value in
  let key := toLowerCase (trim name) in
  let r := setoption env name value w in
  r = Ok line (world_of r) (trace_of r) /\
  sent_options (eng (world_of r)) = <[key := value]> (sent_options (eng w)) /\
  acks_sent (trace_of r) = [(key, value)] /\
  untouched (eng (world_of r)) = untouched (eng w) /\
  (engine_live (eng w) -> stdin_writes (trace_of r) = [line; newline]) /\
  (forall asked, toLowerCase asked = key ->
     send_ack_setoption_to_main_process asked (world_of r) =
       Ok (key, value) (world_of r) [IpcAckSetoption key value]).
Proof.
  intros Hidle _ Hinc Hname Hv Hne line key r.
  pose proof (trim_setoption_line name value Hv Hne) as Htrim. fold line in Htrim.
  pose proof (parse_setoption_named name value Hinc Hname) as Hparse.
  fold line in Hparse. rewrite Hv in Hparse. fold key in Hparse.
  destruct (send_recorded env line false w key value) as
    (e' & tr & H & Ho & _ & Hu & Ha & Hw).
  { apply startsWith_setoption_line. }
  { rewrite Hidle. reflexivity. }
  { rewrite Htrim. exact Hparse. }
  assert (Hr : r = Ok line (mkWorld (heap w) (info_handler w) e') tr).
  { unfold r. rewrite send_in_setoption. fold line. rewrite (bind_Ok _ _ _ _ _ _ H).
    cbv [ret]. rewrite app_nil_r. reflexivity. }
  rewrite Hr. cbn [world_of trace_of eng].
  split; [reflexivity|]. split; [exact Ho|]. split; [exact Ha|]. split; [exact Hu|].
  split; [intros Hl; rewrite (Hw Hl), Htrim; reflexivity|].
  intros asked Hasked. rewrite ack_eq. cbv zeta. cbn [eng].
  rewrite Hasked, Ho, lookup_insert_eq. reflexivity.
Qed.

(** The thread count, on a driver that has launched nothing. *)
Lemma setoption_round_trip_witness :
  sent_options (eng (world_of (setoption demo_env "Threads" "4" fresh_world))) =
    <["threads" := "4"]> (sent_options (eng fresh_world)) /\
  acks_sent (trace_of (setoption demo_env "Threads" "4" fresh_world)) = [("threads", "4")].
Proof.
  destruct (setoption_round_trip demo_env "Threads" "4" fresh_world)
    as (_ & Ho & Ha & _); [reflexivity | reflexivity | reflexivity | discriminate
                           | reflexivity | discriminate |].
  split; [exact Ho | exact Ha].
Defined.

(** An option whose name begins with the word "value" (in any letter case)
    is never recorded: whatever its value and whether or not a search runs,
    [setoption] leaves the registry as it was and acknowledges nothing,
    although with no search running a live engine is sent the line. *)
Theorem name_beginning_with_value_is_not_recorded env name value w :
  startsWith (toLowerCase name) "value" = true ->
  let line := "setoption name " +:+ name +:+ " value " +:+ value in
  let r := setoption env name value w in
  r = Ok line (world_of r) (trace_of r) /\
  sent_options (eng (world_of r)) = sent_options (eng w) /\
  acks_sent (trace_of r) = [] /\
  (truthy (node (search_running (eng w))) = false -> engine_live (eng w) ->
   stdin_writes (trace_of r) = [trim line; newline]).
Proof.
  intros Hname line r.
  destruct (send_unrecorded env line w) as (e' & tr & H & Ho & Ha & _ & _ & Hw).
  { apply parse_setoption_value_first. apply value_first_line. exact Hname. }
  assert (Hr : r = Ok line (mkWorld (heap w) (info_handler w) e') tr).
  { unfold r. rewrite send_in_setoption. fold line. rewrite (bind_Ok _ _ _ _ _ _ H).
    cbv [ret]. rewrite app_nil_r. reflexivity. }
  rewrite Hr. cbn [world_of trace_of eng].
  split; [reflexivity|]. split; [exact Ho|]. split; [exact Ha|].
  intros Hidle Hlive. apply (Hw Hidle). exact Hlive.
Qed.

(** An option called [ValueNetwork]. *)
Lemma name_beginning_with_value_is_not_recorded_witness :
  sent_options (eng (world_of (setoption demo_env "ValueNetwork" "on" ready_world))) =
    sent_options (eng ready_world) /\
  acks_sent (trace_of (setoption demo_env "ValueNetwork" "on" ready_world)) = [] /\
  stdin_writes (trace_of (setoption demo_env "ValueNetwork" "on" ready_world)) =
    ["setoption name ValueNetwork value on"; newline].
Proof.
  destruct (name_beginning_with_value_is_not_recorded demo_env "ValueNetwork" "on"
              ready_world eq_refl) as (_ & Ho & Ha & Hw).
  split; [exact Ho|]. split; [exact Ha|]. apply Hw; reflexivity.
Defined.

(** [pressbutton] records nothing.  For a trimmed, non-empty name that does
    not contain the word "value", the registry is as it was and nothing is
    acknowledged; the line is returned; while a search runs it joins the
    queue and nothing is written, otherwise a live engine is sent it. *)
Theorem pressbutton_records_nothing env name w :
  includes (toLowerCase name) "value" = false ->
  trim name = name -> name <> EmptyString ->
  let line := "setoption name " +:+ name in
  let r := pressbutton env name w in
  r = Ok line (world_of r) (trace_of r) /\
  sent_options (eng (world_of r)) = sent_options (eng w) /\
  acks_sent (trace_of r) = [] /\
  (truthy (node (search_running (eng w))) = true ->
   setoption_queue (eng (world_of r)) = setoption_queue (eng w) ++ [line] /\
   stdin_writes (trace_of r) = []) /\
  (truthy (node (search_running (eng w))) = false ->
   setoption_queue (eng (world_of r)) = setoption_queue (eng w) /\
   (engine_live (eng w) -> stdin_writes (trace_of r) = [line; newline])).
Proof.
  intros Hinc Ht Hne line r.
  pose proof (trim_button_line name Ht Hne) as Htrim. fold line in Htrim.
  destruct (send_unrecorded env line w) as (e' & tr & H & Ho & Ha & _ & Hq & Hw).
  { rewrite Htrim. apply parse_setoption_button. exact Hinc. }
  assert (Hr : r = Ok line (mkWorld (heap w) (info_handler w) e') tr).
  { unfold r, pressbutton. fold line. rewrite (bind_Ok _ _ _ _ _ _ H).
    cbv [ret]. rewrite app_nil_r. reflexivity. }
  rewrite Hr. cbn [world_of trace_of eng]. rewrite Htrim in Hq, Hw.
  split; [reflexivity|]. split; [exact Ho|]. split; [exact Ha|].
  split; [|exact Hw].
  apply Hq. rewrite <- Htrim. apply startsWith_setoption_line.
Qed.

(** Clearing the hash while a search runs. *)
Lemma pressbutton_records_nothing_witness :
  setoption_queue (eng (world_of (pressbutton demo_env "Clear Hash" running_world))) =
    setoption_queue (eng running_world) ++ ["setoption name Clear Hash"] /\
  acks_sent (trace_of (pressbutton demo_env "Clear Hash" running_world)) = [].
Proof.
  destruct (pressbutton_records_nothing demo_env "Clear Hash" running_world)
    as (_ & _ & Ha & Hq & _); [reflexivity | reflexivity | discriminate |].
  split; [apply Hq; reflexivity | exact Ha].
Defined.

(** ** Where the hub's reaction starts *)

Lemma bind_ext {A B} (m : M A) (f g : A -> M B) w :
  (forall a w', f a w' = g a w') -> bind m f w = bind m g w.
Proof. intros H. unfold bind. destruct (m w) as [a w1 t1|]; [rewrite H|]; reflexivity. Qed.

Lemma bind_congr {A B} (m m' : M A) (f : A -> M B) w w' :
  m w = m' w' -> bind m f w = bind m' f w'.
Proof. intros H. unfold bind. rewrite H. reflexivity. Qed.

Lemma bind_ret_tt (m : M unit) w : bind m (fun _ => ret tt) w = m w.
Proof.
  unfold bind, ret. destruct (m w) as [[] w1 t1|]; [rewrite app_nil_r|]; reflexivity.
Qed.

(** Moving what follows a sequence of steps behind its last step. *)
Ltac into_tail :=
  repeat (rewrite bind_assoc; apply bind_ext; intros ? ?; cbv beta);
  try reflexivity.

Lemma handle_bestmove_line_hub_unfold env hub line w :
  handle_bestmove_line_hub env hub line w =
    let e0 := set_unresolved_stop_time None
                (set_search_running NoSearch
                   (set_search_completed (search_running (eng w)) (eng w))) in
    let w0 := mkWorld (heap w) (info_handler w) e0 in
    let same := same_object (search_desired (eng w)) (search_running (eng w)) in
    if same || negb (truthy (node (search_desired (eng w)))) then
      bind (modify_eng (set_search_desired_field NoSearch))
        (fun _ =>
           if same && truthy (node (search_running (eng w))) then
             bind (emit (LogLine ("< " +:+ line)))
               (fun _ => bind (send_queued_setoptions env)
                  (fun _ => bind get_eng
                     (fun e => bind (emit (HubReceiveBestmove line (node (search_completed e))))
                        (fun _ => receive_bestmove hub line (node (search_completed e))))))
           else
             bind (emit (LogLine ("(ignore halted) < " +:+ line)))
               (fun _ => send_queued_setoptions env)) w0
    else
      bind (emit (LogLine ("(ignore old) < " +:+ line)))
        (fun _ => bind (send_queued_setoptions env) (fun _ => send_desired env)) w0.
Proof.
  unfold handle_bestmove_line_hub.
  rewrite bind_get_eng, !bind_modify_eng, bind_get_eng. cbv zeta.
  cbn [eng search_desired search_completed search_running set_unresolved_stop_time
       set_search_running set_search_completed heap info_handler].
  destruct (_ || _); [rewrite bind_modify_eng|]; reflexivity.
Qed.

(** The handler with a hub is the handler's own part, then the hub's
    reaction if the line was forwarded. *)
Lemma handle_bestmove_line_then_hub env hub line w :
  handle_bestmove_line_hub env hub line w =
    bind (handle_bestmove_line env line)
      (fun _ =>
         if same_object (search_desired (eng w)) (search_running (eng w)) &&
            truthy (node (search_running (eng w)))
         then receive_bestmove hub line (node (search_running (eng w)))
         else ret tt) w.
Proof.
  rewrite handle_bestmove_line_hub_unfold. cbv zeta.
  pose proof (handle_bestmove_line_unfold env line w) as Hown. cbv zeta in Hown.
  destruct (same_object (search_desired (eng w)) (search_running (eng w))) eqn:Hsame;
    cbn [orb andb] in Hown |- *.
  - destruct (truthy (node (search_running (eng w)))) eqn:Hnode.
    + rewrite (bind_congr _ _ _ _ _ Hown).
      rewrite !bind_modify_eng.
      rewrite bind_assoc, bind_modify_eng.
      rewrite (bind_Ok (emit _) _ _ tt _ [LogLine ("< " +:+ line)]) by reflexivity.
      rewrite bind_assoc.
      rewrite (bind_Ok (emit _) _ _ tt _ [LogLine ("< " +:+ line)]) by reflexivity.
      match goal with |- context [bind (send_queued_setoptions env) _ ?w1] =>
        destruct (send_queued_setoptions_ok env w1) as (e' & tr & Hd & Hu & _)
      end.
      rewrite bind_assoc, !(bind_Ok _ _ _ _ _ _ Hd).
      rewrite bind_assoc, !bind_get_eng.
      cbn [eng] in Hu |- *. unfold untouched in Hu.
      injection Hu as _ _ _ _ _ _ _ _ _ _ Hcomp. cbn in Hcomp. rewrite Hcomp.
      reflexivity.
    + rewrite bind_ret_tt. symmetry. exact Hown.
  - rewrite bind_ret_tt. symmetry. exact Hown.
Qed.

(** With the hub that does nothing these are the handler and the listeners
    as first defined. *)
Lemma handle_bestmove_line_inert env line w :
  handle_bestmove_line_hub env inert_hub line w = handle_bestmove_line env line w.
Proof.
  rewrite handle_bestmove_line_then_hub. cbn [receive_bestmove inert_hub].
  destruct (_ && _); apply bind_ret_tt.
Qed.

Lemma handle_info_line_inert env line w :
  handle_info_line_hub env inert_hub line w = handle_info_line env line w.
Proof.
  unfold handle_info_line_hub, handle_info_line. rewrite !bind_get_eng.
  destruct (node (search_running (eng w))); [|reflexivity].
  destruct (destroyed _); [reflexivity|].
  destruct (_ && _); [reflexivity|].
  rewrite !bind_get_info_handler.
  destruct (bool_decide _); [reflexivity|]. apply bind_ret_tt.
Qed.

Lemma on_stdout_line_then_hub env hub line w :
  have_quit (eng w) = false ->
  startsWith line "bestmove" = false -> startsWith line "info" = false ->
  on_stdout_line_hub env hub line w =
    bind (on_stdout_line env line) (fun _ => receive_misc hub (SafeString env line)) w.
Proof.
  intros Hq Hb Hi. unfold on_stdout_line_hub, on_stdout_line.
  rewrite bind_assoc, !bind_get_eng, Hq, Hb, Hi.
  symmetry. into_tail.
Qed.

Lemma on_stderr_line_then_hub env hub line w :
  have_quit (eng w) = false ->
  on_stderr_line_hub env hub line w =
    bind (on_stderr_line env line) (fun _ => err_receive hub (SafeString env line)) w.
Proof.
  intros Hq. unfold on_stderr_line_hub, on_stderr_line.
  rewrite bind_assoc, !bind_get_eng, Hq.
  symmetry. into_tail.
Qed.

Lemma on_stderr_line_inert env line w :
  on_stderr_line_hub env inert_hub line w = on_stderr_line env line w.
Proof.
  unfold on_stderr_line_hub, on_stderr_line. rewrite !bind_get_eng.
  destruct (have_quit (eng w)); [reflexivity|].
  apply bind_ext. intros _ w'. apply bind_ret_tt.
Qed.

Lemma on_stdout_line_inert env line w :
  on_stdout_line_hub env inert_hub line w = on_stdout_line env line w.
Proof.
  destruct (have_quit (eng w)) eqn:Hq.
  { unfold on_stdout_line_hub, on_stdout_line. rewrite !bind_get_eng, Hq. reflexivity. }
  destruct (startsWith line "bestmove") eqn:Hb.
  { unfold on_stdout_line_hub, on_stdout_line. rewrite !bind_get_eng, Hq, Hb.
    apply handle_bestmove_line_inert. }
  destruct (startsWith line "info") eqn:Hi.
  { unfold on_stdout_line_hub, on_stdout_line. rewrite !bind_get_eng, Hq, Hb, Hi.
    apply handle_info_line_inert. }
  rewrite on_stdout_line_then_hub by assumption. apply bind_ret_tt.
Qed.

Lemma on_stdout_line_returns env line : always_returns (on_stdout_line env line).
Proof.
  unfold on_stdout_line. ret_walk.
  - unfold handle_info_line, log_info. ret_walk.
  - apply setoption_returns.
Qed.

Lemma bind_trace_ends {A B} (m : M A) (f : A -> M B) ev :
  always_returns m ->
  (forall a w, exists tr, trace_of (f a w) = tr ++ [ev]) ->
  forall w, exists tr, trace_of (bind m f w) = tr ++ [ev].
Proof.
  intros Hm Hf w. specialize (Hm w). unfold bind.
  destruct (m w) as [a w1 t1|]; [|discriminate Hm].
  destruct (Hf a w1) as [tr Htr]. exists (t1 ++ tr).
  destruct (f a w1); cbn [trace_of] in *; rewrite Htr, app_assoc; reflexivity.
Qed.

(** In the stdout listener the call of [receive_misc] comes last. *)
Lemma on_stdout_line_call_last env line w :
  have_quit (eng w) = false ->
  startsWith line "bestmove" = false -> startsWith line "info" = false ->
  exists tr, trace_of (on_stdout_line env line w) =
               tr ++ [HubReceiveMisc (SafeString env line)].
Proof.
  intros Hq Hb Hi. unfold on_stdout_line. rewrite bind_get_eng, Hq, Hb, Hi.
  revert w Hq.
  assert (H : forall w, exists tr,
            trace_of (bind (emit (LogLine ("< " +:+ line)))
              (fun _ => bind (if startsWith line "option" &&
                                 includes (toLowerCase line) "uci_chess960"
                              then bind (setoption env "UCI_Chess960" "true")
                                        (fun _ => ret tt)
                              else ret tt)
                 (fun _ => bind (if startsWith line "uciok"
                                 then modify_eng (set_ever_received_uciok true)
                                 else ret tt)
                    (fun _ => bind (if startsWith line "readyok"
                                    then modify_eng (set_ever_received_readyok true)
                                    else ret tt)
                       (fun _ => emit (HubReceiveMisc (SafeString env line)))))) w) =
            tr ++ [HubReceiveMisc (SafeString env line)]).
  { apply bind_trace_ends; [ret_walk|]. intros _.
    apply bind_trace_ends; [ret_walk; apply setoption_returns|]. intros _.
    apply bind_trace_ends; [ret_walk|]. intros _.
    apply bind_trace_ends; [ret_walk|]. intros _ w. exists []. reflexivity. }
  intros w _. apply H.
Qed.

(** A [bestmove] ends every transition before the hub hears of it.  With
    any hub, the handler is its own part followed, if the line is
    forwarded, by the hub's reaction to [receive_bestmove], and by nothing
    otherwise.  At the end of the handler's own part (the state in which a
    reaction starts) no stop is unanswered and the running search is the
    desired search: both are [NoSearch], or both are the object that was
    desired, which then was another object than the one that ran and has a
    node that can be searched.  So the driver is never changing or ending a
    search when [receive_bestmove] is entered or, without a call, when the
    handler returns. *)
Theorem bestmove_ends_transition env hub line w :
  let r := handle_bestmove_line env line w in
  let e' := eng (world_of r) in
  handle_bestmove_line_hub env hub line w =
    bind (handle_bestmove_line env line)
      (fun _ =>
         if same_object (search_desired (eng w)) (search_running (eng w)) &&
            truthy (node (search_running (eng w)))
         then receive_bestmove hub line (node (search_running (eng w)))
         else ret tt) w /\
  returned r = true /\
  unresolved_stop_time e' = None /\
  search_running e' = search_desired e' /\
  (search_desired e' = NoSearch \/
   (search_desired e' = search_desired (eng w) /\
    same_object (search_desired (eng w)) (search_running (eng w)) = false /\
    exists n, node (search_desired (eng w)) = Some n /\
              destroyed (nodes env n) = false /\
              terminal_reason (nodes env n) = EmptyString)) /\
  (search_state e' = Inactive \/ search_state e' = Running).
Proof.
  cbv zeta. split; [apply handle_bestmove_line_then_hub|].
  split; [|exact (handle_bestmove_line_settles env line w)].
  apply handle_bestmove_line_returns.
Qed.

(** Lines that are neither [bestmove] nor [info], and stderr lines, before
    a quit.  With any hub, each listener is its own part followed by the
    hub's reaction to [receive_misc] or [err_receive], which is the last
    thing it does.  In its own part the stdout listener hands the line to
    [receive_misc] once, through [SafeString], makes no [bestmove] or [info]
    callback, sets the [uciok] and [readyok] flags before the call, and
    unless the line offers an option writes nothing; the stderr listener
    logs the line and hands it to [err_receive], through [SafeString], with
    the state as it was. *)
Theorem other_lines_reach_the_hub env hub line w :
  have_quit (eng w) = false ->
  (startsWith line "bestmove" = false -> startsWith line "info" = false ->
   let r := on_stdout_line env line w in
   on_stdout_line_hub env hub line w =
     bind (on_stdout_line env line)
          (fun _ => receive_misc hub (SafeString env line)) w /\
   returned r = true /\
   (exists tr, trace_of r = tr ++ [HubReceiveMisc (SafeString env line)]) /\
   misc_forwarded (trace_of r) = [SafeString env line] /\
   bestmoves_forwarded (trace_of r) = [] /\ infos_forwarded (trace_of r) = [] /\
   ever_received_uciok (eng (world_of r)) =
     ever_received_uciok (eng w) || startsWith line "uciok" /\
   ever_received_readyok (eng (world_of r)) =
     ever_received_readyok (eng w) || startsWith line "readyok" /\
   (startsWith line "option" = false -> stdin_writes (trace_of r) = [])) /\
  on_stderr_line_hub env hub line w =
    bind (on_stderr_line env line)
         (fun _ => err_receive hub (SafeString env line)) w /\
  on_stderr_line env line w =
    Ok tt w [LogLine (". " +:+ line); HubErrReceive (SafeString env line)].
Proof.
  intros Hq. destruct (listeners_own_part env line w Hq) as [Hout Herr].
  split; [|split; [apply on_stderr_line_then_hub, Hq | exact Herr]].
  intros Hb Hi. cbv zeta.
  split; [apply on_stdout_line_then_hub; assumption|].
  split; [apply on_stdout_line_returns|].
  split; [apply on_stdout_line_call_last; assumption|].
  exact (Hout Hb Hi).
Qed.

(** The engine's [uciok], with a hub that answers every such line by asking
    for a new game: the flag is set when the hub is called. *)
Lemma other_lines_reach_the_hub_witness :
  on_stdout_line_hub demo_env
      (mkHub (fun _ _ => ret tt) (fun _ _ => ret tt)
             (fun _ => send_ucinewgame demo_env) (fun _ => ret tt))
      "uciok" fresh_world =
    bind (on_stdout_line demo_env "uciok") (fun _ => send_ucinewgame demo_env) fresh_world /\
  misc_forwarded (trace_of (on_stdout_line demo_env "uciok" fresh_world)) = ["uciok"] /\
  ever_received_uciok (eng (world_of (on_stdout_line demo_env "uciok" fresh_world))) = true.
Proof.
  destruct (other_lines_reach_the_hub demo_env
              (mkHub (fun _ _ => ret tt) (fun _ _ => ret tt)
                     (fun _ => send_ucinewgame demo_env) (fun _ => ret tt))
              "uciok" fresh_world eq_refl) as [H _].
  destruct (H eq_refl eq_refl) as (Hd & _ & _ & Hm & _ & _ & Hu & _).
  split; [exact Hd|]. split; [exact Hm | exact Hu].
Defined.
